(** * pyiron_contrib: interactive co-simulation jobs

    A shallow embedding of
    - [pyiron_contrib/protocol/jobs/decoupled_oscillators.py]
      (class [DecoupledOscillators] and its input container), and of
    - [pyiron_contrib/protocol/jobs/free_energy.py]
      (the stages of class [FreeEnergy] that check an upstream job and
      clean up its working directory),
    together with the properties of these programs that their design
    specification states.

    Python objects that the code mutates in place (numpy arrays, [Atoms]
    structures) live in an explicit object store and are referred to by
    address, so that aliasing is visible.  Methods are computations in a
    state-and-exception monad: a raised exception keeps the state changes made
    before it.  Floating-point numbers are idealised as rationals. *)

From Stdlib Require Import ZArith QArith String List Lia.
From stdpp Require Import base list strings sorting.

Close Scope Q_scope.
Local Open Scope string_scope.
Local Open Scope list_scope.
Set Warnings "-register-all".

(** * Python values, exceptions and the method monad *)

Module Py.

(** The dynamically typed values that the input checks inspect. *)
Inductive PyVal : Type :=
| VNone
| VInt (z : Z)
| VFloat (q : Q)
| VStr (s : string)
| VList (l : list PyVal).

(** An attribute of a container: absent, bound to [None], or bound to a
    value. *)
Inductive slot (A : Type) : Type :=
| Missing
| IsNone
| Has (a : A).
Arguments Missing {A}.
Arguments IsNone {A}.
Arguments Has {A} a.

Inductive PyExc : Type :=
| TypeError (msg : string)
| ValueError (msg : string)
| AssertionError (msg : string)
| AttributeError (msg : string)
| IndexError (msg : string)
| KeyError (msg : string)
| OSError (msg : string)
| ZeroDivisionError (msg : string).

Inductive Res (A : Type) : Type :=
| Ok (a : A)
| Raise (e : PyExc).
Arguments Ok {A} a.
Arguments Raise {A} e.

Definition res_bind {A B} (r : Res A) (k : A -> Res B) : Res B :=
  match r with Ok a => k a | Raise e => Raise e end.

Definition of_option {A} (o : option A) (e : PyExc) : Res A :=
  match o with Some a => Ok a | None => Raise e end.

(** A method body: it reads and updates the state [S] and either returns a
    value or raises; the state reached when it raises is kept. *)
Definition M (S A : Type) : Type := S -> Res A * S.

Definition ret {S A} (a : A) : M S A := fun s => (Ok a, s).
Definition raise {S A} (e : PyExc) : M S A := fun s => (Raise e, s).
Definition bind {S A B} (m : M S A) (k : A -> M S B) : M S B :=
  fun s => match m s with
           | (Ok a, s') => k a s'
           | (Raise e, s') => (Raise e, s')
           end.
Definition gets {S A} (f : S -> A) : M S A := fun s => (Ok (f s), s).
Definition modify {S} (f : S -> S) : M S unit := fun s => (Ok tt, f s).
Definition lift {S A} (r : Res A) : M S A := fun s => (r, s).
Definition when {S} (b : bool) (m : M S unit) : M S unit :=
  if b then m else ret tt.

(** [for x in l: body x] *)
Fixpoint for_each {S A} (l : list A) (body : A -> M S unit) : M S unit :=
  match l with
  | [] => ret tt
  | x :: l' => bind (body x) (fun _ => for_each l' body)
  end.

Declare Scope py_scope.
Delimit Scope py_scope with py.
Notation "'let!' x ':=' m 'in' k" := (bind m (fun x => k))
  (at level 10, x name, m at level 100, k at level 200) : py_scope.
Notation "m ';;!' k" := (bind m (fun _ => k))
  (at level 100, k at level 200, right associativity) : py_scope.

Local Open Scope py_scope.

(** ** Sequences and indices *)

(** A Python index into a sequence of length [n]: negative indices count from
    the end, anything outside [-n, n) is out of range. *)
Definition py_index (n : nat) (i : Z) : option nat :=
  if ((0 <=? i) && (i <? Z.of_nat n))%Z then Some (Z.to_nat i)
  else if ((- Z.of_nat n <=? i) && (i <? 0))%Z
       then Some (Z.to_nat (Z.of_nat n + i))
       else None.

(** [l.pop(i)]: the sequence without its [i]-th element. *)
Definition py_pop {A} (l : list A) (i : Z) : Res (list A) :=
  match py_index (length l) i with
  | Some k => Ok (delete k l)
  | None => Raise (IndexError "pop index out of range")
  end.

(** [l[start:stop]] with an optional start and an integer stop. *)
Definition py_slice_bound (n : nat) (i : Z) : nat :=
  if (i <? 0)%Z then Z.to_nat (Z.max 0 (Z.of_nat n + i))
  else Nat.min n (Z.to_nat i).
Definition py_slice {A} (l : list A) (start : option Z) (stop : Z) : list A :=
  let n := length l in
  let lo := match start with Some i => py_slice_bound n i | None => 0%nat end in
  let hi := py_slice_bound n stop in
  take (hi - lo) (drop lo l).

(** [enumerate(l)] *)
Definition enumerate {A} (l : list A) : list (Z * A) :=
  zip (map Z.of_nat (seq 0 (length l))) l.

(** All the indices of a list, normalised, or [None] when one is out of
    range. *)
Fixpoint py_indices (n : nat) (ids : list Z) : option (list nat) :=
  match ids with
  | [] => Some []
  | i :: ids' =>
      match py_index n i, py_indices n ids' with
      | Some k, Some ks => Some (k :: ks)
      | _, _ => None
      end
  end.

(** ** numpy on arrays of rows *)

(** [a[i]] with one integer. *)
Definition np_row {A} (a : list A) (i : Z) : Res A :=
  match py_index (length a) i with
  | Some k => of_option (a !! k) (IndexError "index out of bounds")
  | None => Raise (IndexError "index out of bounds")
  end.

(** [a[ids]] with a list of integers: a new array holding the selected
    rows. *)
Fixpoint np_take {A} (a : list A) (ids : list Z) : Res (list A) :=
  match ids with
  | [] => Ok []
  | i :: ids' =>
      res_bind (np_row a i) (fun d =>
      res_bind (np_take a ids') (fun ds => Ok (d :: ds)))
  end.

(** Broadcasting of [vals] along the first axis to [k] rows: an array with
    [k] rows is taken as it is, a single row is repeated. *)
Definition np_broadcast_to {A} (k : nat) (vals : list A) : Res (list A) :=
  if Nat.eqb (length vals) k then Ok vals
  else match vals with
       | [v] => Ok (replicate k v)
       | _ => Raise (ValueError "shape mismatch: could not broadcast")
       end.

(** The writes of [a[ks] = vals], in order: a repeated index keeps the last
    value written to it. *)
Definition scatter {A} (a : list A) (ks : list nat) (vals : list A) : list A :=
  foldl (fun acc kv => <[kv.1 := kv.2]> acc) a (zip ks vals).

(** [a[ids] = vals] with a list of integers, in place. *)
Definition np_put {A} (a : list A) (ids : list Z) (vals : list A)
  : Res (list A) :=
  match py_indices (length a) ids with
  | Some ks =>
      res_bind (np_broadcast_to (length ks) vals)
               (fun vals' => Ok (scatter a ks vals'))
  | None => Raise (IndexError "index out of bounds")
  end.

(** Elementwise binary operation on two arrays of rows, with broadcasting
    along the first axis. *)
Definition np_binop {A B C} (f : A -> B -> C) (xs : list A) (ys : list B)
  : Res (list C) :=
  if Nat.eqb (length xs) (length ys) then Ok (zip_with f xs ys)
  else match xs, ys with
       | [x], _ => Ok (map (f x) ys)
       | _, [y] => Ok (map (fun x => f x y) xs)
       | _, _ => Raise (ValueError "operands could not be broadcast together")
       end.

(** The indices of [0 .. n-1] that are not in [ks], in increasing order. *)
Definition complement (n : nat) (ks : list nat) : list nat :=
  filter (fun a => a ∉ ks) (seq 0 n).

(** [np.delete(np.arange(n), ids)]: the indices of [0 .. n-1] that [ids] does
    not name, however often it names them; an index outside [-n, n) raises
    (numpy 1.19 and later). *)
Definition np_delete_arange (n : nat) (ids : list Z) : Res (list Z) :=
  match py_indices n ids with
  | Some ks => Ok (map Z.of_nat (complement n ks))
  | None => Raise (IndexError "index out of bounds for axis 0")
  end.

(** [np.sort] on integers. *)
Definition np_sort (l : list Z) : list Z := merge_sort Z.le l.

(** ** Three-component rows *)

Definition vec3 : Type := Q * Q * Q.

Definition vzero : vec3 := (0%Q, 0%Q, 0%Q).
Definition vsub (a b : vec3) : vec3 :=
  let '(a1, a2, a3) := a in let '(b1, b2, b3) := b in
  ((a1 - b1)%Q, (a2 - b2)%Q, (a3 - b3)%Q).
Definition vscale (k : Q) (a : vec3) : vec3 :=
  let '(a1, a2, a3) := a in ((k * a1)%Q, (k * a2)%Q, (k * a3)%Q).
Definition vdot (a b : vec3) : Q :=
  let '(a1, a2, a3) := a in let '(b1, b2, b3) := b in
  (a1 * b1 + a2 * b2 + a3 * b3)%Q.

(** The sum of a list of numbers. *)
Definition sum_Q (l : list Q) : Q := foldr Qplus 0%Q l.

(** Numerical equality of rows and of arrays of rows. *)
Definition veq (a b : vec3) : Prop :=
  let '(a1, a2, a3) := a in let '(b1, b2, b3) := b in
  (a1 == b1)%Q /\ (a2 == b2)%Q /\ (a3 == b3)%Q.
Definition rows_eq (xs ys : list vec3) : Prop := Forall2 veq xs ys.

(** ** Checks on dynamically typed values *)

Definition is_int (v : PyVal) : bool :=
  match v with VInt _ => true | _ => false end.
Definition is_number (v : PyVal) : bool :=
  match v with VInt _ | VFloat _ => true | _ => false end.

Definition as_int (v : PyVal) : option Z :=
  match v with VInt z => Some z | _ => None end.
Definition as_number (v : PyVal) : option Q :=
  match v with VInt z => Some (inject_Z z) | VFloat q => Some q | _ => None end.

(** The integers (numbers) of a Python list, when the value is such a list. *)
Definition as_int_list (v : PyVal) : option (list Z) :=
  match v with VList l => mapM as_int l | _ => None end.
Definition as_number_list (v : PyVal) : option (list Q) :=
  match v with VList l => mapM as_number l | _ => None end.

(** [len(v)] *)
Definition py_len (v : PyVal) : Res nat :=
  match v with
  | VList l => Ok (length l)
  | VStr s => Ok (String.length s)
  | _ => Raise (TypeError "object has no len()")
  end.

End Py.

(** * Atomistic structures *)

Module Atomistics.
Import Py.

(** An [Atoms] structure: the atoms with their positions, the cell and the
    periodicity flag. *)
Record Atom : Type := { symbol : string; position : vec3 }.
Record Atoms : Type := { atom_list : list Atom; cell : list vec3; pbc : bool }.

(** [len(structure)], [structure.positions] and [structure.pop(i)]. *)
Definition Atoms_len (a : Atoms) : nat := length (atom_list a).
Definition Atoms_positions (a : Atoms) : list vec3 := map position (atom_list a).
Definition Atoms_pop (a : Atoms) (i : Z) : Res Atoms :=
  res_bind (py_pop (atom_list a) i)
           (fun l => Ok {| atom_list := l; cell := cell a; pbc := pbc a |}).

(** [structure.cell = c] *)
Definition Atoms_set_cell (c : list vec3) (a : Atoms) : Atoms :=
  {| atom_list := atom_list a; cell := c; pbc := pbc a |}.

End Atomistics.

(** * decoupled_oscillators.py *)

Module DecoupledOscillators.
Import Py Atomistics.
Local Open Scope py_scope.

(** ** Data model *)

(** The objects of the store and their addresses. *)
Inductive PyObj : Type :=
| OAtoms (a : Atoms)
| ONdarray (rows : list vec3).
Abbreviation loc := nat.

(** An interactive engine job (Lammps, Vasp or Sphinx), as far as this class
    drives it: the reference job and the base job are of this kind. *)
Record SubJob : Type := {
  job_name : string;
  job_structure : option loc;
  interactive_positions : list vec3;
  interactive_is_open : bool;
  interactive_flush_frequency : Z;
  interactive_write_frequency : Z;
  is_saved : bool;
  status_running : bool;
  interactive_forces : list vec3;
  interactive_energy_pot : Q
}.

(** [DecoupledOscilattorsInput]: the container fields set in [__init__], and
    [positions], which exists only once it has been assigned. *)
Record Input : Type := {
  _structure : option loc;
  oscillators_id_list : PyVal;
  spring_constants_list : PyVal;
  save_debug_data : bool;
  _ref_job : slot SubJob;
  positions : slot (list vec3)
}.

(** [self.output]: what [interactive_close] assigns. *)
Record Output : Type := {
  forces : option (list (list vec3));
  energy_pot : option (list Q);
  base_forces : option (list (list vec3));
  base_energy_pot : option (list Q);
  harmonic_forces : option (list (list vec3));
  harmonic_energy_pot : option (list Q)
}.

(** [self.interactive_cache]: the list under "forces" holds references to
    array objects, the debug lists hold arrays that fancy indexing created. *)
Record Cache : Type := {
  cache_forces : list loc;
  cache_energy_pot : list Q;
  cache_base_forces : list (list vec3);
  cache_base_energy_pot : list Q;
  cache_harmonic_forces : list (list vec3);
  cache_harmonic_energy_pot : list Q
}.

(** What the input container writes to the HDF5 file: its items by value. *)
Record StoredInput : Type := {
  st_structure : option Atoms;
  st_oscillators_id_list : PyVal;
  st_spring_constants_list : PyVal;
  st_save_debug_data : bool;
  st_ref_job : slot SubJob;
  st_positions : slot (list vec3)
}.

(** The job's group of the HDF5 file. *)
Record Hdf : Type := {
  hdf_children : list (string * SubJob);
  hdf_input : option StoredInput;
  hdf_output : option Output
}.

Inductive Status : Type := initialized | running | finished.

(** A [DecoupledOscillators] job together with the object store. *)
Record Job : Type := {
  heap : list PyObj;
  self_name : string;
  server_run_mode : string;
  input : Input;
  output : Output;
  interactive_cache : Cache;
  _fast_mode : bool;
  _base_structure : option loc;
  _base_atom_ids : option (list Z);
  _forces : option loc;
  children : list (string * SubJob);
  status : Status;
  project_hdf5 : Hdf
}.

(** Field updates. *)
Definition set_heap (v : list PyObj) (j : Job) : Job :=
  {| heap := v; self_name := self_name j;
     server_run_mode := server_run_mode j; input := input j;
     output := output j; interactive_cache := interactive_cache j;
     _fast_mode := _fast_mode j; _base_structure := _base_structure j;
     _base_atom_ids := _base_atom_ids j; _forces := _forces j;
     children := children j; status := status j;
     project_hdf5 := project_hdf5 j |}.
Definition set_input (v : Input) (j : Job) : Job :=
  {| heap := heap j; self_name := self_name j;
     server_run_mode := server_run_mode j; input := v;
     output := output j; interactive_cache := interactive_cache j;
     _fast_mode := _fast_mode j; _base_structure := _base_structure j;
     _base_atom_ids := _base_atom_ids j; _forces := _forces j;
     children := children j; status := status j;
     project_hdf5 := project_hdf5 j |}.
Definition set_output (v : Output) (j : Job) : Job :=
  {| heap := heap j; self_name := self_name j;
     server_run_mode := server_run_mode j; input := input j;
     output := v; interactive_cache := interactive_cache j;
     _fast_mode := _fast_mode j; _base_structure := _base_structure j;
     _base_atom_ids := _base_atom_ids j; _forces := _forces j;
     children := children j; status := status j;
     project_hdf5 := project_hdf5 j |}.
Definition set_interactive_cache (v : Cache) (j : Job) : Job :=
  {| heap := heap j; self_name := self_name j;
     server_run_mode := server_run_mode j; input := input j;
     output := output j; interactive_cache := v;
     _fast_mode := _fast_mode j; _base_structure := _base_structure j;
     _base_atom_ids := _base_atom_ids j; _forces := _forces j;
     children := children j; status := status j;
     project_hdf5 := project_hdf5 j |}.
Definition set_base_structure (v : option loc) (j : Job) : Job :=
  {| heap := heap j; self_name := self_name j;
     server_run_mode := server_run_mode j; input := input j;
     output := output j; interactive_cache := interactive_cache j;
     _fast_mode := _fast_mode j; _base_structure := v;
     _base_atom_ids := _base_atom_ids j; _forces := _forces j;
     children := children j; status := status j;
     project_hdf5 := project_hdf5 j |}.
Definition set_base_atom_ids (v : option (list Z)) (j : Job) : Job :=
  {| heap := heap j; self_name := self_name j;
     server_run_mode := server_run_mode j; input := input j;
     output := output j; interactive_cache := interactive_cache j;
     _fast_mode := _fast_mode j; _base_structure := _base_structure j;
     _base_atom_ids := v; _forces := _forces j;
     children := children j; status := status j;
     project_hdf5 := project_hdf5 j |}.
Definition set_forces (v : option loc) (j : Job) : Job :=
  {| heap := heap j; self_name := self_name j;
     server_run_mode := server_run_mode j; input := input j;
     output := output j; interactive_cache := interactive_cache j;
     _fast_mode := _fast_mode j; _base_structure := _base_structure j;
     _base_atom_ids := _base_atom_ids j; _forces := v;
     children := children j; status := status j;
     project_hdf5 := project_hdf5 j |}.
Definition set_children (v : list (string * SubJob)) (j : Job) : Job :=
  {| heap := heap j; self_name := self_name j;
     server_run_mode := server_run_mode j; input := input j;
     output := output j; interactive_cache := interactive_cache j;
     _fast_mode := _fast_mode j; _base_structure := _base_structure j;
     _base_atom_ids := _base_atom_ids j; _forces := _forces j;
     children := v; status := status j;
     project_hdf5 := project_hdf5 j |}.
Definition set_status (v : Status) (j : Job) : Job :=
  {| heap := heap j; self_name := self_name j;
     server_run_mode := server_run_mode j; input := input j;
     output := output j; interactive_cache := interactive_cache j;
     _fast_mode := _fast_mode j; _base_structure := _base_structure j;
     _base_atom_ids := _base_atom_ids j; _forces := _forces j;
     children := children j; status := v;
     project_hdf5 := project_hdf5 j |}.
Definition set_project_hdf5 (v : Hdf) (j : Job) : Job :=
  {| heap := heap j; self_name := self_name j;
     server_run_mode := server_run_mode j; input := input j;
     output := output j; interactive_cache := interactive_cache j;
     _fast_mode := _fast_mode j; _base_structure := _base_structure j;
     _base_atom_ids := _base_atom_ids j; _forces := _forces j;
     children := children j; status := status j;
     project_hdf5 := v |}.

Definition input_set_structure (v : option loc) (i : Input) : Input :=
  {| _structure := v; oscillators_id_list := oscillators_id_list i;
     spring_constants_list := spring_constants_list i;
     save_debug_data := save_debug_data i; _ref_job := _ref_job i;
     positions := positions i |}.
Definition input_set_ref_job (v : slot SubJob) (i : Input) : Input :=
  {| _structure := _structure i; oscillators_id_list := oscillators_id_list i;
     spring_constants_list := spring_constants_list i;
     save_debug_data := save_debug_data i; _ref_job := v;
     positions := positions i |}.
Definition input_set_positions (v : slot (list vec3)) (i : Input) : Input :=
  {| _structure := _structure i; oscillators_id_list := oscillators_id_list i;
     spring_constants_list := spring_constants_list i;
     save_debug_data := save_debug_data i; _ref_job := _ref_job i;
     positions := v |}.

(** ** The engine job, as far as it is driven here *)

(** [ref_job.copy_to(new_job_name=name, input_only=True)]: a job of the same
    kind and input under a new name, not yet opened, saved or run. *)
Definition copy_to (ref : SubJob) (name : string) : SubJob :=
  {| job_name := name; job_structure := job_structure ref;
     interactive_positions := []; interactive_is_open := false;
     interactive_flush_frequency := interactive_flush_frequency ref;
     interactive_write_frequency := interactive_write_frequency ref;
     is_saved := false; status_running := false;
     interactive_forces := []; interactive_energy_pot := 0%Q |}.

Definition sub_set_structure (l : option loc) (b : SubJob) : SubJob :=
  {| job_name := job_name b; job_structure := l;
     interactive_positions := interactive_positions b;
     interactive_is_open := interactive_is_open b;
     interactive_flush_frequency := interactive_flush_frequency b;
     interactive_write_frequency := interactive_write_frequency b;
     is_saved := is_saved b; status_running := status_running b;
     interactive_forces := interactive_forces b;
     interactive_energy_pot := interactive_energy_pot b |}.
Definition sub_interactive_open (b : SubJob) : SubJob :=
  {| job_name := job_name b; job_structure := job_structure b;
     interactive_positions := interactive_positions b;
     interactive_is_open := true;
     interactive_flush_frequency := interactive_flush_frequency b;
     interactive_write_frequency := interactive_write_frequency b;
     is_saved := is_saved b; status_running := status_running b;
     interactive_forces := interactive_forces b;
     interactive_energy_pot := interactive_energy_pot b |}.
Definition sub_set_flush_frequency (f : Z) (b : SubJob) : SubJob :=
  {| job_name := job_name b; job_structure := job_structure b;
     interactive_positions := interactive_positions b;
     interactive_is_open := interactive_is_open b;
     interactive_flush_frequency := f;
     interactive_write_frequency := interactive_write_frequency b;
     is_saved := is_saved b; status_running := status_running b;
     interactive_forces := interactive_forces b;
     interactive_energy_pot := interactive_energy_pot b |}.
Definition sub_set_write_frequency (w : Z) (b : SubJob) : SubJob :=
  {| job_name := job_name b; job_structure := job_structure b;
     interactive_positions := interactive_positions b;
     interactive_is_open := interactive_is_open b;
     interactive_flush_frequency := interactive_flush_frequency b;
     interactive_write_frequency := w;
     is_saved := is_saved b; status_running := status_running b;
     interactive_forces := interactive_forces b;
     interactive_energy_pot := interactive_energy_pot b |}.
Definition sub_save (b : SubJob) : SubJob :=
  {| job_name := job_name b; job_structure := job_structure b;
     interactive_positions := interactive_positions b;
     interactive_is_open := interactive_is_open b;
     interactive_flush_frequency := interactive_flush_frequency b;
     interactive_write_frequency := interactive_write_frequency b;
     is_saved := true; status_running := status_running b;
     interactive_forces := interactive_forces b;
     interactive_energy_pot := interactive_energy_pot b |}.
Definition sub_set_running (b : SubJob) : SubJob :=
  {| job_name := job_name b; job_structure := job_structure b;
     interactive_positions := interactive_positions b;
     interactive_is_open := interactive_is_open b;
     interactive_flush_frequency := interactive_flush_frequency b;
     interactive_write_frequency := interactive_write_frequency b;
     is_saved := is_saved b; status_running := true;
     interactive_forces := interactive_forces b;
     interactive_energy_pot := interactive_energy_pot b |}.
Definition sub_positions_setter (p : list vec3) (b : SubJob) : SubJob :=
  {| job_name := job_name b; job_structure := job_structure b;
     interactive_positions := p;
     interactive_is_open := interactive_is_open b;
     interactive_flush_frequency := interactive_flush_frequency b;
     interactive_write_frequency := interactive_write_frequency b;
     is_saved := is_saved b; status_running := status_running b;
     interactive_forces := interactive_forces b;
     interactive_energy_pot := interactive_energy_pot b |}.
Definition sub_set_results (r : list vec3 * Q) (b : SubJob) : SubJob :=
  {| job_name := job_name b; job_structure := job_structure b;
     interactive_positions := interactive_positions b;
     interactive_is_open := interactive_is_open b;
     interactive_flush_frequency := interactive_flush_frequency b;
     interactive_write_frequency := interactive_write_frequency b;
     is_saved := is_saved b; status_running := status_running b;
     interactive_forces := r.1;
     interactive_energy_pot := r.2 |}.

(** ** GenericMaster: the list of child jobs *)

Definition child_names (cs : list (string * SubJob)) : list string := cs.*1.

(** [self[name]] *)
Fixpoint child_lookup (cs : list (string * SubJob)) (name : string)
  : option SubJob :=
  match cs with
  | [] => None
  | (n, b) :: cs' => if String.eqb n name then Some b else child_lookup cs' name
  end.

(** The child [name] is one object: an update through [self[name]] is seen by
    every later [self[name]]. *)
Fixpoint child_update (cs : list (string * SubJob)) (name : string)
  (b' : SubJob) : list (string * SubJob) :=
  match cs with
  | [] => []
  | (n, b) :: cs' =>
      if String.eqb n name then (n, b') :: cs'
      else (n, b) :: child_update cs' name b'
  end.

(** [self.append(job)]: a job is added under its name unless a child of that
    name is there already. *)
Definition child_append (cs : list (string * SubJob)) (b : SubJob)
  : list (string * SubJob) :=
  if existsb (String.eqb (job_name b)) (child_names cs) then cs
  else cs ++ [(job_name b, b)].

(** [__init__] *)
Definition new_input : Input :=
  {| _structure := None; oscillators_id_list := VNone;
     spring_constants_list := VNone; save_debug_data := false;
     _ref_job := IsNone; positions := Missing |}.
Definition new_output : Output :=
  {| forces := None; energy_pot := None; base_forces := None;
     base_energy_pot := None; harmonic_forces := None;
     harmonic_energy_pot := None |}.
Definition new_cache : Cache :=
  {| cache_forces := []; cache_energy_pot := []; cache_base_forces := [];
     cache_base_energy_pot := []; cache_harmonic_forces := [];
     cache_harmonic_energy_pot := [] |}.
Definition __init__ (store : list PyObj) (file : Hdf) (name mode : string)
  : Job :=
  {| heap := store; self_name := name; server_run_mode := mode;
     input := new_input; output := new_output;
     interactive_cache := new_cache; _fast_mode := true;
     _base_structure := None; _base_atom_ids := None; _forces := None;
     children := []; status := initialized; project_hdf5 := file |}.

(** ** Methods *)

Section Methods.

(** What the collaborators compute: the minimum-image convention of a
    structure ([Atoms.find_mic]), the engine's evaluation of a structure at
    given positions (forces, potential energy), and the engine's
    [interactive_close]. *)
Variable find_mic : Atoms -> list vec3 -> list vec3.
Variable calc_static : Atoms -> list vec3 -> list vec3 * Q.
Variable engine_close : SubJob -> Res SubJob.

Local Abbreviation Meth := (M Job).

(** *** The object store *)

(** The array at an address, when there is one. *)
Definition array_at (h : list PyObj) (l : loc) : option (list vec3) :=
  match h !! l with
  | Some (ONdarray a) => Some a
  | _ => None
  end.

Definition alloc (o : PyObj) : Meth loc :=
  fun j => (Ok (length (heap j)), set_heap (heap j ++ [o]) j).

Definition read_atoms (l : loc) : Meth Atoms :=
  let! h := gets heap in
  match h !! l with
  | Some (OAtoms a) => ret a
  | _ => raise (TypeError "Atoms object expected")
  end.

Definition read_array (l : loc) : Meth (list vec3) :=
  let! h := gets heap in
  match h !! l with
  | Some (ONdarray a) => ret a
  | _ => raise (TypeError "ndarray expected")
  end.

Definition write_obj (l : loc) (o : PyObj) : Meth unit :=
  modify (fun j => set_heap (<[l := o]> (heap j)) j).

(** [obj.copy()] on an [Atoms] object; on [None] there is no such method. *)
Definition atoms_copy (o : option loc) : Meth loc :=
  match o with
  | Some l => let! a := read_atoms l in alloc (OAtoms a)
  | None => raise (AttributeError "'NoneType' object has no attribute 'copy'")
  end.

(** *** Input properties *)

(** [self.input.ref_job] *)
Definition input_ref_job : Meth (option SubJob) :=
  let! r := gets (fun j => _ref_job (input j)) in
  match r with
  | Missing => raise (AttributeError "_ref_job")
  | IsNone => ret None
  | Has b => ret (Some b)
  end.

(** [self.input.ref_job.structure] *)
Definition input_ref_job_structure : Meth (option loc) :=
  let! r := input_ref_job in
  match r with
  | Some b => ret (job_structure b)
  | None =>
      raise (AttributeError "'NoneType' object has no attribute 'structure'")
  end.

(** [self.input.positions] *)
Definition input_positions : Meth (option (list vec3)) :=
  let! p := gets (fun j => positions (input j)) in
  match p with
  | Missing => raise (AttributeError "positions")
  | IsNone => ret None
  | Has a => ret (Some a)
  end.

(** The [structure] property of the job. *)
Definition structure : Meth loc :=
  let! s := gets (fun j => _structure (input j)) in
  match s with
  | None => let! r := input_ref_job_structure in atoms_copy r
  | Some l => atoms_copy (Some l)
  end.

(** The [positions] setter of the job. *)
Definition positions_setter (value : list vec3) : Meth unit :=
  modify (fun j => set_input (input_set_positions (Has value) (input j)) j).

(** *** [_check_inputs] *)

Definition _check_inputs : Meth unit :=
  let! mode := gets server_run_mode in
  (if negb (String.eqb mode "interactive")
   then raise (TypeError "<job>.server.run_mode should be set to interactive")
   else ret tt) ;;!
  let! s := gets (fun j => _structure (input j)) in
  match s with
  | Some l =>
      let! c := atoms_copy (Some l) in
      modify (set_base_structure (Some c))
  | None =>
      let! r := input_ref_job_structure in
      let! c := atoms_copy r in
      modify (fun j => set_input (input_set_structure (Some c) (input j)) j) ;;!
      let! r' := input_ref_job_structure in
      let! c' := atoms_copy r' in
      modify (set_base_structure (Some c'))
  end ;;!
  let! p := input_positions in
  (if p is None
   then raise (AssertionError "<job>.input.positions need to be provided")
   else ret tt) ;;!
  let! osc := gets (fun j => oscillators_id_list (input j)) in
  match osc with
  | VList l =>
      if negb (forallb is_int l)
      then raise (ValueError "oscillator ids should be integers")
      else ret tt
  | _ =>
      raise (ValueError
               "<job>.input.oscillators_id_list should be a list of integers")
  end ;;!
  let! ks := gets (fun j => spring_constants_list (input j)) in
  match ks with
  | VList l =>
      if negb (forallb is_number l)
      then raise (ValueError "spring constants should be integers or floats")
      else ret tt
  | _ =>
      raise (ValueError
        "<job>.input.spring_constants_list should be a list of integers or floats")
  end ;;!
  let! n := lift (py_len osc) in
  let! m := lift (py_len ks) in
  if negb (Nat.eqb n m)
  then raise (AssertionError
    "<job>.input.oscillators_id_list and <job>.input.spring_constants_list should have the same length")
  else ret tt.

(** *** [_set_base_structure] *)

(** The oscillator ids are read as the list of integers that
    [_check_inputs] has established; on any other value the method is
    modelled as raising at once. *)
Definition input_oscillator_ids : Meth (list Z) :=
  let! osc := gets (fun j => oscillators_id_list (input j)) in
  lift (of_option (as_int_list osc)
          (TypeError "oscillators_id_list is not a list of integers")).

(** The body of the loop, for the pair [(i, atom_id)]:
    [self._base_structure.pop(int(atom_id - i))]. *)
Definition pop_base_atom (ia : Z * Z) : Meth unit :=
  let new_atom_id := (ia.2 - ia.1)%Z in
  let! b := gets _base_structure in
  match b with
  | None => raise (AttributeError "'NoneType' object has no attribute 'pop'")
  | Some l =>
      let! a := read_atoms l in
      let! a' := lift (Atoms_pop a new_atom_id) in
      write_obj l (OAtoms a')
  end.

Definition _set_base_structure : Meth unit :=
  let! ids := input_oscillator_ids in
  for_each (enumerate (np_sort ids)) pop_base_atom ;;!
  let! s := gets (fun j => _structure (input j)) in
  match s with
  | None => raise (TypeError "object of type 'NoneType' has no len()")
  | Some l =>
      let! a := read_atoms l in
      let! base := lift (np_delete_arange (Atoms_len a) ids) in
      modify (set_base_atom_ids (Some base))
  end.

(** *** [_create_base_job] *)

Definition _base_name (j : Job) : string := self_name j +:+ "__base".

(** [self[name]]: a name without a child gives [None], on which every
    attribute access fails. *)
Definition self_child (name : string) : Meth SubJob :=
  let! cs := gets children in
  match child_lookup cs name with
  | Some b => ret b
  | None => raise (AttributeError "'NoneType' object has no such attribute")
  end.

Definition on_child (name : string) (f : SubJob -> SubJob) : Meth unit :=
  let! b := self_child name in
  modify (fun j => set_children (child_update (children j) name (f b)) j).

(** [interactive_initialize_interface] starts the engine's library; the
    fields modelled here do not record it. *)
Definition sub_interactive_initialize_interface (b : SubJob) : SubJob := b.

Definition _create_base_job : Meth unit :=
  let! r := input_ref_job in
  match r with
  | None =>
      raise (AttributeError "'NoneType' object has no attribute 'copy_to'")
  | Some ref =>
      let! name := gets _base_name in
      modify (fun j =>
        set_children (child_append (children j) (copy_to ref name)) j) ;;!
      let! bs := gets _base_structure in
      on_child name (sub_set_structure bs) ;;!
      on_child name sub_interactive_open ;;!
      on_child name sub_interactive_initialize_interface ;;!
      let! fast := gets _fast_mode in
      when fast
        (on_child name (sub_set_flush_frequency (10 ^ 10)) ;;!
         on_child name (sub_set_write_frequency (10 ^ 10))) ;;!
      on_child name sub_save ;;!
      on_child name sub_set_running
  end.

(** *** [_calc_static_base_job] *)

(** [job.run()] of the engine job: one evaluation at the positions pushed
    last. *)
Definition sub_run (name : string) : Meth unit :=
  let! b := self_child name in
  match job_structure b with
  | None => raise (ValueError "the job has no structure")
  | Some l =>
      let! a := read_atoms l in
      on_child name (sub_set_results (calc_static a (interactive_positions b)))
  end.

Definition _calc_static_base_job : Meth (list vec3 * Q) :=
  let! name := gets _base_name in
  let! _b := self_child name in
  let! p := input_positions in
  let! ids := gets _base_atom_ids in
  match p, ids with
  | None, _ => raise (TypeError "'NoneType' object is not subscriptable")
  | Some _, None => raise (ValueError "positions of an unexpected shape")
  | Some pos, Some base =>
      let! sel := lift (np_take pos base) in
      on_child name (sub_positions_setter sel) ;;!
      sub_run name ;;!
      let! b := self_child name in
      ret (interactive_forces b, interactive_energy_pot b)
  end.

(** *** [_calc_harmonic] *)

(** The loop that sums the energy: [acc += -0.5 * np.dot(dr[m], hf[i].T)]
    for [i, m] in [enumerate(oscillators_id_list)]. *)
Fixpoint harmonic_energy_loop (dr hf : list vec3) (items : list (Z * Z))
  (acc : Q) : Res Q :=
  match items with
  | [] => Ok acc
  | im :: rest =>
      res_bind (np_row dr im.2) (fun d =>
      res_bind (np_row hf im.1) (fun f =>
      harmonic_energy_loop dr hf rest (acc + (- (1 # 2)) * vdot d f)%Q))
  end.

(** The computation on the values read from the input: reference structure,
    current positions, spring constants and oscillator ids. *)
Definition calc_harmonic (a : Atoms) (pos : list vec3) (ks : list Q)
  (osc : list Z) : Res (list vec3 * Q) :=
  let reference_positions := Atoms_positions a in
  res_bind (np_binop vsub pos reference_positions) (fun diff =>
  let dr := find_mic a diff in
  res_bind (np_take dr osc) (fun rows =>
  res_bind (np_binop (fun k r => vscale (- k)%Q r) ks rows) (fun hf =>
  res_bind (harmonic_energy_loop dr hf (enumerate osc) 0%Q) (fun e =>
  Ok (hf, e))))).

Definition _calc_harmonic : Meth (list vec3 * Q) :=
  let! s := gets (fun j => _structure (input j)) in
  match s with
  | None =>
      raise (AttributeError "'NoneType' object has no attribute 'positions'")
  | Some l =>
      let! a := read_atoms l in
      let! p := input_positions in
      match p with
      | None => raise (TypeError "unsupported operand type(s) for -")
      | Some pos =>
          let! ksv := gets (fun j => spring_constants_list (input j)) in
          let! ks := lift (of_option (as_number_list ksv)
                             (TypeError "bad operand type for unary -")) in
          let! osc := input_oscillator_ids in
          lift (calc_harmonic a pos ks osc)
      end
  end.

(** *** [validate_ready_to_run] *)

Definition validate_ready_to_run : Meth unit :=
  _check_inputs ;;!
  _set_base_structure ;;!
  _create_base_job ;;!
  let! p := input_positions in
  match p with
  | None => raise (AttributeError "'NoneType' object has no attribute 'shape'")
  | Some pos =>
      let! l := alloc (ONdarray (replicate (length pos) vzero)) in
      modify (set_forces (Some l))
  end.

(** *** [run_if_interactive] *)

(** [self._forces[ids] = vals]: a write into the array object that
    [self._forces] refers to. *)
Definition forces_put (ids : list Z) (vals : list vec3) : Meth unit :=
  let! f := gets _forces in
  match f with
  | None =>
      raise (TypeError "'NoneType' object does not support item assignment")
  | Some l =>
      let! a := read_array l in
      let! a' := lift (np_put a ids vals) in
      write_obj l (ONdarray a')
  end.

(** [self._forces[ids]]: a new array. *)
Definition forces_take (ids : list Z) : Meth (list vec3) :=
  let! f := gets _forces in
  match f with
  | None => raise (TypeError "'NoneType' object is not subscriptable")
  | Some l => let! a := read_array l in lift (np_take a ids)
  end.

Definition base_atom_ids : Meth (list Z) :=
  let! ids := gets _base_atom_ids in
  match ids with
  | None => raise (ValueError "positions of an unexpected shape")
  | Some base => ret base
  end.

Definition cache_append_forces (f : loc) (c : Cache) : Cache :=
  {| cache_forces := cache_forces c ++ [f];
     cache_energy_pot := cache_energy_pot c;
     cache_base_forces := cache_base_forces c;
     cache_base_energy_pot := cache_base_energy_pot c;
     cache_harmonic_forces := cache_harmonic_forces c;
     cache_harmonic_energy_pot := cache_harmonic_energy_pot c |}.
Definition cache_append_energy_pot (e : Q) (c : Cache) : Cache :=
  {| cache_forces := cache_forces c;
     cache_energy_pot := cache_energy_pot c ++ [e];
     cache_base_forces := cache_base_forces c;
     cache_base_energy_pot := cache_base_energy_pot c;
     cache_harmonic_forces := cache_harmonic_forces c;
     cache_harmonic_energy_pot := cache_harmonic_energy_pot c |}.

Definition cache_append_base_forces (bf : list vec3) (c : Cache) : Cache :=
  {| cache_forces := cache_forces c;
     cache_energy_pot := cache_energy_pot c;
     cache_base_forces := cache_base_forces c ++ [bf];
     cache_base_energy_pot := cache_base_energy_pot c;
     cache_harmonic_forces := cache_harmonic_forces c;
     cache_harmonic_energy_pot := cache_harmonic_energy_pot c |}.
Definition cache_append_base_energy_pot (be : Q) (c : Cache) : Cache :=
  {| cache_forces := cache_forces c;
     cache_energy_pot := cache_energy_pot c;
     cache_base_forces := cache_base_forces c;
     cache_base_energy_pot := cache_base_energy_pot c ++ [be];
     cache_harmonic_forces := cache_harmonic_forces c;
     cache_harmonic_energy_pot := cache_harmonic_energy_pot c |}.
Definition cache_append_harmonic_forces (hf : list vec3) (c : Cache) : Cache :=
  {| cache_forces := cache_forces c;
     cache_energy_pot := cache_energy_pot c;
     cache_base_forces := cache_base_forces c;
     cache_base_energy_pot := cache_base_energy_pot c;
     cache_harmonic_forces := cache_harmonic_forces c ++ [hf];
     cache_harmonic_energy_pot := cache_harmonic_energy_pot c |}.
Definition cache_append_harmonic_energy_pot (he : Q) (c : Cache) : Cache :=
  {| cache_forces := cache_forces c;
     cache_energy_pot := cache_energy_pot c;
     cache_base_forces := cache_base_forces c;
     cache_base_energy_pot := cache_base_energy_pot c;
     cache_harmonic_forces := cache_harmonic_forces c;
     cache_harmonic_energy_pot := cache_harmonic_energy_pot c ++ [he] |}.

Definition on_cache (f : Cache -> Cache) : Meth unit :=
  modify (fun j => set_interactive_cache (f (interactive_cache j)) j).

Definition run_if_interactive : Meth unit :=
  modify (set_status running) ;;!
  let! base := _calc_static_base_job in
  let! ids := base_atom_ids in
  forces_put ids base.1 ;;!
  let base_energy_pot := base.2 in
  let! harm := _calc_harmonic in
  let! osc := input_oscillator_ids in
  forces_put osc harm.1 ;;!
  let harmonic_energy_pot := harm.2 in
  let energy_pot := (base_energy_pot + harmonic_energy_pot)%Q in
  let! f := gets _forces in
  match f with
  | None => raise (TypeError "no force array")
  | Some l => on_cache (cache_append_forces l)
  end ;;!
  on_cache (cache_append_energy_pot energy_pot) ;;!
  let! debug := gets (fun j => save_debug_data (input j)) in
  when debug
    (let! ids' := base_atom_ids in
     let! bf := forces_take ids' in
     on_cache (cache_append_base_forces bf) ;;!
     on_cache (cache_append_base_energy_pot base_energy_pot) ;;!
     let! osc' := input_oscillator_ids in
     let! hf := forces_take osc' in
     on_cache (cache_append_harmonic_forces hf) ;;!
     on_cache (cache_append_harmonic_energy_pot harmonic_energy_pot)).

(** *** Persistence: [to_hdf], [from_hdf] *)

Definition on_hdf (f : Hdf -> Hdf) : Meth unit :=
  modify (fun j => set_project_hdf5 (f (project_hdf5 j)) j).

(** [super().to_hdf()] and [super().from_hdf()]: the master writes and reads
    the list of its children. *)
Definition super_to_hdf : Meth unit :=
  let! cs := gets children in
  on_hdf (fun f => {| hdf_children := cs; hdf_input := hdf_input f;
                      hdf_output := hdf_output f |}).
Definition super_from_hdf : Meth unit :=
  let! f := gets project_hdf5 in
  modify (set_children (hdf_children f)).

(** [self.input.pop_ref()]: removes the item [_ref_job] and returns it. *)
Definition pop_ref : Meth (option SubJob) :=
  let! r := gets (fun j => _ref_job (input j)) in
  match r with
  | Missing => raise (KeyError "_ref_job")
  | IsNone =>
      modify (fun j => set_input (input_set_ref_job Missing (input j)) j) ;;!
      ret None
  | Has b =>
      modify (fun j => set_input (input_set_ref_job Missing (input j)) j) ;;!
      ret (Some b)
  end.

(** The [ref_job] setter of the input refuses what is not an interactive
    job. *)
Definition ref_job_setter (r : option SubJob) : Meth unit :=
  match r with
  | None =>
      raise (TypeError
               "Got type <class 'NoneType'>, which is not a recognized interactive job.")
  | Some b =>
      modify (fun j => set_input (input_set_ref_job (Has b) (input j)) j)
  end.

(** [self.append(job)] *)
Definition append (r : option SubJob) : Meth unit :=
  match r with
  | None => raise (AttributeError "'NoneType' object has no attribute 'server'")
  | Some b => modify (fun j => set_children (child_append (children j) b) j)
  end.

(** [self.pop()]: the last child leaves the list. *)
Definition pop : Meth SubJob :=
  let! cs := gets children in
  match last cs with
  | None => raise (IndexError "list index out of range")
  | Some nb =>
      modify (set_children (removelast cs)) ;;!
      ret nb.2
  end.

(** [self.input.to_hdf(self.project_hdf5)]: the items of the container, the
    structure by value. *)
Definition input_to_hdf : Meth unit :=
  let! i := gets input in
  let! s := match _structure i with
            | None => ret None
            | Some l => let! a := read_atoms l in ret (Some a)
            end in
  on_hdf (fun f =>
    {| hdf_children := hdf_children f;
       hdf_input :=
         Some {| st_structure := s;
                 st_oscillators_id_list := oscillators_id_list i;
                 st_spring_constants_list := spring_constants_list i;
                 st_save_debug_data := save_debug_data i;
                 st_ref_job := _ref_job i;
                 st_positions := positions i |};
       hdf_output := hdf_output f |}).

(** [self.input.from_hdf(self.project_hdf5)]: the items are read back, the
    structure as a new object. *)
Definition input_from_hdf : Meth unit :=
  let! f := gets project_hdf5 in
  match hdf_input f with
  | None => raise (ValueError "no input group in the file")
  | Some st =>
      let! s := match st_structure st with
                | None => ret None
                | Some a => let! l := alloc (OAtoms a) in ret (Some l)
                end in
      modify (set_input
        {| _structure := s;
           oscillators_id_list := st_oscillators_id_list st;
           spring_constants_list := st_spring_constants_list st;
           save_debug_data := st_save_debug_data st;
           _ref_job := st_ref_job st;
           positions := st_positions st |})
  end.

Definition output_to_hdf : Meth unit :=
  let! o := gets output in
  on_hdf (fun f => {| hdf_children := hdf_children f;
                      hdf_input := hdf_input f; hdf_output := Some o |}).

Definition output_from_hdf : Meth unit :=
  let! f := gets project_hdf5 in
  match hdf_output f with
  | None => raise (ValueError "no output group in the file")
  | Some o => modify (set_output o)
  end.

(** The test [len(self) == 0 or self[-1].job_name != ref_job] compares a
    name with a job object, which are never equal: the reference job is
    appended in every case. *)
Definition to_hdf : Meth unit :=
  super_to_hdf ;;!
  let! ref_job := pop_ref in
  append ref_job ;;!
  input_to_hdf ;;!
  ref_job_setter ref_job ;;!
  output_to_hdf.

(** [try: body / except AttributeError: handler] *)
Definition try_except_AttributeError (body handler : Meth unit) : Meth unit :=
  fun j => match body j with
           | (Raise (AttributeError _), j') => handler j'
           | r => r
           end.

Definition from_hdf : Meth unit :=
  super_from_hdf ;;!
  try_except_AttributeError
    (let! _r := input_ref_job in ret tt)
    (let! ref_job := pop in
     input_from_hdf ;;!
     ref_job_setter (Some ref_job)) ;;!
  output_from_hdf.

(** *** [interactive_close] *)

(** [np.array(self.interactive_cache["forces"])]: the arrays that the
    entries of the list refer to at this moment, stacked. *)
Definition stack_forces : Meth (list (list vec3)) :=
  let! c := gets interactive_cache in
  let! h := gets heap in
  lift (of_option (mapM (array_at h) (cache_forces c))
          (TypeError "ndarray expected")).

Definition on_output (f : Output -> Output) : Meth unit :=
  modify (fun j => set_output (f (output j)) j).

Definition out_set_forces (v : list (list vec3)) (o : Output) : Output :=
  {| forces := Some v; energy_pot := energy_pot o;
     base_forces := base_forces o; base_energy_pot := base_energy_pot o;
     harmonic_forces := harmonic_forces o;
     harmonic_energy_pot := harmonic_energy_pot o |}.
Definition out_set_energy_pot (v : list Q) (o : Output) : Output :=
  {| forces := forces o; energy_pot := Some v;
     base_forces := base_forces o; base_energy_pot := base_energy_pot o;
     harmonic_forces := harmonic_forces o;
     harmonic_energy_pot := harmonic_energy_pot o |}.
Definition out_set_base_forces (v : list (list vec3)) (o : Output) : Output :=
  {| forces := forces o; energy_pot := energy_pot o;
     base_forces := Some v; base_energy_pot := base_energy_pot o;
     harmonic_forces := harmonic_forces o;
     harmonic_energy_pot := harmonic_energy_pot o |}.
Definition out_set_base_energy_pot (v : list Q) (o : Output) : Output :=
  {| forces := forces o; energy_pot := energy_pot o;
     base_forces := base_forces o; base_energy_pot := Some v;
     harmonic_forces := harmonic_forces o;
     harmonic_energy_pot := harmonic_energy_pot o |}.
Definition out_set_harmonic_forces (v : list (list vec3)) (o : Output)
  : Output :=
  {| forces := forces o; energy_pot := energy_pot o;
     base_forces := base_forces o; base_energy_pot := base_energy_pot o;
     harmonic_forces := Some v;
     harmonic_energy_pot := harmonic_energy_pot o |}.
Definition out_set_harmonic_energy_pot (v : list Q) (o : Output) : Output :=
  {| forces := forces o; energy_pot := energy_pot o;
     base_forces := base_forces o; base_energy_pot := base_energy_pot o;
     harmonic_forces := harmonic_forces o;
     harmonic_energy_pot := Some v |}.

(** The update of the run time in the data base reads the clock and is left
    out. *)
Definition interactive_close : Meth unit :=
  let! name := gets _base_name in
  let! b := self_child name in
  let! b' := lift (engine_close b) in
  modify (fun j => set_children (child_update (children j) name b') j) ;;!
  to_hdf ;;!
  output_to_hdf ;;!
  let! fs := stack_forces in
  on_output (out_set_forces fs) ;;!
  let! c := gets interactive_cache in
  on_output (out_set_energy_pot (cache_energy_pot c)) ;;!
  let! debug := gets (fun j => save_debug_data (input j)) in
  when debug
    (let! c' := gets interactive_cache in
     on_output (out_set_base_forces (cache_base_forces c')) ;;!
     on_output (out_set_base_energy_pot (cache_base_energy_pot c')) ;;!
     on_output (out_set_harmonic_forces (cache_harmonic_forces c')) ;;!
     on_output (out_set_harmonic_energy_pot (cache_harmonic_energy_pot c')))
  ;;!
  modify (set_status finished).

(** [interactive_forces_getter], [interactive_energy_pot_getter] *)
Definition interactive_forces_getter (j : Job) : option (list (list vec3)) :=
  forces (output j).
Definition interactive_energy_pot_getter (j : Job) : option (list Q) :=
  energy_pot (output j).

End Methods.

(** ** Reading a job *)

(** The output that [interactive_close] assigns from the stacked forces [fs]
    and the cache. *)
Definition closed_output (debug : bool) (fs : list (list vec3)) (c : Cache)
  (o : Output) : Output :=
  let o1 := out_set_energy_pot (cache_energy_pot c) (out_set_forces fs o) in
  if debug
  then out_set_harmonic_energy_pot (cache_harmonic_energy_pot c)
         (out_set_harmonic_forces (cache_harmonic_forces c)
            (out_set_base_energy_pot (cache_base_energy_pot c)
               (out_set_base_forces (cache_base_forces c) o1)))
  else o1.

(** What [to_hdf] writes of the input: its items by value, the reference job
    taken out. *)
Definition stored_input (st : option Atoms) (i : Input) : StoredInput :=
  {| st_structure := st;
     st_oscillators_id_list := oscillators_id_list i;
     st_spring_constants_list := spring_constants_list i;
     st_save_debug_data := save_debug_data i;
     st_ref_job := Missing;
     st_positions := positions i |}.

(** The structure of the input, by value. *)
Definition structure_value (j : Job) (st : option Atoms) : Prop :=
  match _structure (input j) with
  | None => st = None
  | Some l => exists a, heap j !! l = Some (OAtoms a) /\ st = Some a
  end.

(** The forces that the history shows for step [i] when it is read in the
    state [j]: the array that the [i]-th entry of the list refers to. *)
Definition recorded_forces (j : Job) (i : nat) : option (list vec3) :=
  match cache_forces (interactive_cache j) !! i with
  | Some l => array_at (heap j) l
  | None => None
  end.

(** The energy that the history shows for step [i]. *)
Definition recorded_energy_pot (j : Job) (i : nat) : option Q :=
  cache_energy_pot (interactive_cache j) !! i.

(** A job is ready to step when it has its force array and its base atom ids
    are the ones that [_set_base_structure] derives from the oscillator ids
    for an array of that many rows. *)
Definition ready (j : Job) : Prop :=
  exists l F osc base,
    _forces j = Some l /\ heap j !! l = Some (ONdarray F) /\
    as_int_list (oscillators_id_list (input j)) = Some osc /\
    _base_atom_ids j = Some base /\
    np_delete_arange (length F) osc = Ok base.

(** What [_check_inputs] leaves behind when it returns: the input structure
    and the base structure are two objects with the same content [a], the
    oscillator ids are integers, the spring constants numbers, as many as
    there are ids, and the positions are there. *)
Definition inputs_checked (j : Job) (ls lb : loc) (a : Atoms) (ids : list Z)
  (ks : list Q) (pos : list vec3) : Prop :=
  server_run_mode j = "interactive" /\
  _structure (input j) = Some ls /\ heap j !! ls = Some (OAtoms a) /\
  _base_structure j = Some lb /\ heap j !! lb = Some (OAtoms a) /\
  ls <> lb /\
  as_int_list (oscillators_id_list (input j)) = Some ids /\
  as_number_list (spring_constants_list (input j)) = Some ks /\
  length ids = length ks /\
  positions (input j) = Has pos.

(** ** Stub collaborators and example jobs *)

(** No periodic wrapping: the displacement is its own minimum image. *)
Definition free_mic (a : Atoms) (d : list vec3) : list vec3 := d.

(** An engine that answers every atom with the force [0.1, 0, 0] and every
    evaluation with the energy 0.2. *)
Definition stub_calc (a : Atoms) (p : list vec3) : list vec3 * Q :=
  (map (fun _ => ((1 # 10)%Q, 0%Q, 0%Q)) p, (2 # 10)%Q).

(** An engine whose [interactive_close] marks the job as closed, whatever
    it was before. *)
Definition stub_close (b : SubJob) : Res SubJob :=
  Ok {| job_name := job_name b; job_structure := job_structure b;
        interactive_positions := interactive_positions b;
        interactive_is_open := false;
        interactive_flush_frequency := interactive_flush_frequency b;
        interactive_write_frequency := interactive_write_frequency b;
        is_saved := is_saved b; status_running := status_running b;
        interactive_forces := interactive_forces b;
        interactive_energy_pot := interactive_energy_pot b |}.

Definition mk_atoms (ps : list vec3) : Atoms :=
  {| atom_list := map (fun p => {| symbol := "Al"; position := p |}) ps;
     cell := []; pbc := false |}.

(** One atom at the origin; two and three atoms on the x axis. *)
Definition one_atom : Atoms := mk_atoms [(0, 0, 0)%Q].
Definition two_atoms : Atoms := mk_atoms [(0, 0, 0)%Q; (2, 0, 0)%Q].
Definition three_atoms : Atoms :=
  mk_atoms [(0, 0, 0)%Q; (2, 0, 0)%Q; (4, 0, 0)%Q].

Definition example_ref_job : SubJob :=
  {| job_name := "ref"; job_structure := Some 0%nat;
     interactive_positions := []; interactive_is_open := false;
     interactive_flush_frequency := 1; interactive_write_frequency := 1;
     is_saved := false; status_running := false;
     interactive_forces := []; interactive_energy_pot := 0%Q |}.

Definition empty_hdf : Hdf :=
  {| hdf_children := []; hdf_input := None; hdf_output := None |}.

(** A configured job: the structure [a] is the reference job's. *)
Definition example_job (a : Atoms) (mode : string) (osc ks : PyVal)
  (pos : list vec3) (debug : bool) : Job :=
  set_input
    {| _structure := None; oscillators_id_list := osc;
       spring_constants_list := ks; save_debug_data := debug;
       _ref_job := Has example_ref_job; positions := Has pos |}
    (__init__ [OAtoms a] empty_hdf "job" mode).

(** Two atoms, the second an oscillator of spring constant 5 displaced by
    [0.2, 0, 0]. *)
Definition two_atom_job : Job :=
  example_job two_atoms "interactive" (VList [VInt 1]) (VList [VFloat 5])
    [(0, 0, 0)%Q; ((22 # 10), 0, 0)%Q] true.

(** The same job after [validate_ready_to_run]. *)
Definition validated_two_atom_job : Job :=
  (validate_ready_to_run two_atom_job).2.

(** Two steps and the close: the oscillator is displaced by [0.2, 0, 0] in
    the first step and by [0.4, 0, 0] in the second. *)
Definition after_first_step : Job :=
  (run_if_interactive free_mic stub_calc validated_two_atom_job).2.
Definition after_second_step : Job :=
  (run_if_interactive free_mic stub_calc
     (positions_setter [(0, 0, 0)%Q; ((24 # 10), 0, 0)%Q]
        after_first_step).2).2.
Definition after_close : Job :=
  (interactive_close stub_close after_second_step).2.

(** The job of that run loaded again: a new job object for the same file,
    restored by [from_hdf]. *)
Definition reloaded : Job :=
  (from_hdf
     (__init__ (heap after_close) (project_hdf5 after_close) "job"
        "interactive")).2.

End DecoupledOscillators.

(** * free_energy.py *)

Module FreeEnergy.
Import Py Atomistics.
Local Open Scope py_scope.

(** ** Data model *)

(** The files and folders of the project, each with its path (the names from
    the root down), its kind, and whether the operating system lets it be
    deleted. *)
Record DirEntry : Type := {
  entry_path : list string;
  entry_is_file : bool;
  entry_deletable : bool
}.

(** A job that a stage delegates to: name, status, working directory and the
    output fields that the stages read. *)
Record SubJob : Type := {
  job_name : string;
  status : string;
  working_directory : list string;
  output_cells : list (list vec3);
  output_volume : list Q;
  output_energy_pot : list Q;
  final_structure : Atoms
}.

Record Input : Type := {
  temperature : option Q;
  structure : option Atoms;
  md_sampling_steps : Z;
  md_thermalization_steps : Z;
  md_n_bins : Z
}.

(** [self.output]: the results that the stages accumulate. *)
Record Output : Type := {
  minimized_energy : option Q;
  minimized_structure : option Atoms;
  fe_A_to_G_correction : option Q
}.

Record Job : Type := {
  input : Input;
  output : Output;
  _thermalize_snapshots : option Z;
  _npt_job : option SubJob;
  _minimized_structure : option Atoms;
  files : list DirEntry
}.

Definition set_output (v : Output) (j : Job) : Job :=
  {| input := input j; output := v;
     _thermalize_snapshots := _thermalize_snapshots j;
     _npt_job := _npt_job j; _minimized_structure := _minimized_structure j;
     files := files j |}.
Definition set_thermalize_snapshots (v : option Z) (j : Job) : Job :=
  {| input := input j; output := output j;
     _thermalize_snapshots := v;
     _npt_job := _npt_job j; _minimized_structure := _minimized_structure j;
     files := files j |}.
Definition set_minimized_structure (v : option Atoms) (j : Job) : Job :=
  {| input := input j; output := output j;
     _thermalize_snapshots := _thermalize_snapshots j;
     _npt_job := _npt_job j; _minimized_structure := v;
     files := files j |}.
Definition set_files (v : list DirEntry) (j : Job) : Job :=
  {| input := input j; output := output j;
     _thermalize_snapshots := _thermalize_snapshots j;
     _npt_job := _npt_job j; _minimized_structure := _minimized_structure j;
     files := v |}.

Definition out_set_minimized_energy (v : Q) (o : Output) : Output :=
  {| minimized_energy := Some v; minimized_structure := minimized_structure o;
     fe_A_to_G_correction := fe_A_to_G_correction o |}.
Definition out_set_minimized_structure (v : Atoms) (o : Output) : Output :=
  {| minimized_energy := minimized_energy o; minimized_structure := Some v;
     fe_A_to_G_correction := fe_A_to_G_correction o |}.
Definition out_set_fe_A_to_G_correction (v : Q) (o : Output) : Output :=
  {| minimized_energy := minimized_energy o;
     minimized_structure := minimized_structure o;
     fe_A_to_G_correction := Some v |}.

(** ** Paths *)

(** [abspath(join(d, '../..'))] *)
Definition up_two (d : list string) : list string :=
  removelast (removelast d).

(** Is [p] a proper prefix of [q]: does [q] lie below the folder [p]? *)
Fixpoint below (p q : list string) : bool :=
  match p, q with
  | [], _ :: _ => true
  | a :: p', b :: q' => String.eqb a b && below p' q'
  | _, _ => false
  end.

(** [glob(dir + '/' + name + '_*')]: the entries of the folder [dir] whose
    name starts with [name] and an underscore. *)
Definition glob_matches (dir : list string) (name : string) (e : DirEntry)
  : bool :=
  match last (entry_path e) with
  | Some leaf =>
      bool_decide (removelast (entry_path e) = dir)
      && String.prefix (name +:+ "_") leaf
  | None => false
  end.
Definition glob (dir : list string) (name : string) (fs : list DirEntry)
  : list DirEntry :=
  filter (fun e => glob_matches dir name e = true) fs.

(** [os.remove(f)]: the file is gone, or the system refuses. *)
Definition remove (e : DirEntry) : M (list DirEntry) unit :=
  fun fs =>
    if entry_deletable e
    then (Ok tt, filter (fun x => entry_path x <> entry_path e) fs)
    else (Raise (OSError "cannot remove"), fs).

(** [shutil.rmtree(f)]: what lies below the folder is deleted first, in the
    order of the listing, then the folder itself; the first refusal raises
    and keeps what was deleted before it. *)
Definition rmtree (e : DirEntry) : M (list DirEntry) unit :=
  let! fs := gets (fun fs => fs) in
  for_each
    (filter (fun x => below (entry_path e) (entry_path x) = true) fs ++ [e])
    remove.

(** A computation on the files, run on the job. *)
Definition on_files {A} (m : M (list DirEntry) A) : M Job A :=
  fun j => let r := m (files j) in (r.1, set_files r.2 j).

(** ** [_cleanup_job] *)

Definition _cleanup_job (job : SubJob) : M Job unit :=
  let! fs := gets files in
  for_each (glob (up_two (working_directory job)) (job_name job) fs)
    (fun f =>
       if entry_is_file f then on_files (remove f) else on_files (rmtree f)).

(** ** The stages *)

Section Stages.

(** What the collaborators compute: the mean of a list of cells, the Lammps
    minimisation of a structure (the finished job and the files that its run
    leaves in the project), and the fit that turns the sampled volumes into
    the Helmholtz-to-Gibbs correction at a temperature. *)
Variable mean_cell : list (list vec3) -> list vec3.
Variable run_min_npt_job : Atoms -> SubJob * list DirEntry.
Variable fit_A_to_G : option Q -> list Q -> Z -> Res Q.

(** [int(a / b)] on integers. *)
Definition int_div (a b : Z) : Res Z :=
  if (b =? 0)%Z then Raise (ZeroDivisionError "division by zero")
  else Ok (Z.quot a b).

Definition on_output (f : Output -> Output) : M Job unit :=
  modify (fun j => set_output (f (output j)) j).

Definition get_npt_md_structure : M Job unit :=
  let! npt := gets _npt_job in
  match npt with
  | None =>
      raise (ValueError
        "`run_npt_md()´ needs to be called before `get_npt_md_structure()´")
  | Some npt_job =>
      (if negb (String.eqb (status npt_job) "finished")
       then raise (ValueError "the NPT-MD job is not finished")
       else _cleanup_job npt_job) ;;!
      let! i := gets input in
      let! t := lift (int_div (md_thermalization_steps i) (md_sampling_steps i)) in
      modify (set_thermalize_snapshots (Some t)) ;;!
      let average_cell :=
        mean_cell (py_slice (output_cells npt_job) (Some t) (-1)) in
      match structure i with
      | None =>
          raise (AttributeError "'NoneType' object has no attribute 'copy'")
      | Some s =>
          let run := run_min_npt_job (Atoms_set_cell average_cell s) in
          let min_npt_job := run.1 in
          modify (fun j => set_files (files j ++ run.2) j) ;;!
          let! e := lift (of_option (last (output_energy_pot min_npt_job))
                            (IndexError "index -1 is out of bounds")) in
          on_output (out_set_minimized_energy e) ;;!
          _cleanup_job min_npt_job ;;!
          on_output (out_set_minimized_structure (final_structure min_npt_job))
          ;;!
          modify (set_minimized_structure (Some (final_structure min_npt_job)))
      end
  end.

Definition get_A_to_G_correction : M Job unit :=
  let! npt := gets _npt_job in
  match npt with
  | None =>
      raise (ValueError
        "`run_npt_md()´ needs to be called before `get_A_to_G_correction()´")
  | Some npt_job =>
      let! t := gets _thermalize_snapshots in
      let volumes := py_slice (output_volume npt_job) t (-1) in
      let! i := gets input in
      let! c := lift (fit_A_to_G (temperature i) volumes (md_n_bins i)) in
      on_output (out_set_fe_A_to_G_correction c)
  end.

End Stages.

(** ** Stub collaborators and example jobs *)

Definition stub_mean_cell (cells : list (list vec3)) : list vec3 := [].

Definition idle_job (name status : string) (dir : list string) : SubJob :=
  {| job_name := name; status := status; working_directory := dir;
     output_cells := [[]; []; []]; output_volume := [1%Q; 2%Q; 3%Q];
     output_energy_pot := [(- (3))%Q];
     final_structure := {| atom_list := []; cell := []; pbc := true |} |}.

(** A minimisation that finishes and leaves its folder in the project. *)
Definition stub_run_min_npt_job (a : Atoms) : SubJob * list DirEntry :=
  (idle_job "min_npt_job" "finished"
     ["pr"; "npt_md"; "min_npt_job_hdf5"; "min_npt_job"],
   [ {| entry_path := ["pr"; "npt_md"; "min_npt_job_hdf5"];
        entry_is_file := false; entry_deletable := true |} ]).

(** A fit that always succeeds. *)
Definition stub_fit_A_to_G (t : option Q) (volumes : list Q) (bins : Z)
  : Res Q :=
  Ok (- (1 # 100))%Q.

Definition no_output : Output :=
  {| minimized_energy := None; minimized_structure := None;
     fe_A_to_G_correction := None |}.

Definition example_input : Input :=
  {| temperature := Some 300%Q;
     structure := Some {| atom_list := []; cell := []; pbc := true |};
     md_sampling_steps := 10; md_thermalization_steps := 100;
     md_n_bins := 100 |}.

(** A job whose NPT-MD job has the given status, over the given files. *)
Definition example_job (npt_status : string) (fs : list DirEntry) : Job :=
  {| input := example_input; output := no_output;
     _thermalize_snapshots := None;
     _npt_job :=
       Some (idle_job "npt_job" npt_status
               ["pr"; "npt_md"; "npt_job_hdf5"; "npt_job"]);
     _minimized_structure := None;
     files := fs |}.



End FreeEnergy.

(** * Facts about the Python and numpy operations *)

Module PyFacts.
Import Py.

Lemma py_index_lt (n : nat) (i : Z) (k : nat) :
  py_index n i = Some k -> (k < n)%nat.
Proof.
  unfold py_index.
  destruct ((0 <=? i)%Z && (i <? Z.of_nat n)%Z) eqn:E1.
  - intros [= <-]. apply andb_true_iff in E1 as [H1 H2]. lia.
  - destruct ((- Z.of_nat n <=? i)%Z && (i <? 0)%Z) eqn:E2; [|discriminate].
    intros [= <-]. apply andb_true_iff in E2 as [H1 H2]. lia.
Qed.

Lemma py_index_nonneg (n k : nat) :
  (k < n)%nat -> py_index n (Z.of_nat k) = Some k.
Proof.
  intros H. unfold py_index.
  replace ((0 <=? Z.of_nat k)%Z && (Z.of_nat k <? Z.of_nat n)%Z) with true.
  - by rewrite Nat2Z.id.
  - symmetry. apply andb_true_iff. split; lia.
Qed.

Lemma py_indices_length (n : nat) (ids : list Z) (ks : list nat) :
  py_indices n ids = Some ks -> length ks = length ids.
Proof.
  revert ks. induction ids as [|i ids IH]; intros ks; simpl.
  - by intros [= <-].
  - destruct (py_index n i); [|discriminate].
    destruct (py_indices n ids); [|discriminate].
    intros [= <-]. simpl. f_equal. by apply IH.
Qed.


Lemma py_indices_nonneg (n : nat) (l : list nat) :
  Forall (fun k => (k < n)%nat) l ->
  py_indices n (map Z.of_nat l) = Some l.
Proof.
  induction 1 as [|k l Hk _ IH]; simpl; [done|].
  by rewrite py_index_nonneg, IH.
Qed.

(** ** Writes through a list of indices *)

Lemma scatter_cons {A} (a : list A) k ks v vals :
  scatter a (k :: ks) (v :: vals) = scatter (<[k := v]> a) ks vals.
Proof. reflexivity. Qed.

Lemma scatter_length {A} (a : list A) ks vals :
  length (scatter a ks vals) = length a.
Proof.
  revert a vals. induction ks as [|k ks IH]; intros a [|v vals]; try done.
  rewrite scatter_cons, IH. apply length_insert.
Qed.




(** ** The complement of a list of indices *)

Lemma elem_of_complement (n : nat) (ks : list nat) (a : nat) :
  a ∈ complement n ks <-> (a < n)%nat /\ a ∉ ks.
Proof.
  unfold complement. rewrite list_elem_of_filter, elem_of_seq. split.
  - intros [H1 H2]. split; [lia|done].
  - intros [H1 H2]. split; [done|lia].
Qed.

Lemma NoDup_complement (n : nat) (ks : list nat) : NoDup (complement n ks).
Proof. apply NoDup_filter, NoDup_seq. Qed.

Lemma np_delete_arange_ok (n : nat) (ids : list Z) (base : list Z) :
  np_delete_arange n ids = Ok base ->
  exists ks, py_indices n ids = Some ks /\
             base = map Z.of_nat (complement n ks).
Proof.
  unfold np_delete_arange. destruct (py_indices n ids) as [ks|]; [|discriminate].
  intros [= <-]. by exists ks.
Qed.


(** ** Inversion of method bodies that return *)

Lemma bind_ok_inv {S A B} (m : M S A) (k : A -> M S B) (s s' : S) (b : B) :
  bind m k s = (Ok b, s') ->
  exists a s1, m s = (Ok a, s1) /\ k a s1 = (Ok b, s').
Proof.
  unfold bind. destruct (m s) as [[a|e] s1]; [eauto|discriminate].
Qed.

Lemma bind_ok {S A B} (m : M S A) (k : A -> M S B) (s s1 : S) (a : A) :
  m s = (Ok a, s1) -> bind m k s = k a s1.
Proof. unfold bind. by intros ->. Qed.

Lemma bind_raise {S A B} (m : M S A) (k : A -> M S B) (s s1 : S) (e : PyExc) :
  m s = (Raise e, s1) -> bind m k s = (Raise e, s1).
Proof. unfold bind. by intros ->. Qed.

Lemma gets_ok_inv {S A} (f : S -> A) (s s' : S) (a : A) :
  gets f s = (Ok a, s') -> a = f s /\ s' = s.
Proof. unfold gets. by intros [= <- <-]. Qed.

Lemma modify_ok_inv {S} (f : S -> S) (s s' : S) (u : unit) :
  modify f s = (Ok u, s') -> s' = f s.
Proof. unfold modify. by intros [= <-]. Qed.

Lemma lift_ok_inv {S A} (r : Res A) (s s' : S) (a : A) :
  lift r s = (Ok a, s') -> r = Ok a /\ s' = s.
Proof. unfold lift. by intros [= <- <-]. Qed.

Lemma ret_ok_inv {S A} (x a : A) (s s' : S) :
  @ret S A x s = (Ok a, s') -> a = x /\ s' = s.
Proof. unfold ret. by intros [= <- <-]. Qed.

Lemma of_option_ok_inv {A} (o : option A) (e : PyExc) (a : A) :
  of_option o e = Ok a -> o = Some a.
Proof. destruct o; simpl; congruence. Qed.

(** Resolves the primitive steps at the head of a hypothesis
    [H : (let! x := m in k) s = (Ok b, s')]. *)
Ltac minv H :=
  repeat
    (lazymatch type of H with
     | bind (gets _) _ _ = (Ok _, _) =>
         let a := fresh "a" in let s := fresh "s" in let Hm := fresh "Hm" in
         apply bind_ok_inv in H as (a & s & Hm & H);
         apply gets_ok_inv in Hm as [-> ->]
     | bind (modify _) _ _ = (Ok _, _) =>
         let a := fresh "a" in let s := fresh "s" in let Hm := fresh "Hm" in
         apply bind_ok_inv in H as (a & s & Hm & H);
         apply modify_ok_inv in Hm as ->; clear a
     | bind (lift _) _ _ = (Ok _, _) =>
         let a := fresh "a" in let s := fresh "s" in let Hm := fresh "Hm" in
         apply bind_ok_inv in H as (a & s & Hm & H);
         apply lift_ok_inv in Hm as [Hm ->]
     | bind (ret _) _ _ = (Ok _, _) =>
         let a := fresh "a" in let s := fresh "s" in let Hm := fresh "Hm" in
         apply bind_ok_inv in H as (a & s & Hm & H);
         apply ret_ok_inv in Hm as [-> ->]
     end).

End PyFacts.

(** * Properties of [DecoupledOscillators] *)

Module DecoupledOscillatorsProperties.
Import Py Atomistics DecoupledOscillators PyFacts.
Local Open Scope py_scope.

(** ** The harmonic correction *)

Lemma np_take_cons_ok {A} (a : list A) (m : Z) (ids : list Z) (rows : list A) :
  np_take a (m :: ids) = Ok rows ->
  exists d rows', rows = d :: rows' /\ np_row a m = Ok d /\
                  np_take a ids = Ok rows'.
Proof.
  simpl. destruct (np_row a m) as [d|]; [|discriminate]. simpl.
  destruct (np_take a ids) as [rows'|]; [|discriminate]. simpl.
  intros [= <-]. eauto.
Qed.

Lemma np_take_length {A} (a : list A) (ids : list Z) (rows : list A) :
  np_take a ids = Ok rows -> length rows = length ids.
Proof.
  revert rows. induction ids as [|m ids IH]; intros rows H.
  - by injection H as <-.
  - apply np_take_cons_ok in H as (d & rows' & -> & _ & H).
    simpl. f_equal. by apply IH.
Qed.

(** The row that [a[ids]] holds at place [i] is [a[ids[i]]]. *)
Lemma np_take_lookup {A} (a : list A) (ids : list Z) (rows : list A)
  (i : nat) (m : Z) :
  np_take a ids = Ok rows -> ids !! i = Some m ->
  exists d, rows !! i = Some d /\ np_row a m = Ok d.
Proof.
  revert rows i. induction ids as [|x ids IH]; intros rows i H Hi.
  - by rewrite lookup_nil in Hi.
  - apply np_take_cons_ok in H as (d & rows' & -> & Hd & H).
    destruct i as [|i]; simpl in *.
    + injection Hi as <-. eauto.
    + eauto.
Qed.

Lemma np_row_app_r {A} (pre fs : list A) (f : A) :
  np_row (pre ++ f :: fs) (Z.of_nat (length pre)) = Ok f.
Proof.
  unfold np_row. rewrite py_index_nonneg.
  - by rewrite list_lookup_middle.
  - rewrite length_app. simpl. lia.
Qed.

(** The energy loop visits the displacement and the force of every
    oscillator, in the order of the list. *)
Lemma harmonic_energy_loop_fold (dr : list vec3) (osc : list Z) :
  forall (ds pre fs : list vec3) (acc : Q),
    np_take dr osc = Ok ds -> length fs = length osc ->
    harmonic_energy_loop dr (pre ++ fs)
      (zip (map Z.of_nat (seq (length pre) (length osc))) osc) acc
    = Ok (fold_left (fun a df => (a + (- (1 # 2)) * vdot df.1 df.2)%Q)
            (zip ds fs) acc).
Proof.
  induction osc as [|m osc IH]; intros ds pre fs acc Hds Hlen.
  - injection Hds as <-. reflexivity.
  - apply np_take_cons_ok in Hds as (d & ds' & -> & Hd & Hds).
    destruct fs as [|f fs]; [discriminate|]. injection Hlen as Hlen.
    cbn [length seq map zip zip_with harmonic_energy_loop fst snd].
    rewrite Hd, np_row_app_r. cbn [res_bind].
    specialize (IH ds' (pre ++ [f]) fs).
    rewrite length_app, Nat.add_1_r, <- app_assoc in IH.
    by apply IH.
Qed.

Lemma fold_left_sum_Q {A} (g : A -> Q) (l : list A) (acc : Q) :
  (fold_left (fun a x => (a + g x)%Q) l acc == acc + sum_Q (map g l))%Q.
Proof.
  revert acc. induction l as [|x l IH]; intros acc; simpl.
  - ring.
  - rewrite IH. ring.
Qed.

Lemma harmonic_term (k : Q) (d : vec3) :
  ((- (1 # 2)) * vdot d (vscale (- k) d) == (1 # 2) * k * vdot d d)%Q.
Proof. destruct d as [[d1 d2] d3]. simpl. ring. Qed.

Lemma energy_terms (ks : list Q) (ds : list vec3) :
  (sum_Q (zip_with (fun d f => (- (1 # 2)) * vdot d f) ds
            (zip_with (fun k d => vscale (- k) d) ks ds))
   == sum_Q (zip_with (fun k d => (1 # 2) * k * vdot d d) ks ds))%Q.
Proof.
  revert ds. induction ks as [|k ks IH]; intros [|d ds]; simpl;
    try reflexivity.
  by rewrite harmonic_term, IH.
Qed.

Lemma map_zip_with_pair {A B C} (g : A * B -> C) (xs : list A) (ys : list B) :
  map g (zip xs ys) = zip_with (fun x y => g (x, y)) xs ys.
Proof.
  revert ys. induction xs as [|x xs IH]; intros [|y ys]; simpl; try done.
  by rewrite IH.
Qed.

(** C1 (as amended).  For the oscillators [osc] with spring constants [ks],
    [_calc_harmonic] returns for every place [i] of the list the force
    [-k_i] times the minimum-image displacement of atom [osc[i]], and as
    energy the sum over the oscillators of [-0.5 * displacement . force],
    which is the sum of [0.5 * k_i * |displacement|^2]: the energy carries no
    second factor [k_i] and is not negative for positive spring constants. *)
Theorem C1_harmonic_formula (find_mic : Atoms -> list vec3 -> list vec3)
  (a : Atoms) (pos : list vec3) (ks : list Q) (osc : list Z)
  (hf : list vec3) (e : Q) :
  length ks = length osc ->
  calc_harmonic find_mic a pos ks osc = Ok (hf, e) ->
  exists diff ds,
    np_binop vsub pos (Atoms_positions a) = Ok diff /\
    np_take (find_mic a diff) osc = Ok ds /\
    (forall i m k, osc !! i = Some m -> ks !! i = Some k ->
       exists d, np_row (find_mic a diff) m = Ok d /\
                 ds !! i = Some d /\
                 hf !! i = Some (vscale (- k)%Q d)) /\
    (e == sum_Q (zip_with (fun d f => (- (1 # 2)) * vdot d f) ds hf))%Q /\
    (e == sum_Q (zip_with (fun k d => (1 # 2) * k * vdot d d) ks ds))%Q.
Proof.
  intros Hlen H. unfold calc_harmonic in H.
  destruct (np_binop vsub pos (Atoms_positions a)) as [diff|] eqn:Ediff;
    [|discriminate]. cbn [res_bind] in H.
  destruct (np_take (find_mic a diff) osc) as [ds|] eqn:Eds; [|discriminate].
  cbn [res_bind] in H.
  pose proof (np_take_length _ _ _ Eds) as Hds.
  unfold np_binop in H at 1.
  replace (Nat.eqb (length ks) (length ds)) with true in H
    by (symmetry; apply Nat.eqb_eq; congruence).
  cbn [res_bind] in H.
  set (hf0 := zip_with (fun k r => vscale (- k)%Q r) ks ds) in *.
  assert (Hhf : length hf0 = length osc).
  { unfold hf0. rewrite length_zip_with. lia. }
  pose proof (harmonic_energy_loop_fold (find_mic a diff) osc ds [] hf0 0%Q
                Eds Hhf) as Hloop.
  simpl length in Hloop. rewrite app_nil_l in Hloop.
  unfold enumerate in H. rewrite Hloop in H. cbn [res_bind] in H.
  injection H as <- <-.
  exists diff, ds. split; [done|]. split; [done|].
  assert (He : (fold_left
                  (fun a0 df => (a0 + (- (1 # 2)) * vdot df.1 df.2)%Q)
                  (zip ds hf0) 0
                == sum_Q (zip_with (fun d f => (- (1 # 2)) * vdot d f)
                            ds hf0))%Q).
  { rewrite (fold_left_sum_Q (fun df => ((- (1 # 2)) * vdot df.1 df.2)%Q)).
    rewrite map_zip_with_pair. simpl. ring. }
  split; [|split].
  - intros i m k Hm Hk.
    destruct (np_take_lookup _ _ _ _ _ Eds Hm) as (d & Hd & Hrow).
    exists d. split; [done|]. split; [done|].
    unfold hf0. rewrite lookup_zip_with, Hk. simpl. by rewrite Hd.
  - exact He.
  - rewrite He. unfold hf0. apply energy_terms.
Qed.

(** The spec's example through [C1_harmonic_formula]: reference position
    [0,0,0], current position [1,0,0], spring constant 2, no periodic
    wrapping give the force [-2,0,0] and the energy [+1]. *)
Lemma C1_harmonic_example :
  exists hf e,
    calc_harmonic free_mic one_atom [(1, 0, 0)%Q] [2%Q] [0%Z] = Ok (hf, e) /\
    rows_eq hf [((- 2)%Q, 0%Q, 0%Q)] /\ (e == 1)%Q.
Proof.
  eexists _, _. split; [vm_compute; reflexivity|].
  destruct (C1_harmonic_formula free_mic one_atom [(1, 0, 0)%Q] [2%Q] [0%Z]
              _ _ eq_refl eq_refl)
    as (diff & ds & Hdiff & Hds & Hf & _ & He).
  vm_compute in Hdiff. injection Hdiff as <-.
  vm_compute in Hds. injection Hds as <-.
  split.
  - repeat constructor.
  - rewrite He. reflexivity.
Defined.

(** C1, as the spec words it, fails on its own example: the energy that the
    code returns there is [+1], which is neither the stated [-1.0] nor the
    value [-0.5 * k * displacement . force = 2] of the stated formula.  In
    the spec's two-atom scenario the step records the energy
    [0.2 + 0.1 = 0.3], not the stated [0.2 - 0.1 = 0.1]. *)
Lemma C1_energy_counterexample :
  (exists hf e,
     calc_harmonic free_mic one_atom [(1, 0, 0)%Q] [2%Q] [0%Z] = Ok (hf, e) /\
     ~ (e == - (1))%Q /\
     ~ (e == (- (1 # 2)) * 2 * vdot (1, 0, 0)%Q ((- 2)%Q, 0%Q, 0%Q))%Q) /\
  (exists e,
     recorded_energy_pot after_first_step 0 = Some e /\
     (e == 3 # 10)%Q /\ ~ (e == 1 # 10)%Q).
Proof.
  split.
  - eexists _, _. split; [vm_compute; reflexivity|].
    split; intros H; vm_compute in H; discriminate.
  - eexists. split; [vm_compute; reflexivity|].
    split; [reflexivity|]. intros H. vm_compute in H. discriminate.
Qed.

(** ** What the methods do when they return *)

Lemma child_lookup_update cs name b b' :
  child_lookup cs name = Some b ->
  child_lookup (child_update cs name b') name = Some b'.
Proof.
  induction cs as [|[n c] cs IH]; simpl; [done|].
  destruct (String.eqb n name) eqn:E; simpl; rewrite E; [done|auto].
Qed.

Section Steps.

Variable find_mic : Atoms -> list vec3 -> list vec3.
Variable calc_static : Atoms -> list vec3 -> list vec3 * Q.

Lemma self_child_ok_inv name j b j' :
  self_child name j = (Ok b, j') ->
  j' = j /\ child_lookup (children j) name = Some b.
Proof.
  unfold self_child. intros H. minv H.
  destruct (child_lookup (children j) name); [|discriminate].
  by apply ret_ok_inv in H as [-> ->].
Qed.

Lemma on_child_ok_inv name f j u j' :
  on_child name f j = (Ok u, j') ->
  exists b, child_lookup (children j) name = Some b /\
            j' = set_children (child_update (children j) name (f b)) j.
Proof.
  unfold on_child. intros H.
  apply bind_ok_inv in H as (b & s & Hb & H).
  apply self_child_ok_inv in Hb as [-> Hb].
  apply modify_ok_inv in H as ->. eauto.
Qed.

Lemma read_atoms_ok_inv l j a j' :
  read_atoms l j = (Ok a, j') -> j' = j /\ heap j !! l = Some (OAtoms a).
Proof.
  unfold read_atoms. intros H. minv H.
  destruct (heap j !! l) as [[a0|?]|]; try discriminate.
  by apply ret_ok_inv in H as [-> ->].
Qed.

Lemma read_array_ok_inv l j a j' :
  read_array l j = (Ok a, j') -> j' = j /\ heap j !! l = Some (ONdarray a).
Proof.
  unfold read_array. intros H. minv H.
  destruct (heap j !! l) as [[?|a0]|]; try discriminate.
  by apply ret_ok_inv in H as [-> ->].
Qed.

Lemma input_positions_ok_inv j p j' :
  input_positions j = (Ok p, j') ->
  j' = j /\
  positions (input j) = match p with Some a => Has a | None => IsNone end.
Proof.
  unfold input_positions. intros H. minv H.
  destruct (positions (input j)); try discriminate;
    by apply ret_ok_inv in H as [-> ->].
Qed.

Lemma input_oscillator_ids_ok_inv j osc j' :
  input_oscillator_ids j = (Ok osc, j') ->
  j' = j /\ as_int_list (oscillators_id_list (input j)) = Some osc.
Proof.
  unfold input_oscillator_ids. intros H. minv H.
  apply lift_ok_inv in H as [H ->]. by apply of_option_ok_inv in H.
Qed.

Lemma base_atom_ids_ok_inv j base j' :
  base_atom_ids j = (Ok base, j') -> j' = j /\ _base_atom_ids j = Some base.
Proof.
  unfold base_atom_ids. intros H. minv H.
  destruct (_base_atom_ids j); [|discriminate].
  by apply ret_ok_inv in H as [-> ->].
Qed.

Lemma forces_put_ok_inv ids vals j u j' :
  forces_put ids vals j = (Ok u, j') ->
  exists l F F',
    _forces j = Some l /\ heap j !! l = Some (ONdarray F) /\
    np_put F ids vals = Ok F' /\
    j' = set_heap (<[l := ONdarray F']> (heap j)) j.
Proof.
  unfold forces_put. intros H. minv H.
  destruct (_forces j) as [l|] eqn:El; [|discriminate].
  apply bind_ok_inv in H as (F & s & HF & H).
  apply read_array_ok_inv in HF as [-> HF].
  apply bind_ok_inv in H as (F' & s & HF' & H).
  apply lift_ok_inv in HF' as [HF' ->].
  unfold write_obj in H. apply modify_ok_inv in H as ->.
  eauto 10.
Qed.

Lemma forces_take_ok_inv ids j rows j' :
  forces_take ids j = (Ok rows, j') ->
  j' = j /\
  exists l F, _forces j = Some l /\ heap j !! l = Some (ONdarray F) /\
              np_take F ids = Ok rows.
Proof.
  unfold forces_take. intros H. minv H.
  destruct (_forces j) as [l|] eqn:El; [|discriminate].
  apply bind_ok_inv in H as (F & s & HF & H).
  apply read_array_ok_inv in HF as [-> HF].
  apply lift_ok_inv in H as [H ->]. eauto 10.
Qed.

(** [_calc_harmonic] reads the input and changes nothing. *)
Lemma _calc_harmonic_ok_inv j r j' :
  _calc_harmonic find_mic j = (Ok r, j') ->
  j' = j /\
  exists ls a pos ks osc,
    _structure (input j) = Some ls /\ heap j !! ls = Some (OAtoms a) /\
    positions (input j) = Has pos /\
    as_number_list (spring_constants_list (input j)) = Some ks /\
    as_int_list (oscillators_id_list (input j)) = Some osc /\
    calc_harmonic find_mic a pos ks osc = Ok r.
Proof.
  unfold _calc_harmonic. intros H. minv H.
  destruct (_structure (input j)) as [ls|] eqn:Els; [|discriminate].
  apply bind_ok_inv in H as (a & s & Ha & H).
  apply read_atoms_ok_inv in Ha as [-> Ha].
  apply bind_ok_inv in H as (p & s & Hp & H).
  apply input_positions_ok_inv in Hp as [-> Hp].
  destruct p as [pos|]; [|discriminate].
  minv H. apply of_option_ok_inv in Hm.
  apply bind_ok_inv in H as (osc & s & Hosc & H).
  apply input_oscillator_ids_ok_inv in Hosc as [-> Hosc].
  apply lift_ok_inv in H as [H ->]. eauto 15.
Qed.

(** [_calc_static_base_job] changes the base job only; what it returns is
    the engine's evaluation of the base structure at the positions of the
    base atoms. *)
Lemma _calc_static_base_job_ok_inv j r j' :
  _calc_static_base_job calc_static j = (Ok r, j') ->
  exists cs pos base sel b lb ab,
    j' = set_children cs j /\
    positions (input j) = Has pos /\ _base_atom_ids j = Some base /\
    np_take pos base = Ok sel /\
    child_lookup (children j) (_base_name j) = Some b /\
    job_structure b = Some lb /\
    heap j !! lb = Some (OAtoms ab) /\
    r = calc_static ab sel.
Proof.
  unfold _calc_static_base_job. intros H. minv H.
  apply bind_ok_inv in H as (b0 & s & Hb0 & H).
  apply self_child_ok_inv in Hb0 as [-> Hb0].
  apply bind_ok_inv in H as (p & s & Hp & H).
  apply input_positions_ok_inv in Hp as [-> Hp].
  minv H.
  destruct p as [pos|]; [|discriminate].
  destruct (_base_atom_ids j) as [base|] eqn:Eb; [|discriminate].
  minv H. rename Hm into Hsel.
  apply bind_ok_inv in H as (u1 & s & H1 & H).
  apply on_child_ok_inv in H1 as (b1 & Hb1 & ->).
  apply bind_ok_inv in H as (u2 & s & H2 & H).
  unfold sub_run in H2.
  apply bind_ok_inv in H2 as (b2 & s2 & Hb2 & H2).
  apply self_child_ok_inv in Hb2 as [-> Hb2].
  simpl in Hb2. rewrite (child_lookup_update _ _ _ _ Hb1) in Hb2.
  injection Hb2 as <-. simpl in H2.
  destruct (job_structure b1) as [lb|] eqn:Elb; [|discriminate].
  apply bind_ok_inv in H2 as (ab & s3 & Hab & H2).
  apply read_atoms_ok_inv in Hab as [-> Hab]. simpl in Hab.
  apply on_child_ok_inv in H2 as (b3 & Hb3 & ->).
  apply bind_ok_inv in H as (b4 & s4 & Hb4 & H).
  apply self_child_ok_inv in Hb4 as [-> Hb4].
  simpl in Hb4. rewrite (child_lookup_update _ _ _ _ Hb3) in Hb4.
  injection Hb4 as <-.
  apply ret_ok_inv in H as [-> ->]. simpl.
  rewrite Hb0 in Hb1. injection Hb1 as <-.
  eexists _, pos, base, _, b0, lb, ab.
  split; [reflexivity|]. repeat (split; [done|]).
  by destruct (calc_static ab a).
Qed.

End Steps.

Section Interactive.

Variable find_mic : Atoms -> list vec3 -> list vec3.
Variable calc_static : Atoms -> list vec3 -> list vec3 * Q.

(** One successful step, spelled out: the base forces and then the harmonic
    forces are written into the one array that [_forces] refers to, and that
    reference and the sum of the two energies are appended to the history. *)
Lemma run_if_interactive_ok_inv j u j' :
  run_if_interactive find_mic calc_static j = (Ok u, j') ->
  exists l F F1 F2 base osc bf be hf he cs c',
    _forces j = Some l /\ heap j !! l = Some (ONdarray F) /\
    _base_atom_ids j = Some base /\
    as_int_list (oscillators_id_list (input j)) = Some osc /\
    (_calc_static_base_job calc_static (set_status running j)).1
      = Ok (bf, be) /\
    np_put F base bf = Ok F1 /\
    _calc_harmonic find_mic j = (Ok (hf, he), j) /\
    np_put F1 osc hf = Ok F2 /\
    j' = set_interactive_cache c'
           (set_heap (<[l := ONdarray F2]> (heap j))
              (set_children cs (set_status running j))) /\
    cache_forces c' = cache_forces (interactive_cache j) ++ [l] /\
    cache_energy_pot c'
      = cache_energy_pot (interactive_cache j) ++ [(be + he)%Q].
Proof.
  unfold run_if_interactive. intros H. minv H.
  apply bind_ok_inv in H as ([bf be] & s & Hbase & H).
  pose proof Hbase as Hbase'.
  apply _calc_static_base_job_ok_inv in Hbase'
    as (cs & pos & base & sel & b & lb & ab & -> & Hpos & Hb & Hsel & _).
  simpl in Hpos, Hb.
  apply bind_ok_inv in H as (base' & s & Hids & H).
  apply base_atom_ids_ok_inv in Hids as [-> Hids]. simpl in Hids.
  rewrite Hb in Hids. injection Hids as <-.
  apply bind_ok_inv in H as (u1 & s & Hput & H).
  apply forces_put_ok_inv in Hput as (l & F & F1 & Hl & HF & HF1 & ->).
  simpl in Hl, HF, HF1.
  apply bind_ok_inv in H as ([hf he] & s & Hharm & H).
  pose proof Hharm as Hharm'.
  apply _calc_harmonic_ok_inv in Hharm'
    as (-> & ls & a & pos' & ks & osc & Hls & Ha & Hpos' & Hks & Hosc & Hcalc).
  simpl in Hls, Ha, Hpos', Hks, Hosc.
  apply bind_ok_inv in H as (osc' & s & Hosc' & H).
  apply input_oscillator_ids_ok_inv in Hosc' as [-> Hosc']. simpl in Hosc'.
  rewrite Hosc in Hosc'. injection Hosc' as <-.
  apply bind_ok_inv in H as (u2 & s & Hput2 & H).
  apply forces_put_ok_inv in Hput2 as (l' & F1' & F2 & Hl' & HF1' & HF2 & ->).
  simpl in Hl', HF1', HF2. rewrite Hl in Hl'. injection Hl' as <-.
  rewrite list_lookup_insert_eq in HF1' by (by eapply lookup_lt_Some).
  injection HF1' as <-.
  minv H. simpl in H. rewrite Hl in H.
  apply bind_ok_inv in H as (u3 & s & Hc1 & H).
  unfold on_cache in Hc1. apply modify_ok_inv in Hc1 as ->.
  apply bind_ok_inv in H as (u4 & s & Hc2 & H).
  unfold on_cache in Hc2. apply modify_ok_inv in Hc2 as ->.
  minv H. simpl in H.
  assert (Hls' : ls <> l).
  { intros ->. rewrite list_lookup_insert_eq in Ha
      by (by eapply lookup_lt_Some). discriminate. }
  rewrite list_lookup_insert_ne in Ha by done.
  assert (Hharm0 : _calc_harmonic find_mic j = (Ok (hf, he), j)).
  { unfold _calc_harmonic, read_atoms, input_positions, input_oscillator_ids,
      bind, gets, lift, ret.
    rewrite Hls, Ha, Hpos', Hks, Hosc. cbn [of_option]. by rewrite Hcalc. }
  exists l, F, F1, F2, base, osc, bf, be, hf, he, cs.
  destruct (save_debug_data (input j)) eqn:Edebug; cbn [when] in H.
  - apply bind_ok_inv in H as (ids' & s & Hids' & H).
    apply base_atom_ids_ok_inv in Hids' as [-> _].
    apply bind_ok_inv in H as (bf' & s & Hbf' & H).
    apply forces_take_ok_inv in Hbf' as [-> _].
    apply bind_ok_inv in H as (u5 & s & Hc3 & H).
    unfold on_cache in Hc3. apply modify_ok_inv in Hc3 as ->.
    apply bind_ok_inv in H as (u6 & s & Hc4 & H).
    unfold on_cache in Hc4. apply modify_ok_inv in Hc4 as ->.
    apply bind_ok_inv in H as (osc' & s & Hosc' & H).
    apply input_oscillator_ids_ok_inv in Hosc' as [-> _].
    apply bind_ok_inv in H as (hf' & s & Hhf' & H).
    apply forces_take_ok_inv in Hhf' as [-> _].
    apply bind_ok_inv in H as (u7 & s & Hc5 & H).
    unfold on_cache in Hc5. apply modify_ok_inv in Hc5 as ->.
    unfold on_cache in H. apply modify_ok_inv in H as ->.
    eexists. rewrite Hbase. repeat (split; [done|]).
    cbn -[insert]. rewrite list_insert_insert_eq.
    split; [reflexivity|]. split; reflexivity.
  - apply ret_ok_inv in H as [_ ->].
    eexists. rewrite Hbase. repeat (split; [done|]).
    cbn -[insert]. rewrite list_insert_insert_eq.
    split; [reflexivity|]. split; reflexivity.
Qed.

End Interactive.

(** ** Additivity of a step *)

Lemma np_put_ok_inv {A} (a : list A) (ids : list Z) (vals a' : list A) :
  np_put a ids vals = Ok a' ->
  exists ks vals',
    py_indices (length a) ids = Some ks /\
    np_broadcast_to (length ids) vals = Ok vals' /\
    a' = scatter a ks vals'.
Proof.
  unfold np_put. destruct (py_indices (length a) ids) as [ks|] eqn:E;
    [|discriminate].
  rewrite (py_indices_length _ _ _ E).
  destruct (np_broadcast_to (length ids) vals) as [vals'|]; [|discriminate].
  simpl. intros [= <-]. eauto.
Qed.

Lemma py_indices_elem (n : nat) (ids : list Z) (ks : list nat) (k : nat) :
  py_indices n ids = Some ks ->
  (k ∈ ks <-> exists m, m ∈ ids /\ py_index n m = Some k).
Proof.
  revert ks. induction ids as [|x ids IH]; intros ks; simpl.
  - intros [= <-]. split.
    + intros H. by apply elem_of_nil in H.
    + intros (m & H & _). by apply elem_of_nil in H.
  - destruct (py_index n x) as [k0|] eqn:Ex; [|discriminate].
    destruct (py_indices n ids) as [ks'|] eqn:Er; [|discriminate].
    intros [= <-]. rewrite elem_of_cons, (IH ks' eq_refl). split.
    + intros [->|(m & Hm & Hk)].
      * exists x. split; [by left|done].
      * exists m. split; [by right|done].
    + intros (m & Hm & Hk). apply elem_of_cons in Hm as [->|Hm].
      * left. congruence.
      * right. eauto.
Qed.


Section Additivity.

Variable find_mic : Atoms -> list vec3 -> list vec3.
Variable calc_static : Atoms -> list vec3 -> list vec3 * Q.


End Additivity.


(** ** Validation *)

Lemma forallb_is_int (l : list PyVal) :
  forallb is_int l = true -> exists ids, mapM as_int l = Some ids /\
                                         length ids = length l.
Proof.
  induction l as [|v l IH]; simpl.
  - by exists [].
  - intros H. apply andb_true_iff in H as [Hv Hl].
    destruct (IH Hl) as (ids & -> & Hlen).
    destruct v; try discriminate. simpl. exists (z :: ids).
    split; [done|]. simpl. by rewrite Hlen.
Qed.

Lemma forallb_is_number (l : list PyVal) :
  forallb is_number l = true -> exists ks, mapM as_number l = Some ks /\
                                           length ks = length l.
Proof.
  induction l as [|v l IH]; simpl.
  - by exists [].
  - intros H. apply andb_true_iff in H as [Hv Hl].
    destruct (IH Hl) as (ks & -> & Hlen).
    destruct v; try discriminate; simpl; eexists; (split; [done|]);
      simpl; by rewrite Hlen.
Qed.

Lemma alloc_ok_inv o j l j' :
  alloc o j = (Ok l, j') ->
  l = length (heap j) /\ j' = set_heap (heap j ++ [o]) j.
Proof. unfold alloc. by intros [= <- <-]. Qed.

Lemma atoms_copy_ok_inv o j l j' :
  atoms_copy o j = (Ok l, j') ->
  exists l0 a, o = Some l0 /\ heap j !! l0 = Some (OAtoms a) /\
               l = length (heap j) /\
               j' = set_heap (heap j ++ [OAtoms a]) j.
Proof.
  unfold atoms_copy. destruct o as [l0|]; [|discriminate]. intros H.
  apply bind_ok_inv in H as (a & s & Ha & H).
  apply read_atoms_ok_inv in Ha as [-> Ha].
  apply alloc_ok_inv in H as [-> ->]. eauto 10.
Qed.

Lemma input_ref_job_ok_inv j r j' :
  input_ref_job j = (Ok r, j') ->
  j' = j /\
  _ref_job (input j) = match r with Some b => Has b | None => IsNone end.
Proof.
  unfold input_ref_job. intros H. minv H.
  destruct (_ref_job (input j)); try discriminate;
    by apply ret_ok_inv in H as [-> ->].
Qed.

Lemma input_ref_job_structure_ok_inv j o j' :
  input_ref_job_structure j = (Ok o, j') ->
  j' = j /\ exists b, _ref_job (input j) = Has b /\ o = job_structure b.
Proof.
  unfold input_ref_job_structure. intros H.
  apply bind_ok_inv in H as (r & s & Hr & H).
  apply input_ref_job_ok_inv in Hr as [-> Hr].
  destruct r as [b|]; [|discriminate].
  apply ret_ok_inv in H as [-> ->]. eauto.
Qed.

(** What [_check_inputs] has established when it returns. *)
Lemma _check_inputs_ok_inv j u j1 :
  _check_inputs j = (Ok u, j1) ->
  exists ls lb a ids ks pos,
    inputs_checked j1 ls lb a ids ks pos /\
    children j1 = children j /\ self_name j1 = self_name j /\
    _ref_job (input j1) = _ref_job (input j) /\
    _fast_mode j1 = _fast_mode j /\
    oscillators_id_list (input j1) = oscillators_id_list (input j) /\
    positions (input j1) = positions (input j).
Proof.
  unfold _check_inputs. intros H. minv H.
  apply bind_ok_inv in H as (u0 & s & Hmode & H).
  destruct (String.eqb (server_run_mode j) "interactive") eqn:Emode;
    [|discriminate].
  apply String.eqb_eq in Emode.
  apply ret_ok_inv in Hmode as [_ ->]. minv H.
  apply bind_ok_inv in H as (u1 & j0 & H1 & H).
  assert (Hstruct : exists ls lb a,
    _structure (input j0) = Some ls /\ heap j0 !! ls = Some (OAtoms a) /\
    _base_structure j0 = Some lb /\ heap j0 !! lb = Some (OAtoms a) /\
    ls <> lb /\ children j0 = children j /\ self_name j0 = self_name j /\
    _ref_job (input j0) = _ref_job (input j) /\
    _fast_mode j0 = _fast_mode j /\
    server_run_mode j0 = server_run_mode j /\
    oscillators_id_list (input j0) = oscillators_id_list (input j) /\
    spring_constants_list (input j0) = spring_constants_list (input j) /\
    positions (input j0) = positions (input j)).
  { destruct (_structure (input j)) as [l0|] eqn:El0.
    - apply bind_ok_inv in H1 as (c & s1 & Hc & H1).
      apply atoms_copy_ok_inv in Hc as (l0' & a & [= <-] & Ha & -> & ->).
      apply modify_ok_inv in H1 as ->.
      pose proof (lookup_lt_Some _ _ _ Ha) as Hlt.
      exists l0, (length (heap j)), a.
      split; [|split; [|split; [|split; [|split]]]];
        [| | | | |repeat (split; [reflexivity|]); reflexivity]; cbn.
      + done.
      + by rewrite lookup_app_l.
      + done.
      + by rewrite list_lookup_middle.
      + lia.
    - apply bind_ok_inv in H1 as (r & s1 & Hr & H1).
      apply input_ref_job_structure_ok_inv in Hr as (-> & b & Hb & ->).
      apply bind_ok_inv in H1 as (c & s1 & Hc & H1).
      apply atoms_copy_ok_inv in Hc as (l0 & a & Hl0 & Ha & -> & ->).
      minv H1.
      apply bind_ok_inv in H1 as (r' & s1 & Hr' & H1).
      apply input_ref_job_structure_ok_inv in Hr' as (-> & b' & Hb' & ->).
      cbn in Hb'. rewrite Hb in Hb'. injection Hb' as <-.
      apply bind_ok_inv in H1 as (c' & s1 & Hc' & H1).
      apply atoms_copy_ok_inv in Hc' as (l0' & a' & Hl0' & Ha' & -> & ->).
      rewrite Hl0 in Hl0'. injection Hl0' as <-.
      cbn in Ha'. pose proof (lookup_lt_Some _ _ _ Ha) as Hlt.
      rewrite lookup_app_l, Ha in Ha' by done. injection Ha' as <-.
      apply modify_ok_inv in H1 as ->.
      exists (length (heap j)), (length (heap j ++ [OAtoms a])), a.
      split; [|split; [|split; [|split; [|split]]]];
        [| | | | |repeat (split; [reflexivity|]); reflexivity]; cbn.
      + done.
      + rewrite lookup_app_l by (rewrite length_app; simpl; lia).
        by rewrite list_lookup_middle.
      + done.
      + by rewrite list_lookup_middle.
      + rewrite length_app. simpl. lia. }
  clear H1.
  destruct Hstruct as (ls & lb & a & Hls & Hals & Hlb & Halb & Hne & Hcs
                       & Hname & Href & Hfast & Hmode & Hosc & Hks & Hpos).
  apply bind_ok_inv in H as (p & s & Hp & H).
  apply input_positions_ok_inv in Hp as [-> Hp].
  apply bind_ok_inv in H as (u2 & s & Hnone & H).
  destruct p as [pos|]; [|discriminate].
  apply ret_ok_inv in Hnone as [_ ->]. minv H.
  apply bind_ok_inv in H as (u3 & s & Hints & H).
  destruct (oscillators_id_list (input j0)) as [| | | |osc_l] eqn:Eosc;
    try discriminate.
  destruct (forallb is_int osc_l) eqn:Eints; [|discriminate].
  apply ret_ok_inv in Hints as [_ ->]. minv H.
  apply bind_ok_inv in H as (u4 & s & Hnums & H).
  destruct (spring_constants_list (input j0)) as [| | | |ks_l] eqn:Eks;
    try discriminate.
  destruct (forallb is_number ks_l) eqn:Enums; [|discriminate].
  apply ret_ok_inv in Hnums as [_ ->]. minv H.
  simpl in Hm, Hm0. injection Hm as <-. injection Hm0 as <-.
  destruct (Nat.eqb_spec (length osc_l) (length ks_l)) as [Elen|];
    [|discriminate].
  apply ret_ok_inv in H as [_ ->].
  destruct (forallb_is_int _ Eints) as (ids & Hids & Hidlen).
  destruct (forallb_is_number _ Enums) as (ks & Hnum & Hkslen).
  exists ls, lb, a, ids, ks, pos.
  split.
  { unfold inputs_checked. rewrite Eosc, Eks. cbn [as_int_list as_number_list].
    repeat (split; [done || congruence|]). done. }
  repeat (split; [done || congruence|]). congruence.
Qed.

(** C7.  When the run mode of the job's server is not "interactive",
    [validate_ready_to_run] raises the [TypeError] of the run-mode check (the
    spec's ConfigurationError) and leaves the whole job as it was: no
    structure is copied, no base job is created, opened or saved. *)
Theorem C7_run_mode_checked_first (j : Job) :
  server_run_mode j <> "interactive" ->
  validate_ready_to_run j
  = (Raise (TypeError "<job>.server.run_mode should be set to interactive"),
     j).
Proof.
  intros Hmode. apply String.eqb_neq in Hmode.
  unfold validate_ready_to_run, _check_inputs.
  apply bind_raise.
  rewrite (bind_ok _ _ j j (server_run_mode j)) by reflexivity.
  apply bind_raise. by rewrite Hmode.
Qed.

(** [C7_run_mode_checked_first] on the two-atom job submitted to a queue. *)
Lemma C7_queue_job_rejected :
  let j := example_job two_atoms "queue" (VList [VInt 1]) (VList [VFloat 5])
             [(0, 0, 0)%Q; ((22 # 10), 0, 0)%Q] true in
  validate_ready_to_run j
  = (Raise (TypeError "<job>.server.run_mode should be set to interactive"),
     j) /\
  children (validate_ready_to_run j).2 = [].
Proof.
  intros j.
  assert (H : server_run_mode j <> "interactive") by discriminate.
  split.
  - exact (C7_run_mode_checked_first j H).
  - by rewrite (C7_run_mode_checked_first j H).
Defined.

Lemma set_heap_id (j : Job) : set_heap (heap j) j = j.
Proof. by destruct j. Qed.

Lemma py_pop_error {A} (l : list A) (i : Z) (e : PyExc) :
  py_pop l i = Raise e -> exists msg, e = IndexError msg.
Proof.
  unfold py_pop. destruct (py_index (length l) i); [discriminate|].
  intros [= <-]. eauto.
Qed.

Lemma Atoms_pop_error (a : Atoms) (i : Z) (e : PyExc) :
  Atoms_pop a i = Raise e -> exists msg, e = IndexError msg.
Proof.
  unfold Atoms_pop. destruct (py_pop (atom_list a) i) eqn:E; [discriminate|].
  simpl. intros [= <-]. by eapply py_pop_error.
Qed.

Lemma pop_base_atom_spec (ia : Z * Z) (j : Job) (lb : loc) (a0 : Atoms) :
  _base_structure j = Some lb -> heap j !! lb = Some (OAtoms a0) ->
  exists r a2,
    pop_base_atom ia j = (r, set_heap (<[lb := OAtoms a2]> (heap j)) j) /\
    (r = Ok tt \/ exists msg, r = Raise (IndexError msg)).
Proof.
  intros Hlb Ha0. unfold pop_base_atom. cbn zeta.
  rewrite (bind_ok _ _ j j (Some lb)) by (unfold gets; by rewrite Hlb).
  rewrite (bind_ok (read_atoms lb) _ j j a0)
    by (unfold read_atoms, bind, gets; by rewrite Ha0).
  destruct (Atoms_pop a0 (ia.2 - ia.1)) as [a'|e] eqn:Epop.
  - exists (Ok tt), a'. split; [|by left].
    by rewrite (bind_ok (lift (Ok a')) _ j j a').
  - apply Atoms_pop_error in Epop as [msg ->].
    exists (Raise (IndexError msg)), a0. split; [|right; eauto].
    rewrite (bind_raise (lift (Raise (IndexError msg))) _ j j
               (IndexError msg)) by reflexivity.
    by rewrite list_insert_id, set_heap_id.
Qed.

(** The loop of [_set_base_structure] changes the base structure only, and
    when it stops early it is with an [IndexError]. *)
Lemma pop_loop_spec (items : list (Z * Z)) :
  forall (j : Job) (lb : loc) (a0 : Atoms),
    _base_structure j = Some lb -> heap j !! lb = Some (OAtoms a0) ->
    exists r a2,
      for_each items pop_base_atom j
      = (r, set_heap (<[lb := OAtoms a2]> (heap j)) j) /\
      (r = Ok tt \/ exists msg, r = Raise (IndexError msg)).
Proof.
  induction items as [|ia items IH]; intros j lb a0 Hlb Ha0.
  - exists (Ok tt), a0. split; [|by left]. cbn [for_each].
    by rewrite list_insert_id, set_heap_id.
  - cbn [for_each].
    destruct (pop_base_atom_spec ia j lb a0 Hlb Ha0)
      as (r1 & a1 & Hpop & [->|[msg ->]]).
    + rewrite (bind_ok _ _ _ _ _ Hpop).
      destruct (IH (set_heap (<[lb := OAtoms a1]> (heap j)) j) lb a1)
        as (r & a2 & Hloop & Hr).
      * done.
      * cbn. apply list_lookup_insert_eq. by eapply lookup_lt_Some.
      * exists r, a2. rewrite Hloop. split; [|done]. cbn.
        by rewrite list_insert_insert_eq.
    + exists (Raise (IndexError msg)), a1. split; [|right; eauto].
      by rewrite (bind_raise _ _ _ _ _ Hpop).
Qed.

Lemma np_delete_arange_error (n : nat) (ids : list Z) (e : PyExc) :
  np_delete_arange n ids = Raise e -> exists msg, e = IndexError msg.
Proof.
  unfold np_delete_arange. destruct (py_indices n ids); [discriminate|].
  intros [= <-]. eauto.
Qed.

(** [_set_base_structure] on checked inputs: it returns with the base atom
    ids that [np.delete] computes, or raises an [IndexError]; besides these
    ids it changes the base structure only. *)
Lemma _set_base_structure_spec j ls lb a ids ks pos :
  inputs_checked j ls lb a ids ks pos ->
  exists a2,
    let j' := set_heap (<[lb := OAtoms a2]> (heap j)) j in
    (exists base, np_delete_arange (Atoms_len a) ids = Ok base /\
       _set_base_structure j = (Ok tt, set_base_atom_ids (Some base) j')) \/
    (exists msg, _set_base_structure j = (Raise (IndexError msg), j')).
Proof.
  intros (Hmode & Hls & Hals & Hlb & Halb & Hne & Hids & Hks & Hlen & Hpos).
  destruct (pop_loop_spec (enumerate (np_sort ids)) j lb a Hlb Halb)
    as (r & a2 & Hloop & Hr).
  exists a2. cbn zeta.
  unfold _set_base_structure.
  rewrite (bind_ok input_oscillator_ids _ j j ids).
  2:{ unfold input_oscillator_ids.
      rewrite (bind_ok _ _ j j (oscillators_id_list (input j))) by reflexivity.
      by rewrite Hids. }
  destruct Hr as [->|[msg ->]].
  - rewrite (bind_ok _ _ _ _ _ Hloop).
    set (j' := set_heap (<[lb:=OAtoms a2]> (heap j)) j).
    rewrite (bind_ok _ _ j' j' (Some ls)) by (unfold gets; cbn; by rewrite Hls).
    rewrite (bind_ok (read_atoms ls) _ j' j' a).
    2:{ unfold read_atoms, bind, gets. cbn.
        by rewrite list_lookup_insert_ne, Hals by done. }
    destruct (np_delete_arange (Atoms_len a) ids) as [base|e] eqn:Edel.
    + left. exists base. split; [done|]. reflexivity.
    + right. apply np_delete_arange_error in Edel as [msg ->]. by exists msg.
  - right. exists msg. by rewrite (bind_raise _ _ _ _ _ Hloop).
Qed.

(** [_create_base_job] changes the children of the job only. *)
Lemma _create_base_job_ok_inv j u j' :
  _create_base_job j = (Ok u, j') -> exists cs, j' = set_children cs j.
Proof.
  unfold _create_base_job. intros H.
  apply bind_ok_inv in H as (r & s & Hr & H).
  apply input_ref_job_ok_inv in Hr as [-> Hr].
  destruct r as [ref|]; [|discriminate]. minv H.
  apply bind_ok_inv in H as (u1 & s & H1 & H).
  apply on_child_ok_inv in H1 as (b1 & _ & ->).
  apply bind_ok_inv in H as (u2 & s & H2 & H).
  apply on_child_ok_inv in H2 as (b2 & _ & ->).
  apply bind_ok_inv in H as (u3 & s & H3 & H).
  apply on_child_ok_inv in H3 as (b3 & _ & ->).
  minv H.
  apply bind_ok_inv in H as (u4 & s & H4 & H).
  assert (Hfast : exists cs, s = set_children cs j).
  { cbn in H4. destruct (_fast_mode j); cbn [when] in H4.
    - apply bind_ok_inv in H4 as (u5 & s5 & H5 & H4).
      apply on_child_ok_inv in H5 as (b5 & _ & ->).
      apply on_child_ok_inv in H4 as (b6 & _ & ->). by eexists.
    - apply ret_ok_inv in H4 as [_ ->]. by eexists. }
  destruct Hfast as (cs4 & ->).
  apply bind_ok_inv in H as (u7 & s & H7 & H).
  apply on_child_ok_inv in H7 as (b7 & _ & ->).
  apply on_child_ok_inv in H as (b8 & _ & ->). by eexists.
Qed.

(** A validation that returns has checked the inputs, derived the base atom
    ids from the oscillator ids, created the base job and allocated the force
    array, one zero row for every row of the positions. *)
Lemma validate_ready_to_run_ok_inv j u j4 :
  validate_ready_to_run j = (Ok u, j4) ->
  exists j1 ls lb a ids ks pos a2 base cs,
    _check_inputs j = (Ok tt, j1) /\
    inputs_checked j1 ls lb a ids ks pos /\
    np_delete_arange (Atoms_len a) ids = Ok base /\
    j4 = set_forces (Some (length (heap j1)))
           (set_heap (<[lb := OAtoms a2]> (heap j1)
                        ++ [ONdarray (replicate (length pos) vzero)])
              (set_children cs
                 (set_base_atom_ids (Some base) j1))).
Proof.
  unfold validate_ready_to_run. intros H.
  apply bind_ok_inv in H as ([] & j1 & Hcheck & H).
  destruct (_check_inputs_ok_inv _ _ _ Hcheck)
    as (ls & lb & a & ids & ks & pos & Hchecked & _).
  apply bind_ok_inv in H as ([] & j2 & Hset & H).
  destruct (_set_base_structure_spec _ _ _ _ _ _ _ Hchecked)
    as (a2 & [(base & Hdel & Hset')|(msg & Hset')]);
    rewrite Hset' in Hset; [|discriminate].
  injection Hset as <-.
  apply bind_ok_inv in H as ([] & j3 & Hcreate & H).
  apply _create_base_job_ok_inv in Hcreate as (cs & ->).
  apply bind_ok_inv in H as (p & s & Hp & H).
  apply input_positions_ok_inv in Hp as [-> Hp]. cbn in Hp.
  destruct Hchecked as (? & ? & ? & ? & ? & ? & ? & ? & ? & Hpos).
  rewrite Hpos in Hp. destruct p as [pos'|]; [|discriminate].
  injection Hp as <-.
  apply bind_ok_inv in H as (l & s & Hl & H).
  apply alloc_ok_inv in Hl as [-> ->].
  apply modify_ok_inv in H as ->. cbn.
  exists j1, ls, lb, a, ids, ks, pos, a2, base, cs.
  repeat (split; [done|]).
  rewrite length_insert. reflexivity.
Qed.

(** Validation of inputs whose positions have one row for every atom makes
    the job ready. *)
Lemma validate_establishes_ready j j4 ls a pos :
  validate_ready_to_run j = (Ok tt, j4) ->
  _structure (input j4) = Some ls -> heap j4 !! ls = Some (OAtoms a) ->
  positions (input j4) = Has pos -> length pos = Atoms_len a ->
  ready j4.
Proof.
  intros H Hls Ha Hpos Hlen.
  apply validate_ready_to_run_ok_inv in H
    as (j1 & ls' & lb & a' & ids & ks & pos' & a2 & base & cs & _ & Hchecked
        & Hdel & ->).
  destruct Hchecked as (_ & Hls' & Ha' & _ & Hlb & Hne & Hids & _ & _ & Hpos').
  cbn in Hls, Ha, Hpos. rewrite Hls' in Hls. injection Hls as <-.
  rewrite Hpos' in Hpos. injection Hpos as <-.
  pose proof (lookup_lt_Some _ _ _ Ha') as Hlt.
  rewrite lookup_app_l in Ha by (by rewrite length_insert).
  rewrite list_lookup_insert_ne, Ha' in Ha by done. injection Ha as <-.
  exists (length (heap j1)), (replicate (length pos') vzero), ids, base.
  cbn. repeat split; try done.
  - rewrite <- (length_insert (heap j1) lb (OAtoms a2)).
    apply list_lookup_middle. done.
  - by rewrite length_replicate, Hlen.
Qed.

Section Preservation.

Variable find_mic : Atoms -> list vec3 -> list vec3.
Variable calc_static : Atoms -> list vec3 -> list vec3 * Q.

(** A step keeps the job ready. *)
Lemma run_if_interactive_preserves_ready j j' :
  ready j -> run_if_interactive find_mic calc_static j = (Ok tt, j') ->
  ready j'.
Proof.
  intros (l0 & F0 & osc0 & base0 & Hl0 & HF0 & Hosc0 & Hbase0 & Hdel) Hrun.
  apply run_if_interactive_ok_inv in Hrun
    as (l & F & F1 & F2 & base & osc & bf & be & hf & he & cs & c'
        & Hl & HF & Hbase & Hosc & Hb & HF1 & Hh & HF2 & -> & Hcf & Hce).
  rewrite Hl in Hl0. injection Hl0 as <-.
  rewrite HF in HF0. injection HF0 as <-.
  apply np_put_ok_inv in HF1 as (bks & bf' & _ & _ & ->).
  apply np_put_ok_inv in HF2 as (oks & hf' & _ & _ & ->).
  exists l, (scatter (scatter F bks bf') oks hf'), osc0, base0. cbn.
  repeat split; try done.
  - apply list_lookup_insert_eq. by eapply lookup_lt_Some.
  - by rewrite !scatter_length.
Qed.

End Preservation.

(** ** The index partition *)

(** C4 (as amended).  The base atom ids are not an input: validation derives
    them from the oscillator ids as the indices that the list does not name.
    So for inputs that pass [_check_inputs]: when an oscillator id lies
    outside the structure, validation raises an [IndexError] before the base
    job is created and before the force array is allocated; and when
    validation returns, every index of the structure is either a base atom
    id or named by an oscillator id, never both, and no base atom id is
    repeated.  Repeated oscillator ids are not rejected. *)
Theorem C4_partition_by_construction (j j1 : Job) (ls : loc) (a : Atoms)
  (ids : list Z) :
  _check_inputs j = (Ok tt, j1) ->
  _structure (input j1) = Some ls -> heap j1 !! ls = Some (OAtoms a) ->
  as_int_list (oscillators_id_list (input j1)) = Some ids ->
  let n := Atoms_len a in
  (py_indices n ids = None ->
   exists msg j2,
     validate_ready_to_run j = (Raise (IndexError msg), j2) /\
     children j2 = children j /\ _forces j2 = _forces j1) /\
  (forall j4,
     validate_ready_to_run j = (Ok tt, j4) ->
     exists base,
       _base_atom_ids j4 = Some base /\ NoDup base /\
       forall x, (x < n)%nat ->
         (Z.of_nat x ∈ base <->
          ~ exists m, m ∈ ids /\ py_index n m = Some x)).
Proof.
  intros Hcheck Hls Ha Hids n.
  destruct (_check_inputs_ok_inv _ _ _ Hcheck)
    as (ls' & lb & a' & ids' & ks & pos & Hchecked & Hcs & _).
  pose proof Hchecked
    as (_ & Hls' & Ha' & _ & _ & _ & Hids' & _).
  rewrite Hls in Hls'. injection Hls' as <-.
  rewrite Ha in Ha'. injection Ha' as <-.
  rewrite Hids in Hids'. injection Hids' as <-.
  split.
  - intros Hout. unfold validate_ready_to_run.
    rewrite (bind_ok _ _ _ _ _ Hcheck).
    destruct (_set_base_structure_spec _ _ _ _ _ _ _ Hchecked)
      as (a2 & [(base & Hdel & Hset)|(msg & Hset)]).
    + apply np_delete_arange_ok in Hdel as (oks & Hoks & _).
      fold n in Hoks. congruence.
    + exists msg. eexists. rewrite (bind_raise _ _ _ _ _ Hset).
      split; [reflexivity|]. by split.
  - intros j4 Hval.
    apply validate_ready_to_run_ok_inv in Hval
      as (j1' & ls' & lb' & a' & ids' & ks' & pos' & a2 & base & cs & Hcheck'
          & Hchecked' & Hdel & ->).
    rewrite Hcheck in Hcheck'. injection Hcheck' as <-.
    destruct Hchecked' as (_ & Hls' & Ha' & _ & _ & _ & Hids' & _).
    rewrite Hls in Hls'. injection Hls' as <-.
    rewrite Ha in Ha'. injection Ha' as <-.
    rewrite Hids in Hids'. injection Hids' as <-.
    apply np_delete_arange_ok in Hdel as (oks & Hoks & ->). fold n in Hoks.
    exists (map Z.of_nat (complement n oks)). split; [done|]. split.
    + apply (NoDup_fmap_2 Z.of_nat), NoDup_complement.
    + intros x Hx. rewrite <- (py_indices_elem _ _ _ x Hoks).
      rewrite list_elem_of_fmap. split.
      * intros (y & Hy & Hin). apply Nat2Z.inj in Hy as <-.
        by apply elem_of_complement in Hin as [_ ?].
      * intros Hno. exists x. split; [done|]. by apply elem_of_complement.
Qed.

(** [C4_partition_by_construction] on two atoms with the oscillator id 5:
    validation raises an [IndexError] and no base job has been created. *)
Lemma C4_id_out_of_range :
  let j := example_job two_atoms "interactive" (VList [VInt 5])
             (VList [VFloat 5]) [(0, 0, 0)%Q; (2, 0, 0)%Q] false in
  exists msg j2,
    validate_ready_to_run j = (Raise (IndexError msg), j2) /\
    children j2 = [] /\ _forces j2 = None.
Proof.
  intros j.
  destruct (C4_partition_by_construction j (_check_inputs j).2 1%nat two_atoms
              [5%Z] eq_refl eq_refl eq_refl eq_refl) as [H _].
  destruct (H eq_refl) as (msg & j2 & Hval & Hcs & Hf).
  exists msg, j2. by repeat split.
Defined.

(** C4, as the spec words it, fails: the oscillator ids [0, 0] name atom 0
    twice, so that base and oscillator indices do not partition the three
    indices exactly once, and still validation returns and has created the
    base job. *)
Lemma C4_repeated_ids_accepted :
  let j := example_job three_atoms "interactive" (VList [VInt 0; VInt 0])
             (VList [VFloat 1; VFloat 2])
             [(0, 0, 0)%Q; (2, 0, 0)%Q; (4, 0, 0)%Q] false in
  exists j4,
    validate_ready_to_run j = (Ok tt, j4) /\
    _base_atom_ids j4 = Some [1%Z; 2%Z] /\
    child_names (children j4) = ["job__base"] /\
    ~ NoDup [0%Z; 0%Z].
Proof.
  intros j. eexists. split; [vm_compute; reflexivity|].
  split; [reflexivity|]. split; [reflexivity|].
  intros H. apply NoDup_cons in H as [H _]. apply H. by left.
Qed.

(** ** The history of the forces *)

Section History.

Variable find_mic : Atoms -> list vec3 -> list vec3.
Variable calc_static : Atoms -> list vec3 -> list vec3 * Q.

(** Every step appends the address of the one array [_forces], and leaves
    [_forces] as it is. *)
Lemma run_if_interactive_appends_forces j j' :
  run_if_interactive find_mic calc_static j = (Ok tt, j') ->
  exists l, _forces j = Some l /\ _forces j' = Some l /\
            cache_forces (interactive_cache j')
            = cache_forces (interactive_cache j) ++ [l].
Proof.
  intros Hrun. apply run_if_interactive_ok_inv in Hrun
    as (l & F & F1 & F2 & base & osc & bf & be & hf & he & cs & c'
        & Hl & _ & _ & _ & _ & _ & _ & _ & -> & Hcf & _).
  exists l. by repeat split.
Qed.

(** Two steps in a row, whatever positions are set between them, leave two
    entries in the history that show the same forces: the ones of the second
    step. *)
Lemma steps_share_one_array j j1 j2 pos :
  run_if_interactive find_mic calc_static j = (Ok tt, j1) ->
  run_if_interactive find_mic calc_static (positions_setter pos j1).2
    = (Ok tt, j2) ->
  let i := length (cache_forces (interactive_cache j)) in
  is_Some (recorded_forces j2 i) /\
  recorded_forces j2 i = recorded_forces j2 (S i).
Proof.
  intros H1 H2 i.
  apply run_if_interactive_appends_forces in H1 as (l & Hl & Hl1 & Hc1).
  pose proof H2 as H2'.
  apply run_if_interactive_appends_forces in H2' as (l' & Hl' & Hl2 & Hc2).
  cbn in Hl', Hc2. rewrite Hl1 in Hl'. injection Hl' as <-.
  rewrite Hc1 in Hc2.
  apply run_if_interactive_ok_inv in H2
    as (l' & F & F1 & F2 & base & osc & bf & be & hf & he & cs & c'
        & Hl2' & HF & _ & _ & _ & _ & _ & _ & Hj2 & _ & _).
  cbn in Hl2', HF. rewrite Hl1 in Hl2'. injection Hl2' as <-.
  unfold recorded_forces. rewrite Hc2.
  assert (Hi : (cache_forces (interactive_cache j) ++ [l]) !! i = Some l)
    by (by apply list_lookup_middle).
  rewrite (lookup_app_l _ [l]) by (by eapply lookup_lt_Some).
  rewrite Hi.
  replace (S i) with (length (cache_forces (interactive_cache j) ++ [l]))
    by (rewrite length_app; simpl; lia).
  rewrite list_lookup_middle by done.
  split; [|done].
  rewrite Hj2. cbn. unfold array_at.
  rewrite list_lookup_insert_eq by (by eapply lookup_lt_Some). by eexists.
Qed.

End History.

(** C3, the code at the failing input: the two-atom job takes a step with the
    oscillator displaced by 0.2 and a step with it displaced by 0.4.  The
    first step records the forces [[0.1,0,0], [-1,0,0]]; after the second
    step the same entry of the history shows [[0.1,0,0], [-2,0,0]], and
    [interactive_close] stores that array for both steps in
    [output.forces]. *)
Lemma C3_history_overwritten :
  exists F0 F1,
    recorded_forces after_first_step 0 = Some F0 /\
    rows_eq F0 [((1 # 10)%Q, 0%Q, 0%Q); ((- 1)%Q, 0%Q, 0%Q)] /\
    (run_if_interactive free_mic stub_calc
       (positions_setter [(0, 0, 0)%Q; ((24 # 10), 0, 0)%Q]
          after_first_step).2).1 = Ok tt /\
    recorded_forces after_second_step 0 = Some F1 /\
    rows_eq F1 [((1 # 10)%Q, 0%Q, 0%Q); ((- 2)%Q, 0%Q, 0%Q)] /\
    (interactive_close stub_close after_second_step).1 = Ok tt /\
    interactive_forces_getter after_close = Some [F1; F1] /\
    ~ rows_eq F1 F0.
Proof.
  eexists _, _.
  split; [vm_compute; reflexivity|]. split; [repeat constructor|].
  split; [vm_compute; reflexivity|].
  split; [vm_compute; reflexivity|]. split; [repeat constructor|].
  split; [vm_compute; reflexivity|].
  split; [vm_compute; reflexivity|].
  intros H. apply Forall2_cons_1 in H as [_ H].
  apply Forall2_cons_1 in H as [[H _] _]. vm_compute in H. discriminate.
Qed.

(** ** The structure accessor *)

(** C10.  A read of the [structure] property that returns gives the address
    of a new object: it was not in the store before, it holds the content of
    the input structure when one is set and of the reference job's structure
    otherwise, and nothing else of the job changes.  Whatever is later
    written to the new object, every other address, the source among them,
    holds what it held before the read. *)
Theorem C10_structure_is_a_copy (j j' : Job) (l : loc) :
  structure j = (Ok l, j') ->
  exists src a,
    match _structure (input j) with
    | Some ls => src = ls
    | None => exists b, _ref_job (input j) = Has b /\
                        job_structure b = Some src
    end /\
    heap j !! src = Some (OAtoms a) /\
    heap j !! l = None /\ src <> l /\
    j' = set_heap (heap j ++ [OAtoms a]) j /\
    heap j' !! l = Some (OAtoms a) /\
    forall (o : PyObj) (l0 : loc),
      l0 <> l -> <[l := o]> (heap j') !! l0 = heap j !! l0.
Proof.
  unfold structure. intros H. minv H.
  assert (Hcopy : exists src,
    match _structure (input j) with
    | Some ls => src = ls
    | None => exists b, _ref_job (input j) = Has b /\
                        job_structure b = Some src
    end /\ atoms_copy (Some src) j = (Ok l, j')).
  { destruct (_structure (input j)) as [ls|]; [by exists ls|].
    apply bind_ok_inv in H as (r & s & Hr & H).
    apply input_ref_job_structure_ok_inv in Hr as (-> & b & Hb & ->).
    destruct (job_structure b) as [src|] eqn:Esrc; [|discriminate].
    exists src. split; [|done]. by exists b. }
  destruct Hcopy as (src & Hsrc & Hcopy).
  apply atoms_copy_ok_inv in Hcopy as (l0 & a & [= <-] & Ha & -> & ->).
  pose proof (lookup_lt_Some _ _ _ Ha) as Hlt.
  exists src, a. split; [done|]. split; [done|].
  split; [by apply lookup_ge_None_2|]. split; [lia|]. split; [done|].
  cbn. split; [by apply list_lookup_middle|].
  intros o l0 Hl0. rewrite list_lookup_insert_ne by done.
  destruct (decide (l0 < length (heap j))%nat) as [Hlt0|Hge].
  - by rewrite lookup_app_l.
  - rewrite lookup_ge_None_2; [|rewrite length_app; simpl; lia].
    symmetry. apply lookup_ge_None_2. lia.
Qed.

(** [C10_structure_is_a_copy] on the two-atom job, whose structure is the
    reference job's, at address 0: the read returns the new address 1, and
    emptying the object at address 1 leaves the one at address 0 whole. *)
Lemma C10_two_atom_structure :
  exists j',
    structure two_atom_job = (Ok 1%nat, j') /\
    <[1%nat := OAtoms (mk_atoms [])]> (heap j') !! 0%nat
    = Some (OAtoms two_atoms).
Proof.
  eexists. split; [reflexivity|].
  destruct (C10_structure_is_a_copy two_atom_job _ 1%nat eq_refl)
    as (src & a & _ & _ & _ & _ & _ & _ & Hframe).
  by rewrite (Hframe (OAtoms (mk_atoms [])) 0%nat).
Defined.

(** ** Persistence and close *)




(** The structure of the input by value, as [input_to_hdf] writes it. *)
Lemma input_to_hdf_ok_inv j u j' :
  input_to_hdf j = (Ok u, j') ->
  exists st,
    structure_value j st /\
    j' = set_project_hdf5
           {| hdf_children := hdf_children (project_hdf5 j);
              hdf_input :=
                Some {| st_structure := st;
                        st_oscillators_id_list :=
                          oscillators_id_list (input j);
                        st_spring_constants_list :=
                          spring_constants_list (input j);
                        st_save_debug_data := save_debug_data (input j);
                        st_ref_job := _ref_job (input j);
                        st_positions := positions (input j) |};
              hdf_output := hdf_output (project_hdf5 j) |} j.
Proof.
  unfold input_to_hdf. intros H. minv H.
  apply bind_ok_inv in H as (st & s & Hst & H).
  assert (Hst' : s = j /\ structure_value j st).
  { unfold structure_value. destruct (_structure (input j)) as [l|].
    - apply bind_ok_inv in Hst as (a & s1 & Ha & Hst).
      apply read_atoms_ok_inv in Ha as [-> Ha].
      apply ret_ok_inv in Hst as [-> ->]. eauto.
    - by apply ret_ok_inv in Hst as [-> ->]. }
  destruct Hst' as [-> Hst'].
  unfold on_hdf in H. apply modify_ok_inv in H as ->. eauto.
Qed.

Lemma to_hdf_ok_inv j u j' :
  to_hdf j = (Ok u, j') ->
  exists ref st,
    _ref_job (input j) = Has ref /\ structure_value j st /\
    j' = set_project_hdf5
           {| hdf_children := children j;
              hdf_input := Some (stored_input st (input j));
              hdf_output := Some (output j) |}
           (set_input (input_set_ref_job (Has ref) (input j))
              (set_children (child_append (children j) ref) j)).
Proof.
  unfold to_hdf. intros H.
  apply bind_ok_inv in H as (u1 & s & Hsuper & H).
  unfold super_to_hdf in Hsuper. minv Hsuper.
  unfold on_hdf in Hsuper. apply modify_ok_inv in Hsuper as ->.
  apply bind_ok_inv in H as (r & s & Hpop & H).
  unfold pop_ref in Hpop. minv Hpop. cbn in Hpop.
  destruct (_ref_job (input j)) as [| |ref] eqn:Eref; [discriminate| |].
  - minv Hpop. apply ret_ok_inv in Hpop as [-> ->].
    apply bind_ok_inv in H as (u2 & s & Happ & H). discriminate.
  - minv Hpop. apply ret_ok_inv in Hpop as [-> ->].
    apply bind_ok_inv in H as (u2 & s & Happ & H).
    unfold append in Happ. apply modify_ok_inv in Happ as ->.
    apply bind_ok_inv in H as (u3 & s & Hin & H).
    apply input_to_hdf_ok_inv in Hin as (st & Hst & ->).
    apply bind_ok_inv in H as (u4 & s & Hset & H).
    unfold ref_job_setter in Hset. apply modify_ok_inv in Hset as ->.
    unfold output_to_hdf in H. minv H.
    unfold on_hdf in H. apply modify_ok_inv in H as ->.
    exists ref, st. split; [done|]. split; [exact Hst|]. reflexivity.
Qed.

(** Reduces the projections of updated jobs. *)
Ltac job_simpl :=
  cbn [heap self_name server_run_mode input output interactive_cache
       _fast_mode _base_structure _base_atom_ids _forces children status
       project_hdf5 set_heap set_input set_output set_interactive_cache
       set_base_structure set_base_atom_ids set_forces set_children
       set_status set_project_hdf5 _structure oscillators_id_list
       spring_constants_list save_debug_data _ref_job positions
       input_set_structure input_set_ref_job input_set_positions
       hdf_children hdf_input hdf_output fst snd].

(** [to_hdf] when the reference job is set and the structure can be read. *)
Lemma to_hdf_ok j ref st :
  _ref_job (input j) = Has ref -> structure_value j st ->
  to_hdf j
  = (Ok tt,
     set_project_hdf5
       {| hdf_children := children j;
          hdf_input := Some (stored_input st (input j));
          hdf_output := Some (output j) |}
       (set_input (input_set_ref_job (Has ref) (input j))
          (set_children (child_append (children j) ref) j))).
Proof.
  intros Href Hst. unfold structure_value in Hst.
  unfold to_hdf, super_to_hdf, pop_ref, append, input_to_hdf, ref_job_setter,
    output_to_hdf, on_hdf, read_atoms, bind, gets, modify, ret.
  job_simpl. rewrite Href. job_simpl.
  destruct (_structure (input j)) as [l|].
  - destruct Hst as (a & Ha & ->). job_simpl. by rewrite Ha.
  - by subst st.
Qed.

Section Close.

Variable engine_close : SubJob -> Res SubJob.

(** [interactive_close] when the base job is there and closes, the reference
    job is set, the structure can be read and the history refers to arrays. *)
Lemma interactive_close_ok j b b' ref st fs :
  child_lookup (children j) (_base_name j) = Some b ->
  engine_close b = Ok b' ->
  _ref_job (input j) = Has ref -> structure_value j st ->
  mapM (array_at (heap j)) (cache_forces (interactive_cache j)) = Some fs ->
  let cs := child_update (children j) (_base_name j) b' in
  interactive_close engine_close j
  = (Ok tt,
     set_status finished
       (set_output
          (closed_output (save_debug_data (input j)) fs (interactive_cache j)
             (output j))
          (set_project_hdf5
             {| hdf_children := cs;
                hdf_input := Some (stored_input st (input j));
                hdf_output := Some (output j) |}
             (set_input (input_set_ref_job (Has ref) (input j))
                (set_children (child_append cs ref) j))))).
Proof.
  intros Hb Hclose Href Hst Hfs cs. unfold interactive_close.
  rewrite (bind_ok _ _ j j (_base_name j)) by reflexivity.
  rewrite (bind_ok (self_child _) _ j j b)
    by (unfold self_child, bind, gets; by rewrite Hb).
  rewrite (bind_ok (lift _) _ j j b') by (unfold lift; by rewrite Hclose).
  rewrite (bind_ok (modify _) _ j (set_children cs j) tt) by reflexivity.
  rewrite (bind_ok to_hdf _ _ _ tt
             (to_hdf_ok (set_children cs j) ref st Href Hst)).
  unfold output_to_hdf, stack_forces, on_output, on_hdf, bind, gets, modify,
    lift, ret, closed_output.
  job_simpl. rewrite Hfs. cbn [of_option]. job_simpl.
  by destruct (save_debug_data (input j)).
Qed.

Lemma interactive_close_ok_inv j u j1 :
  interactive_close engine_close j = (Ok u, j1) ->
  exists b b' ref st fs,
    child_lookup (children j) (_base_name j) = Some b /\
    engine_close b = Ok b' /\
    _ref_job (input j) = Has ref /\ structure_value j st /\
    mapM (array_at (heap j)) (cache_forces (interactive_cache j)) = Some fs.
Proof.
  unfold interactive_close. intros H. minv H.
  apply bind_ok_inv in H as (b & s & Hb & H).
  apply self_child_ok_inv in Hb as [-> Hb]. minv H. rename a into b'.
  apply bind_ok_inv in H as (u1 & s & Hto & H).
  apply to_hdf_ok_inv in Hto as (ref & st & Href & Hst & ->).
  apply bind_ok_inv in H as (u2 & s1 & Hout & H).
  unfold output_to_hdf in Hout. minv Hout.
  unfold on_hdf in Hout. apply modify_ok_inv in Hout as ->.
  apply bind_ok_inv in H as (fs & s2 & Hfs & H).
  unfold stack_forces in Hfs. minv Hfs.
  apply lift_ok_inv in Hfs as [Hfs ->]. apply of_option_ok_inv in Hfs.
  by exists b, b', ref, st, fs.
Qed.

End Close.


Section CloseTwice.

Variable engine_close : SubJob -> Res SubJob.


End CloseTwice.


(** ** Reloading *)

(** On a newly constructed job [self.input.ref_job] is [None] and raises
    nothing, so [from_hdf] skips the handler that would read the input: the
    children and the output come from the file, the input keeps the defaults
    of [__init__]. *)
Lemma from_hdf_of_new_job (store : list PyObj) (file : Hdf)
  (name mode : string) (o : Output) :
  hdf_output file = Some o ->
  from_hdf (__init__ store file name mode)
  = (Ok tt,
     set_output o
       (set_children (hdf_children file) (__init__ store file name mode))).
Proof.
  intros Ho.
  unfold from_hdf, super_from_hdf, try_except_AttributeError, input_ref_job,
    output_from_hdf, bind, gets, modify, ret, __init__, new_input.
  job_simpl. by rewrite Ho.
Qed.

(** What [to_hdf] has written is read back by a new job as far as the output
    goes; the input that was written is not read. *)
Lemma to_hdf_then_reload (j j' : Job) (name mode : string) :
  to_hdf j = (Ok tt, j') ->
  exists r,
    from_hdf (__init__ (heap j') (project_hdf5 j') name mode) = (Ok tt, r) /\
    output r = output j /\ input r = new_input /\
    exists st, hdf_input (project_hdf5 j')
               = Some (stored_input st (input j)).
Proof.
  intros H. apply to_hdf_ok_inv in H as (ref & st & Href & Hst & ->).
  eexists. split; [by apply from_hdf_of_new_job|].
  split; [done|]. split; [done|]. by exists st.
Qed.

(** C9, the code at the failing input: the two-atom job, with oscillator ids
    [1] and spring constants [5.0], takes two steps and is closed.  The file
    then holds that input, but a new job restored from the file has the
    default input; and since [interactive_close] writes the output before it
    assigns the history to it, the restored output has no forces, while the
    closed job's output has those of both steps. *)
Lemma C9_reload_loses_input_and_history :
  from_hdf
    (__init__ (heap after_close) (project_hdf5 after_close) "job"
       "interactive")
  = (Ok tt, reloaded) /\
  hdf_input (project_hdf5 after_close)
  = Some (stored_input (Some two_atoms) (input after_close)) /\
  oscillators_id_list (input after_close) = VList [VInt 1] /\
  input reloaded = new_input /\
  oscillators_id_list (input reloaded) = VNone /\
  is_Some (forces (output after_close)) /\
  forces (output reloaded) = None.
Proof.
  split; [vm_compute; reflexivity|].
  split; [vm_compute; reflexivity|].
  split; [vm_compute; reflexivity|].
  split; [vm_compute; reflexivity|].
  split; [vm_compute; reflexivity|].
  split; [vm_compute; by eexists|].
  vm_compute; reflexivity.
Qed.

(** ** The harmonic energy is a potential energy *)

(** The value and the forces that [calc_harmonic] returns, in closed form. *)
Lemma calc_harmonic_ok_inv (find_mic : Atoms -> list vec3 -> list vec3)
  (a : Atoms) (pos : list vec3) (ks : list Q) (osc : list Z)
  (hf : list vec3) (e : Q) :
  length ks = length osc ->
  calc_harmonic find_mic a pos ks osc = Ok (hf, e) ->
  exists diff ds,
    np_binop vsub pos (Atoms_positions a) = Ok diff /\
    np_take (find_mic a diff) osc = Ok ds /\
    hf = zip_with (fun k r => vscale (- k)%Q r) ks ds /\
    (e == sum_Q (zip_with (fun k d => (1 # 2) * k * vdot d d) ks ds))%Q.
Proof.
  intros Hlen H. unfold calc_harmonic in H.
  destruct (np_binop vsub pos (Atoms_positions a)) as [diff|] eqn:Ediff;
    [|discriminate]. cbn [res_bind] in H.
  destruct (np_take (find_mic a diff) osc) as [ds|] eqn:Eds; [|discriminate].
  cbn [res_bind] in H.
  pose proof (np_take_length _ _ _ Eds) as Hds.
  unfold np_binop in H at 1.
  replace (Nat.eqb (length ks) (length ds)) with true in H
    by (symmetry; apply Nat.eqb_eq; congruence).
  cbn [res_bind] in H.
  set (hf0 := zip_with (fun k r => vscale (- k)%Q r) ks ds) in *.
  assert (Hhf : length hf0 = length osc).
  { unfold hf0. rewrite length_zip_with. lia. }
  pose proof (harmonic_energy_loop_fold (find_mic a diff) osc ds [] hf0 0%Q
                Eds Hhf) as Hloop.
  simpl length in Hloop. rewrite app_nil_l in Hloop.
  unfold enumerate in H. rewrite Hloop in H. cbn [res_bind] in H.
  injection H as <- <-.
  exists diff, ds. repeat (split; [done|]).
  rewrite (fold_left_sum_Q (fun df => ((- (1 # 2)) * vdot df.1 df.2)%Q)).
  rewrite map_zip_with_pair. cbn [fst snd].
  unfold hf0. rewrite energy_terms. ring.
Qed.

Lemma vdot_self_nonneg (d : vec3) : (0 <= vdot d d)%Q.
Proof.
  destruct d as [[[a1 b1] [a2 b2]] [a3 b3]].
  unfold vdot, Qle, Qplus, Qmult. simpl. nia.
Qed.

Lemma sum_Q_nonneg (l : list Q) :
  Forall (fun q => (0 <= q)%Q) l -> (0 <= sum_Q l)%Q.
Proof.
  induction 1 as [|q l Hq _ IH]; simpl; [apply Qle_refl|].
  replace 0%Q with (0 + 0)%Q by reflexivity. by apply Qplus_le_compat.
Qed.

(** With spring constants that are not negative the harmonic energy is not
    negative, whatever the positions: the oscillators store energy, they
    never release any below the reference. *)
Theorem harmonic_energy_nonneg (find_mic : Atoms -> list vec3 -> list vec3)
  (a : Atoms) (pos : list vec3) (ks : list Q) (osc : list Z)
  (hf : list vec3) (e : Q) :
  length ks = length osc ->
  Forall (fun k => (0 <= k)%Q) ks ->
  calc_harmonic find_mic a pos ks osc = Ok (hf, e) ->
  (0 <= e)%Q.
Proof.
  intros Hlen Hks H.
  apply calc_harmonic_ok_inv in H as (diff & ds & _ & _ & _ & ->); [|done].
  apply sum_Q_nonneg. clear Hlen. revert ds.
  induction Hks as [|k ks Hk _ IH]; intros [|d ds]; simpl; try constructor.
  - apply Qmult_le_0_compat; [|apply vdot_self_nonneg].
    apply Qmult_le_0_compat; [discriminate|done].
  - apply IH.
Qed.

(** [harmonic_energy_nonneg] on one atom displaced by [1, 0, 0] with the
    spring constant 2. *)
Lemma harmonic_energy_nonneg_example :
  exists hf e,
    calc_harmonic free_mic one_atom [(1, 0, 0)%Q] [2%Q] [0%Z] = Ok (hf, e) /\
    (0 <= e)%Q.
Proof.
  eexists _, _. split; [vm_compute; reflexivity|].
  eapply (harmonic_energy_nonneg free_mic one_atom [(1, 0, 0)%Q] [2%Q] [0%Z]).
  - reflexivity.
  - repeat constructor. discriminate.
  - vm_compute. reflexivity.
Defined.

(** ** The base structure and the base atom ids *)

Lemma np_take_app {A} (a : list A) (xs ys : list Z) (rx ry : list A) :
  np_take a xs = Ok rx -> np_take a ys = Ok ry ->
  np_take a (xs ++ ys) = Ok (rx ++ ry).
Proof.
  revert rx. induction xs as [|x xs IH]; intros rx Hx Hy.
  - by injection Hx as <-.
  - apply np_take_cons_ok in Hx as (d & rx' & -> & Hd & Hx).
    cbn [app np_take]. rewrite Hd. cbn [res_bind].
    by rewrite (IH rx' Hx Hy).
Qed.

(** A run of consecutive indices selects a segment of the array. *)
Lemma np_take_seq {A} (a : list A) (q b : nat) :
  (b + q <= length a)%nat ->
  np_take a (map Z.of_nat (seq b q)) = Ok (take q (drop b a)).
Proof.
  revert b. induction q as [|q IH]; intros b Hle; [done|].
  cbn [seq map np_take]. unfold np_row.
  rewrite py_index_nonneg by lia.
  destruct (lookup_lt_is_Some_2 a b) as [x Hx]; [lia|].
  rewrite Hx. cbn [of_option res_bind].
  rewrite IH by lia. cbn [res_bind].
  rewrite (drop_S a x b Hx). cbn [take]. done.
Qed.

(** One turn of the loop of [_set_base_structure], for an index that the
    base structure has. *)
Lemma pop_base_atom_ok (ia : Z * Z) (j : Job) (lb : loc) (a0 : Atoms)
  (k : nat) :
  _base_structure j = Some lb -> heap j !! lb = Some (OAtoms a0) ->
  py_index (length (atom_list a0)) (ia.2 - ia.1) = Some k ->
  pop_base_atom ia j
  = (Ok tt,
     set_heap (<[lb := OAtoms {| atom_list := delete k (atom_list a0);
                                 cell := cell a0; pbc := pbc a0 |}]> (heap j))
       j).
Proof.
  intros Hlb Ha0 Hk. unfold pop_base_atom. cbn zeta.
  rewrite (bind_ok _ _ j j (Some lb)) by (unfold gets; by rewrite Hlb).
  rewrite (bind_ok (read_atoms lb) _ j j a0)
    by (unfold read_atoms, bind, gets; by rewrite Ha0).
  unfold Atoms_pop, py_pop. rewrite Hk. cbn [res_bind].
  set (a1 := {| atom_list := delete k (atom_list a0); cell := cell a0;
                pbc := pbc a0 |}).
  by rewrite (bind_ok (lift (Ok a1)) _ j j a1).
Qed.

Lemma filter_Forall_id {A} (P : A -> Prop) `{!forall x, Decision (P x)}
  (l : list A) :
  Forall P l -> filter P l = l.
Proof.
  induction 1 as [|x l Hx _ IH]; [done|].
  by rewrite filter_cons_True, IH.
Qed.

Lemma delete_app_length {A} (pre rest : list A) (q : nat) :
  delete (length pre + q) (pre ++ rest) = pre ++ delete q rest.
Proof. induction pre as [|x pre IH]; simpl; [done|]. by rewrite IH. Qed.

(** The loop of [_set_base_structure] over increasing indices [s] of the
    structure [L], from the turn [d] on: [pre] is what the turns before have
    left of the atoms below the next index, [ks] are all the indices to
    remove. *)
Lemma pop_sorted_loop (L : list Atom) (ks : list nat) (s : list nat) :
  forall (d : nat) (j : Job) (lb : loc) (a0 : Atoms) (pre : list Atom),
    _base_structure j = Some lb -> heap j !! lb = Some (OAtoms a0) ->
    StronglySorted lt s ->
    Forall (fun k => (length pre + d <= k < length L)%nat) s ->
    (length pre + d <= length L)%nat ->
    (forall k, k ∈ ks -> (k < length pre + d)%nat \/ k ∈ s) ->
    (forall k, k ∈ s -> k ∈ ks) ->
    atom_list a0 = pre ++ drop (length pre + d) L ->
    np_take L (map Z.of_nat
                 (filter (fun k => k ∉ ks) (seq 0 (length pre + d))))
    = Ok pre ->
    exists a2,
      for_each (zip (map Z.of_nat (seq d (length s))) (map Z.of_nat s))
        pop_base_atom j
      = (Ok tt, set_heap (<[lb := OAtoms a2]> (heap j)) j) /\
      cell a2 = cell a0 /\ pbc a2 = pbc a0 /\
      np_take L (map Z.of_nat (complement (length L) ks))
      = Ok (atom_list a2).
Proof.
  induction s as [|x s IH];
    intros d j lb a0 pre Hlb Ha0 Hsort Hrange Hle Hcov Hsub Hcur Hpre.
  - exists a0. cbn [length seq map zip zip_with for_each].
    split; [by rewrite list_insert_id, set_heap_id|].
    split; [done|]. split; [done|].
    set (b := (length pre + d)%nat) in *.
    unfold complement.
    replace (length L) with (b + (length L - b))%nat at 1 by lia.
    rewrite seq_app, filter_app, map_app, Hcur. cbn [Nat.add].
    apply np_take_app; [done|].
    replace (filter (fun k => k ∉ ks) (seq b (length L - b)))
      with (seq b (length L - b)).
    + rewrite np_take_seq by lia. by rewrite firstn_all2 by (rewrite length_drop; lia).
    + symmetry. apply filter_Forall_id. apply Forall_forall. intros k Hk Hin.
      apply elem_of_seq in Hk.
      destruct (Hcov k Hin) as [?|Hnil]; [lia|]. by apply elem_of_nil in Hnil.
  - apply StronglySorted_inv in Hsort as [Hsort Hx].
    apply Forall_cons in Hrange as [Hxr Hrange].
    set (b := (length pre + d)%nat) in *.
    set (q := (x - b)%nat).
    assert (Hq : (b + q = x)%nat) by (unfold q; lia).
    assert (Hk : py_index (length (atom_list a0))
                   ((Z.of_nat d, Z.of_nat x).2 - (Z.of_nat d, Z.of_nat x).1)
                 = Some (length pre + q)%nat).
    { cbn [fst snd]. rewrite Hcur, length_app, length_drop.
      replace (Z.of_nat x - Z.of_nat d)%Z with (Z.of_nat (length pre + q))
        by lia.
      apply py_index_nonneg. lia. }
    pose proof (pop_base_atom_ok _ j lb a0 _ Hlb Ha0 Hk) as Hpop.
    cbn [length seq map zip zip_with for_each].
    rewrite (bind_ok _ _ _ _ _ Hpop).
    set (a1 := {| atom_list := delete (length pre + q) (atom_list a0);
                  cell := cell a0; pbc := pbc a0 |}) in *.
    set (j1 := set_heap (<[lb := OAtoms a1]> (heap j)) j).
    set (pre' := pre ++ take q (drop b L)).
    assert (Hlen' : length pre' = (length pre + q)%nat).
    { unfold pre'. rewrite length_app, length_take, length_drop. lia. }
    destruct (IH (S d) j1 lb a1 pre') as (a2 & Hloop & Hcell & Hpbc & Hfin).
    + done.
    + unfold j1. cbn. apply list_lookup_insert_eq. by eapply lookup_lt_Some.
    + done.
    + rewrite Hlen'. apply Forall_forall. intros k Hin.
      rewrite Forall_forall in Hx, Hrange.
      specialize (Hx k Hin). specialize (Hrange k Hin). lia.
    + rewrite Hlen'. lia.
    + rewrite Hlen'. intros k Hin. destruct (Hcov k Hin) as [?|Hks]; [left; lia|].
      apply elem_of_cons in Hks as [->|?]; [left; lia|by right].
    + intros k Hin. apply Hsub. by right.
    + rewrite Hlen'. unfold a1. cbn [atom_list]. rewrite Hcur.
      rewrite delete_app_length, delete_take_drop, drop_drop.
      unfold pre'. rewrite <- app_assoc. do 3 f_equal. lia.
    + rewrite Hlen'. replace (length pre + q + S d)%nat with (S x) by lia.
      replace (S x) with (b + (q + 1))%nat by lia.
      rewrite seq_app, filter_app, map_app. cbn [Nat.add].
      apply np_take_app; [done|].
      rewrite seq_app, filter_app. cbn [seq].
      rewrite Hq, (filter_singleton_False _ x []) by (intros Hn; apply Hn, Hsub; by left).
      rewrite app_nil_r, filter_Forall_id.
      * apply np_take_seq. lia.
      * apply Forall_forall. intros k Hkq Hin. apply elem_of_seq in Hkq.
        destruct (Hcov k Hin) as [?|Hks]; [lia|].
        apply elem_of_cons in Hks as [->|Hks]; [lia|].
        rewrite Forall_forall in Hx. specialize (Hx k Hks). lia.
    + exists a2. rewrite Hloop. unfold j1. cbn.
      rewrite list_insert_insert_eq. done.
Qed.

Lemma StronglySorted_le_NoDup_lt (l : list Z) :
  StronglySorted Z.le l -> NoDup l -> StronglySorted Z.lt l.
Proof.
  induction 1 as [|x l _ IH Hx]; intros Hnd; constructor.
  - apply IH. by apply NoDup_cons in Hnd as [_ ?].
  - apply NoDup_cons in Hnd as [Hnin _].
    rewrite Forall_forall in Hx. apply Forall_forall. intros y Hy.
    specialize (Hx y Hy). assert (x <> y) by (by intros ->). lia.
Qed.

Lemma StronglySorted_to_nat (l : list Z) :
  Forall (fun x => (0 <= x)%Z) l -> StronglySorted Z.lt l ->
  StronglySorted lt (map Z.to_nat l).
Proof.
  intros Hpos. induction 1 as [|x l _ IH Hx]; cbn [map]; constructor.
  - apply IH. by apply Forall_cons in Hpos as [_ ?].
  - apply Forall_cons in Hpos as [Hx0 Hpos].
    rewrite Forall_forall in Hx. rewrite Forall_forall in Hpos.
    apply Forall_forall. intros k Hk.
    apply list_elem_of_fmap in Hk as (y & -> & Hy).
    specialize (Hx y Hy). specialize (Hpos y Hy). lia.
Qed.

Lemma map_of_nat_to_nat (l : list Z) :
  Forall (fun x => (0 <= x)%Z) l -> map Z.of_nat (map Z.to_nat l) = l.
Proof.
  induction 1 as [|x l Hx _ IH]; cbn [map]; [done|].
  by rewrite IH, Z2Nat.id.
Qed.

(** The sorted oscillator ids, when they are distinct and not negative:
    increasing indices, the same ones. *)
Lemma np_sort_increasing (ids : list Z) :
  NoDup ids -> Forall (fun x => (0 <= x)%Z) ids ->
  exists s, np_sort ids = map Z.of_nat s /\ StronglySorted lt s /\
            length s = length ids /\
            forall k, k ∈ s <-> k ∈ map Z.to_nat ids.
Proof.
  intros Hnd Hpos. unfold np_sort.
  pose proof (merge_sort_Permutation Z.le ids) as Hperm.
  assert (Hpos' : Forall (fun x => (0 <= x)%Z) (merge_sort Z.le ids))
    by (by rewrite Hperm).
  exists (map Z.to_nat (merge_sort Z.le ids)).
  split; [by rewrite map_of_nat_to_nat|]. split; [|split].
  - apply StronglySorted_to_nat; [done|].
    apply StronglySorted_le_NoDup_lt.
    + apply StronglySorted_merge_sort; apply _.
    + by rewrite Hperm.
  - by rewrite length_map, Hperm.
  - intros k. by rewrite Hperm.
Qed.

(** [_set_base_structure] for oscillator ids that are distinct indices of
    the structure, counted from the front. *)
Lemma _set_base_structure_ok (j : Job) (ls lb : loc)
  (a : Atoms) (ids : list Z) (ks : list Q) (pos : list vec3) :
  inputs_checked j ls lb a ids ks pos ->
  NoDup ids ->
  Forall (fun x => (0 <= x < Z.of_nat (Atoms_len a))%Z) ids ->
  exists a2 base,
    _set_base_structure j
    = (Ok tt,
       set_base_atom_ids (Some base)
         (set_heap (<[lb := OAtoms a2]> (heap j)) j)) /\
    np_delete_arange (Atoms_len a) ids = Ok base /\
    np_take (atom_list a) base = Ok (atom_list a2) /\
    Atoms_len a2 = length base /\
    cell a2 = cell a /\ pbc a2 = pbc a.
Proof.
  intros (Hmode & Hls & Hals & Hlb & Halb & Hne & Hids & Hks & Hlen & Hpos)
    Hnd Hrange.
  assert (Hpos0 : Forall (fun x => (0 <= x)%Z) ids).
  { eapply Forall_impl; [exact Hrange|]. intros x ?. cbn in *. lia. }
  destruct (np_sort_increasing ids Hnd Hpos0)
    as (s & Hsort & Hinc & Hslen & Hs).
  set (oks := map Z.to_nat ids).
  assert (Hoks : py_indices (Atoms_len a) ids = Some oks).
  { rewrite <- (map_of_nat_to_nat ids Hpos0) at 1.
    apply py_indices_nonneg, Forall_forall. intros k Hk.
    apply list_elem_of_fmap in Hk as (x & -> & Hx).
    rewrite Forall_forall in Hrange. specialize (Hrange x Hx). lia. }
  destruct (pop_sorted_loop (atom_list a) oks s 0 j lb a [] Hlb Halb Hinc)
    as (a2 & Hloop & Hcell & Hpbc & Hfin).
  - apply Forall_forall. intros k Hk. apply Hs in Hk.
    apply list_elem_of_fmap in Hk as (x & -> & Hx).
    rewrite Forall_forall in Hrange. specialize (Hrange x Hx).
    unfold Atoms_len in Hrange. cbn. lia.
  - cbn. lia.
  - intros k Hk. right. by apply Hs.
  - intros k Hk. by apply Hs.
  - done.
  - done.
  - exists a2, (map Z.of_nat (complement (Atoms_len a) oks)).
    assert (Hdel : np_delete_arange (Atoms_len a) ids
                   = Ok (map Z.of_nat (complement (Atoms_len a) oks)))
      by (unfold np_delete_arange; by rewrite Hoks).
    split; [|split; [done|split; [done|split; [|done]]]].
    + unfold _set_base_structure.
      rewrite (bind_ok input_oscillator_ids _ j j ids).
      2:{ unfold input_oscillator_ids.
          rewrite (bind_ok _ _ j j (oscillators_id_list (input j)))
            by reflexivity.
          by rewrite Hids. }
      unfold enumerate. rewrite Hsort, length_map.
      rewrite (bind_ok _ _ _ _ _ Hloop).
      set (j' := set_heap (<[lb:=OAtoms a2]> (heap j)) j).
      rewrite (bind_ok _ _ j' j' (Some ls))
        by (unfold gets; cbn; by rewrite Hls).
      rewrite (bind_ok (read_atoms ls) _ j' j' a).
      2:{ unfold read_atoms, bind, gets. cbn.
          by rewrite list_lookup_insert_ne, Hals by done. }
      by rewrite (bind_ok (lift _) _ j' j' _)
        by (unfold lift; by rewrite Hdel).
    + unfold Atoms_len at 1. by eapply np_take_length.
Qed.

Lemma np_take_map {A B} (f : A -> B) (a : list A) (ids : list Z)
  (rows : list A) :
  np_take a ids = Ok rows -> np_take (map f a) ids = Ok (map f rows).
Proof.
  revert rows. induction ids as [|i ids IH]; intros rows H.
  - by injection H as <-.
  - apply np_take_cons_ok in H as (d & rows' & -> & Hd & H).
    cbn [np_take map]. rewrite (IH rows' H).
    unfold np_row in *. rewrite length_map.
    destruct (py_index (length a) i) as [k|]; [|discriminate].
    rewrite list_lookup_fmap.
    destruct (a !! k) as [x|]; [|discriminate].
    by injection Hd as <-.
Qed.

(** For oscillator ids that are distinct indices of the structure, counted
    from the front, [_set_base_structure] returns, and the two things it
    sets agree: the base structure holds exactly the atoms of the input
    structure at the base atom ids, in their order, with the cell and the
    periodicity of the input structure.  So the rows that
    [_calc_static_base_job] selects from positions with the base atom ids
    belong to the atoms of the base structure, one for each. *)
Theorem set_base_structure_removes_oscillators (j : Job) (ls lb : loc)
  (a : Atoms) (ids : list Z) (ks : list Q) (pos : list vec3) :
  inputs_checked j ls lb a ids ks pos ->
  NoDup ids ->
  Forall (fun x => (0 <= x < Z.of_nat (Atoms_len a))%Z) ids ->
  exists j' a2 base,
    _set_base_structure j = (Ok tt, j') /\
    _base_structure j' = Some lb /\ heap j' !! lb = Some (OAtoms a2) /\
    _base_atom_ids j' = Some base /\
    np_delete_arange (Atoms_len a) ids = Ok base /\
    np_take (atom_list a) base = Ok (atom_list a2) /\
    np_take (Atoms_positions a) base = Ok (Atoms_positions a2) /\
    cell a2 = cell a /\ pbc a2 = pbc a.
Proof.
  intros Hchecked Hnd Hrange.
  destruct (_set_base_structure_ok j ls lb a ids ks pos Hchecked Hnd Hrange)
    as (a2 & base & Hset & Hdel & Htake & _ & Hcell & Hpbc).
  destruct Hchecked as (_ & _ & _ & Hlb & Halb & _).
  eexists _, a2, base. split; [exact Hset|]. split; [exact Hlb|].
  split. { cbn. apply list_lookup_insert_eq. by eapply lookup_lt_Some. }
  split; [done|]. split; [done|]. split; [done|].
  split; [by apply np_take_map|]. done.
Qed.

(** [set_base_structure_removes_oscillators] on the two-atom job after
    [_check_inputs]: the atom 1 is the oscillator, the base structure is left
    with the atom 0. *)
Lemma set_base_structure_two_atoms :
  exists j' a2,
    _set_base_structure (_check_inputs two_atom_job).2 = (Ok tt, j') /\
    heap j' !! 2%nat = Some (OAtoms a2) /\
    _base_atom_ids j' = Some [0%Z] /\
    Atoms_positions a2 = [(0, 0, 0)%Q].
Proof.
  destruct (set_base_structure_removes_oscillators
              (_check_inputs two_atom_job).2 1%nat 2%nat two_atoms [1%Z]
              [5%Q] [(0, 0, 0)%Q; ((22 # 10), 0, 0)%Q])
    as (j' & a2 & base & Hset & _ & Ha2 & Hbase & Hdel & _ & Htake & _).
  - repeat split; try reflexivity. lia.
  - apply NoDup_singleton.
  - apply Forall_singleton. split; [lia|reflexivity].
  - vm_compute in Hdel. injection Hdel as <-.
    vm_compute in Htake. injection Htake as Htake.
    exists j', a2. split; [exact Hset|]. split; [exact Ha2|].
    split; [exact Hbase|]. by symmetry.
Defined.


Lemma pop_base_atom_ok_inv (ia : Z * Z) (j j' : Job) (lb : loc) (a0 : Atoms)
  (u : unit) :
  _base_structure j = Some lb -> heap j !! lb = Some (OAtoms a0) ->
  pop_base_atom ia j = (Ok u, j') ->
  exists a1,
    j' = set_heap (<[lb := OAtoms a1]> (heap j)) j /\
    S (length (atom_list a1)) = length (atom_list a0).
Proof.
  intros Hlb Ha0 H. unfold pop_base_atom in H. cbn zeta in H. minv H.
  rewrite Hlb in H.
  apply bind_ok_inv in H as (a & s & Ha & H).
  apply read_atoms_ok_inv in Ha as [-> Ha].
  rewrite Ha0 in Ha. injection Ha as <-.
  minv H. unfold write_obj in H. apply modify_ok_inv in H as ->.
  rename a into a1. exists a1. split; [done|].
  unfold Atoms_pop, py_pop in Hm.
  destruct (py_index (length (atom_list a0)) (ia.2 - ia.1)) as [k|] eqn:Ek;
    [|discriminate].
  injection Hm as <-. cbn [atom_list].
  apply py_index_lt in Ek.
  rewrite length_delete by (by apply lookup_lt_is_Some_2). lia.
Qed.

(** Every turn of the loop of [_set_base_structure] that returns has taken
    one atom out of the base structure. *)
Lemma pop_loop_length (items : list (Z * Z)) :
  forall (j j' : Job) (lb : loc) (a0 : Atoms) (u : unit),
    _base_structure j = Some lb -> heap j !! lb = Some (OAtoms a0) ->
    for_each items pop_base_atom j = (Ok u, j') ->
    exists a2,
      j' = set_heap (<[lb := OAtoms a2]> (heap j)) j /\
      (length (atom_list a2) + length items = length (atom_list a0))%nat.
Proof.
  induction items as [|ia items IH]; intros j j' lb a0 u Hlb Ha0 H.
  - apply ret_ok_inv in H as [_ ->]. exists a0.
    split; [by rewrite list_insert_id, set_heap_id|]. cbn. lia.
  - cbn [for_each] in H. apply bind_ok_inv in H as (u1 & j1 & Hpop & H).
    apply (pop_base_atom_ok_inv _ _ _ lb a0) in Hpop as (a1 & -> & Hlen1);
      try done.
    apply (IH _ _ lb a1) in H as (a2 & -> & Hlen2).
    + exists a2. split; [|cbn [length]; lia]. cbn.
      by rewrite list_insert_insert_eq.
    + done.
    + cbn. apply list_lookup_insert_eq. by eapply lookup_lt_Some.
Qed.

Lemma length_remove_dups_le {A} `{EqDecision A} (l : list A) :
  (length (remove_dups l) <= length l)%nat.
Proof.
  induction l as [|x l IH]; cbn; [lia|]. case_decide; cbn; lia.
Qed.

Lemma length_remove_dups_NoDup {A} `{EqDecision A} (l : list A) :
  length (remove_dups l) = length l <-> NoDup l.
Proof.
  induction l as [|x l IH]; cbn.
  - split; [constructor|done].
  - pose proof (length_remove_dups_le l). case_decide as Hin; cbn.
    + split; [lia|]. intros Hnd. by apply NoDup_cons in Hnd as [? _].
    + rewrite NoDup_cons. split.
      * intros [= Hlen]. split; [done|]. by apply IH.
      * intros [_ Hnd]. f_equal. by apply IH.
Qed.

(** The indices that [np.delete] keeps and the distinct indices that it
    takes out share the indices of the array between them. *)
Lemma length_complement (n : nat) (ks : list nat) :
  Forall (fun k => (k < n)%nat) ks ->
  (length (complement n ks) + length (remove_dups ks) = n)%nat.
Proof.
  intros Hlt.
  pose proof (filter_app_complement (fun a => a ∉ ks) (seq 0 n)) as Hperm.
  apply Permutation_length in Hperm.
  rewrite length_app, length_seq in Hperm. unfold complement.
  enough (length (remove_dups ks)
          = length (filter (fun a => ~ (a ∉ ks)) (seq 0 n))) by lia.
  apply Permutation_length. apply NoDup_Permutation.
  - apply NoDup_remove_dups.
  - apply NoDup_filter, NoDup_seq.
  - intros k. rewrite elem_of_remove_dups, list_elem_of_filter, elem_of_seq.
    split.
    + intros Hk. split; [by intros Hn|].
      rewrite Forall_forall in Hlt. specialize (Hlt k Hk). lia.
    + intros [Hk _]. by destruct (decide (k ∈ ks)).
Qed.

(** Whenever [_set_base_structure] returns, the base structure has lost one
    atom for every entry of the list of oscillator ids, while the base atom
    ids have lost one index for every atom that the list names.  The two
    agree in number exactly when no atom is named twice; a repeated id
    leaves a base structure with fewer atoms than there are base atom
    ids. *)
Theorem set_base_structure_atom_count (j j' : Job) (ls lb : loc) (a : Atoms)
  (ids : list Z) (ks : list Q) (pos : list vec3) :
  inputs_checked j ls lb a ids ks pos ->
  _set_base_structure j = (Ok tt, j') ->
  exists a2 base oks,
    heap j' !! lb = Some (OAtoms a2) /\ _base_atom_ids j' = Some base /\
    py_indices (Atoms_len a) ids = Some oks /\
    (Atoms_len a2 + length ids = Atoms_len a)%nat /\
    (length base + length (remove_dups oks) = Atoms_len a)%nat /\
    (Atoms_len a2 = length base <-> NoDup oks) /\
    (~ NoDup oks -> (Atoms_len a2 < length base)%nat).
Proof.
  intros (Hmode & Hls & Hals & Hlb & Halb & Hne & Hids & Hks & Hlen & Hpos) H.
  unfold _set_base_structure in H.
  apply bind_ok_inv in H as (ids' & s & Hi & H).
  apply input_oscillator_ids_ok_inv in Hi as [-> Hi].
  rewrite Hids in Hi. injection Hi as <-.
  apply bind_ok_inv in H as (u & j1 & Hloop & H).
  apply (pop_loop_length _ _ _ lb a) in Hloop as (a2 & -> & Hcount); try done.
  minv H. cbn in H. rewrite Hls in H.
  apply bind_ok_inv in H as (a' & s & Ha' & H).
  apply read_atoms_ok_inv in Ha' as [-> Ha']. cbn in Ha'.
  rewrite list_lookup_insert_ne, Hals in Ha' by done. injection Ha' as <-.
  minv H. apply modify_ok_inv in H as ->. rename a0 into base.
  apply np_delete_arange_ok in Hm as (oks & Hoks & ->).
  assert (Hlt : Forall (fun k => (k < Atoms_len a)%nat) oks).
  { apply Forall_forall. intros k Hk.
    apply (py_indices_elem _ _ _ k Hoks) in Hk as (m & _ & Hk).
    by eapply py_index_lt. }
  pose proof (length_complement _ _ Hlt) as Hcomp.
  pose proof (py_indices_length _ _ _ Hoks) as Hoklen.
  pose proof (length_remove_dups_le oks) as Hle.
  unfold enumerate in Hcount.
  rewrite length_zip, !length_map, length_seq in Hcount.
  assert (Hsorted : length (np_sort ids) = length ids).
  { unfold np_sort. by rewrite merge_sort_Permutation. }
  rewrite Hsorted, Nat.min_id in Hcount.
  exists a2, (map Z.of_nat (complement (Atoms_len a) oks)), oks.
  rewrite length_map. unfold Atoms_len in *.
  split. { cbn. apply list_lookup_insert_eq. by eapply lookup_lt_Some. }
  split; [done|]. split; [done|]. split; [done|]. split; [done|].
  rewrite <- length_remove_dups_NoDup. split; [split|]; lia.
Qed.

(** [set_base_structure_atom_count] on three atoms with the oscillator ids
    [0, 0]: the base structure is left with one atom, the base atom ids are
    the two indices 1 and 2. *)
Lemma set_base_structure_repeated_id :
  let j := (_check_inputs
              (example_job three_atoms "interactive" (VList [VInt 0; VInt 0])
                 (VList [VFloat 1; VFloat 2])
                 [(0, 0, 0)%Q; (2, 0, 0)%Q; (4, 0, 0)%Q] false)).2 in
  exists j' a2,
    _set_base_structure j = (Ok tt, j') /\
    heap j' !! 2%nat = Some (OAtoms a2) /\ Atoms_len a2 = 1%nat /\
    _base_atom_ids j' = Some [1%Z; 2%Z].
Proof.
  intros j.
  set (j' := (_set_base_structure j).2).
  assert (Hset : _set_base_structure j = (Ok tt, j'))
    by (vm_compute; reflexivity).
  destruct (set_base_structure_atom_count j j' 1%nat 2%nat three_atoms
              [0%Z; 0%Z] [1%Q; 2%Q] [(0, 0, 0)%Q; (2, 0, 0)%Q; (4, 0, 0)%Q])
    as (a2 & base & oks & Ha2 & Hbase & Hoks & Hcount & _).
  - repeat split; try reflexivity. lia.
  - exact Hset.
  - exists j', a2. split; [exact Hset|]. split; [exact Ha2|].
    split; [|reflexivity]. cbn in Hcount. lia.
Defined.


(** ** Validation returns on well-formed inputs *)

(** [_check_inputs] on a job in interactive mode whose inputs are well
    formed: the structure is copied (once for the base structure when the
    input has a structure, twice when it is taken from the reference job),
    and nothing else changes. *)
Lemma _check_inputs_ok (j : Job) (src : loc) (a : Atoms) (pos : list vec3)
  (osc_l ks_l : list PyVal) :
  server_run_mode j = "interactive" ->
  match _structure (input j) with
  | Some l => l = src
  | None => exists ref, _ref_job (input j) = Has ref /\
                        job_structure ref = Some src
  end ->
  heap j !! src = Some (OAtoms a) ->
  positions (input j) = Has pos ->
  oscillators_id_list (input j) = VList osc_l ->
  forallb is_int osc_l = true ->
  spring_constants_list (input j) = VList ks_l ->
  forallb is_number ks_l = true ->
  length osc_l = length ks_l ->
  let n := length (heap j) in
  _check_inputs j
  = (Ok tt,
     match _structure (input j) with
     | Some _ =>
         set_base_structure (Some n) (set_heap (heap j ++ [OAtoms a]) j)
     | None =>
         set_base_structure (Some (S n))
           (set_heap ((heap j ++ [OAtoms a]) ++ [OAtoms a])
              (set_input (input_set_structure (Some n) (input j))
                 (set_heap (heap j ++ [OAtoms a]) j)))
     end).
Proof.
  intros Hmode Hsrc Ha Hpos Hosc Hints Hks Hnums Hlen n.
  pose proof (lookup_lt_Some _ _ _ Ha) as Hlt.
  unfold _check_inputs, input_positions, input_ref_job_structure,
    input_ref_job, atoms_copy, read_atoms, alloc, bind, gets, modify, lift,
    ret, raise.
  rewrite Hmode. cbn [String.eqb Ascii.eqb Bool.eqb negb].
  destruct (_structure (input j)) as [l|] eqn:El.
  - subst l. rewrite Ha. job_simpl. rewrite Hpos. job_simpl.
    rewrite Hosc, Hints. cbn [negb]. job_simpl. rewrite Hks, Hnums.
    cbn [negb py_len]. job_simpl. rewrite Hlen, Nat.eqb_refl. reflexivity.
  - destruct Hsrc as (ref & Href & Hst). rewrite Href, Hst, Ha. job_simpl.
    rewrite Href. job_simpl. rewrite Hst. job_simpl.
    rewrite lookup_app_l, Ha by done. job_simpl.
    rewrite Hpos. job_simpl.
    rewrite Hosc, Hints. cbn [negb]. job_simpl. rewrite Hks, Hnums.
    cbn [negb py_len]. job_simpl. rewrite Hlen, Nat.eqb_refl.
    rewrite length_app. cbn [length]. by rewrite Nat.add_1_r.
Qed.

Lemma on_child_ok (name : string) (f : SubJob -> SubJob) (j : Job)
  (b : SubJob) :
  child_lookup (children j) name = Some b ->
  on_child name f j
  = (Ok tt, set_children (child_update (children j) name (f b)) j).
Proof.
  intros Hb. unfold on_child, self_child, bind, gets, modify, ret.
  by rewrite Hb.
Qed.

Lemma child_lookup_append_self (cs : list (string * SubJob)) (b : SubJob) :
  is_Some (child_lookup (child_append cs b) (job_name b)).
Proof.
  unfold child_append.
  destruct (existsb (String.eqb (job_name b)) (child_names cs)) eqn:E.
  - induction cs as [|[n c] cs IH]; [discriminate|].
    cbn in E. cbn [child_lookup]. rewrite String.eqb_sym.
    destruct (String.eqb (job_name b) n); [by eexists|]. by apply IH.
  - clear E. induction cs as [|[n c] cs IH]; cbn.
    + rewrite String.eqb_refl. by eexists.
    + destruct (String.eqb n (job_name b)); [by eexists|]. exact IH.
Qed.

(** [_create_base_job] with a reference job: the job has, under its base
    name, a child that holds the base structure and is open, saved and
    running, with the two frequencies raised when the job is in fast mode;
    only the children of the job change. *)
Lemma _create_base_job_ok (j : Job) (ref : SubJob) :
  _ref_job (input j) = Has ref ->
  exists cs b,
    _create_base_job j = (Ok tt, set_children cs j) /\
    child_lookup cs (_base_name j) = Some b /\
    job_structure b = _base_structure j /\
    interactive_is_open b = true /\ is_saved b = true /\
    status_running b = true /\
    (_fast_mode j = true ->
     interactive_flush_frequency b = (10 ^ 10)%Z /\
     interactive_write_frequency b = (10 ^ 10)%Z).
Proof.
  intros Href. unfold _create_base_job.
  rewrite (bind_ok input_ref_job _ j j (Some ref))
    by (unfold input_ref_job, bind, gets; by rewrite Href).
  rewrite (bind_ok _ _ j j (_base_name j)) by reflexivity.
  set (name := _base_name j).
  set (j1 := set_children (child_append (children j) (copy_to ref name)) j).
  rewrite (bind_ok (modify _) _ j j1 tt) by reflexivity.
  rewrite (bind_ok _ _ j1 j1 (_base_structure j)) by reflexivity.
  destruct (child_lookup_append_self (children j) (copy_to ref name))
    as [b0 Hb0].
  change (job_name (copy_to ref name)) with name in Hb0.
  rewrite (bind_ok _ _ _ _ _ (on_child_ok name _ j1 b0 Hb0)).
  set (b1 := sub_set_structure (_base_structure j) b0).
  set (j2 := set_children _ j1).
  assert (Hb1 : child_lookup (children j2) name = Some b1)
    by (by eapply child_lookup_update).
  rewrite (bind_ok _ _ _ _ _ (on_child_ok name _ j2 b1 Hb1)).
  set (b2 := sub_interactive_open b1).
  set (j3 := set_children _ j2).
  assert (Hb2 : child_lookup (children j3) name = Some b2)
    by (by eapply child_lookup_update).
  rewrite (bind_ok _ _ _ _ _ (on_child_ok name _ j3 b2 Hb2)).
  set (j4 := set_children _ j3).
  assert (Hb3 : child_lookup (children j4) name = Some b2)
    by (by eapply child_lookup_update).
  rewrite (bind_ok _ _ j4 j4 (_fast_mode j)) by reflexivity.
  assert (Hfast : exists cs5 b5,
    when (_fast_mode j)
      (on_child name (sub_set_flush_frequency (10 ^ 10)) ;;!
       on_child name (sub_set_write_frequency (10 ^ 10))) j4
    = (Ok tt, set_children cs5 j) /\
    child_lookup cs5 name = Some b5 /\
    job_structure b5 = _base_structure j /\ interactive_is_open b5 = true /\
    (_fast_mode j = true ->
     interactive_flush_frequency b5 = (10 ^ 10)%Z /\
     interactive_write_frequency b5 = (10 ^ 10)%Z)).
  { destruct (_fast_mode j); cbn [when].
    - rewrite (bind_ok _ _ _ _ _ (on_child_ok name _ j4 b2 Hb3)).
      set (b4 := sub_set_flush_frequency (10 ^ 10) b2).
      set (j5 := set_children _ j4).
      assert (Hb4 : child_lookup (children j5) name = Some b4)
        by (by eapply child_lookup_update).
      rewrite (on_child_ok name _ j5 b4 Hb4).
      eexists _, _. split; [reflexivity|].
      split; [by eapply child_lookup_update|]. by repeat split.
    - eexists _, b2. split; [reflexivity|]. split; [exact Hb3|].
      by repeat split. }
  destruct Hfast as (cs5 & b5 & Hwhen & Hb5 & Hst5 & Hopen5 & Hfreq5).
  rewrite (bind_ok _ _ _ _ _ Hwhen).
  set (j6 := set_children cs5 j).
  rewrite (bind_ok _ _ _ _ _ (on_child_ok name _ j6 b5 Hb5)).
  set (b6 := sub_save b5).
  set (j7 := set_children _ j6).
  assert (Hb6 : child_lookup (children j7) name = Some b6)
    by (by eapply child_lookup_update).
  rewrite (on_child_ok name _ j7 b6 Hb6).
  eexists _, (sub_set_running b6). split; [reflexivity|].
  split; [by eapply child_lookup_update|].
  split; [exact Hst5|]. split; [exact Hopen5|]. split; [done|].
  split; [done|]. exact Hfreq5.
Qed.

Lemma as_int_list_Some (v : PyVal) (ids : list Z) :
  as_int_list v = Some ids ->
  exists l, v = VList l /\ forallb is_int l = true /\ length l = length ids.
Proof.
  destruct v as [| | | |l]; try discriminate. cbn [as_int_list].
  intros H. exists l. split; [done|]. revert ids H.
  induction l as [|x l IH]; intros ids H.
  - by injection H as <-.
  - cbn in H. destruct (as_int x) as [z|] eqn:Ex; [|discriminate].
    cbn in H. destruct (mapM as_int l) as [zs|] eqn:El; [|discriminate].
    injection H as <-. destruct (IH zs eq_refl) as [Hall Hlen].
    destruct x; try discriminate. cbn. rewrite Hall, Hlen. done.
Qed.

Lemma as_number_list_Some (v : PyVal) (ks : list Q) :
  as_number_list v = Some ks ->
  exists l, v = VList l /\ forallb is_number l = true /\
            length l = length ks.
Proof.
  destruct v as [| | | |l]; try discriminate. cbn [as_number_list].
  intros H. exists l. split; [done|]. revert ks H.
  induction l as [|x l IH]; intros ks H.
  - by injection H as <-.
  - cbn in H. destruct (as_number x) as [q|] eqn:Ex; [|discriminate].
    cbn in H. destruct (mapM as_number l) as [qs|] eqn:El; [|discriminate].
    injection H as <-. destruct (IH qs eq_refl) as [Hall Hlen].
    destruct x; try discriminate; cbn; rewrite Hall, Hlen; done.
Qed.

(** What [_check_inputs] leaves behind on well-formed inputs. *)
Lemma _check_inputs_ok_checked (j : Job) (ref : SubJob) (src : loc)
  (a : Atoms) (pos : list vec3) (ids : list Z) (ks : list Q) :
  server_run_mode j = "interactive" ->
  _ref_job (input j) = Has ref ->
  match _structure (input j) with
  | Some l => l = src
  | None => job_structure ref = Some src
  end ->
  heap j !! src = Some (OAtoms a) ->
  positions (input j) = Has pos ->
  as_int_list (oscillators_id_list (input j)) = Some ids ->
  as_number_list (spring_constants_list (input j)) = Some ks ->
  length ids = length ks ->
  exists j1 ls lb,
    _check_inputs j = (Ok tt, j1) /\
    inputs_checked j1 ls lb a ids ks pos /\
    children j1 = children j /\ self_name j1 = self_name j /\
    _ref_job (input j1) = Has ref /\ _fast_mode j1 = _fast_mode j /\
    (length (heap j) <= lb)%nat /\ (lb < length (heap j1))%nat /\
    (forall l, (l < length (heap j))%nat -> heap j1 !! l = heap j !! l).
Proof.
  intros Hmode Href Hsrc Ha Hpos Hids Hks Hlen.
  destruct (as_int_list_Some _ _ Hids) as (osc_l & Hosc & Hints & Hl1).
  destruct (as_number_list_Some _ _ Hks) as (ks_l & Hksl & Hnums & Hl2).
  pose proof (lookup_lt_Some _ _ _ Ha) as Hlt.
  assert (Hsrc' : match _structure (input j) with
                  | Some l => l = src
                  | None => exists ref, _ref_job (input j) = Has ref /\
                                        job_structure ref = Some src
                  end).
  { destruct (_structure (input j)); [done|]. by exists ref. }
  pose proof (_check_inputs_ok j src a pos osc_l ks_l Hmode Hsrc' Ha Hpos
                Hosc Hints Hksl Hnums ltac:(congruence)) as Hcheck.
  cbn zeta in Hcheck.
  destruct (_structure (input j)) as [l|] eqn:El.
  - subst l. eexists _, src, (length (heap j)). split; [exact Hcheck|].
    split.
    { unfold inputs_checked. job_simpl.
      rewrite lookup_app_l, list_lookup_middle by done.
      repeat (split; [done || lia|]). done. }
    job_simpl. rewrite length_app. cbn [length].
    repeat (split; [done || lia|]).
    intros l Hl. by rewrite lookup_app_l.
  - eexists _, (length (heap j)), (S (length (heap j))).
    split; [exact Hcheck|]. split.
    { unfold inputs_checked. job_simpl.
      rewrite lookup_app_l by (rewrite length_app; cbn; lia).
      rewrite list_lookup_middle by done.
      rewrite list_lookup_middle by (rewrite length_app; cbn; lia).
      repeat (split; [done || lia|]). done. }
    job_simpl. rewrite !length_app. cbn [length].
    repeat (split; [done || lia|]).
    intros l Hl. rewrite lookup_app_l by (rewrite length_app; cbn; lia).
    by rewrite lookup_app_l.
Qed.

(** Validation returns on well-formed inputs: a job in interactive mode
    with a reference job, a structure [a] (its own or the reference job's),
    positions, and as many spring constants as oscillator ids, the ids
    distinct indices of the structure counted from the front.  It then has
    the base structure with the atoms of [a] at the base atom ids, a force
    array of one zero row for every row of the positions, and under its base
    name a child job that holds the base structure and is open, saved and
    running. *)
Theorem validate_ready_to_run_succeeds (j : Job) (ref : SubJob) (src : loc)
  (a : Atoms) (pos : list vec3) (ids : list Z) (ks : list Q) :
  server_run_mode j = "interactive" ->
  _ref_job (input j) = Has ref ->
  match _structure (input j) with
  | Some l => l = src
  | None => job_structure ref = Some src
  end ->
  heap j !! src = Some (OAtoms a) ->
  positions (input j) = Has pos ->
  as_int_list (oscillators_id_list (input j)) = Some ids ->
  as_number_list (spring_constants_list (input j)) = Some ks ->
  length ids = length ks ->
  NoDup ids ->
  Forall (fun x => (0 <= x < Z.of_nat (Atoms_len a))%Z) ids ->
  exists j4 lb lf a2 base b,
    validate_ready_to_run j = (Ok tt, j4) /\
    _base_structure j4 = Some lb /\ heap j4 !! lb = Some (OAtoms a2) /\
    _base_atom_ids j4 = Some base /\
    np_take (atom_list a) base = Ok (atom_list a2) /\
    _forces j4 = Some lf /\
    heap j4 !! lf = Some (ONdarray (replicate (length pos) vzero)) /\
    child_lookup (children j4) (_base_name j4) = Some b /\
    job_structure b = Some lb /\ interactive_is_open b = true /\
    is_saved b = true /\ status_running b = true.
Proof.
  intros Hmode Href Hsrc Ha Hpos Hids Hks Hlen Hnd Hrange.
  destruct (_check_inputs_ok_checked j ref src a pos ids ks Hmode Href Hsrc
              Ha Hpos Hids Hks Hlen)
    as (j1 & ls & lb & Hcheck & Hchecked & Hcs1 & Hname1 & Href1 & Hfast1
        & Hlb1 & Hlb2 & Hframe).
  destruct (_set_base_structure_ok j1 ls lb a ids ks pos Hchecked Hnd Hrange)
    as (a2 & base & Hset & Hdel & Htake & _ & Hcell & Hpbc).
  set (j2 := set_base_atom_ids (Some base)
               (set_heap (<[lb := OAtoms a2]> (heap j1)) j1)) in *.
  destruct (_create_base_job_ok j2 ref Href1)
    as (cs & b & Hcreate & Hb & Hbst & Hopen & Hsaved & Hrun & _).
  destruct Hchecked as (_ & _ & _ & Hlb & _ & _ & _ & _ & _ & Hpos1).
  exists (set_forces (Some (length (heap j2)))
            (set_heap (heap j2 ++ [ONdarray (replicate (length pos) vzero)])
               (set_children cs j2))),
    lb, (length (heap j2)), a2, base, b.
  split.
  { unfold validate_ready_to_run.
    rewrite (bind_ok _ _ _ _ _ Hcheck), (bind_ok _ _ _ _ _ Hset),
      (bind_ok _ _ _ _ _ Hcreate).
    unfold input_positions, alloc, bind, gets, modify, ret.
    unfold j2. job_simpl. by rewrite Hpos1. }
  unfold _base_name, j2. job_simpl. split; [exact Hlb|]. split.
  { rewrite lookup_app_l by (by rewrite length_insert).
    by apply list_lookup_insert_eq. }
  split; [done|]. split; [done|]. split; [done|].
  split; [by apply list_lookup_middle|].
  split; [exact Hb|]. split; [by rewrite Hbst|]. done.
Qed.

(** [validate_ready_to_run_succeeds] on the two-atom job. *)
Lemma validate_two_atom_job_succeeds :
  exists j4 a2,
    validate_ready_to_run two_atom_job = (Ok tt, j4) /\
    _base_structure j4 = Some 2%nat /\ heap j4 !! 2%nat = Some (OAtoms a2) /\
    Atoms_len a2 = 1%nat /\ _forces j4 = Some 3%nat /\
    child_names (children j4) = ["job__base"].
Proof.
  destruct (validate_ready_to_run_succeeds two_atom_job example_ref_job
              0%nat two_atoms [(0, 0, 0)%Q; ((22 # 10), 0, 0)%Q] [1%Z] [5%Q])
    as (j4 & lb & lf & a2 & base & b & Hval & Hlb & Ha2 & Hbase & Htake & Hlf
        & _).
  - reflexivity.
  - reflexivity.
  - reflexivity.
  - reflexivity.
  - reflexivity.
  - reflexivity.
  - reflexivity.
  - reflexivity.
  - apply NoDup_singleton.
  - apply Forall_singleton. split; [lia|reflexivity].
  - assert (Hj4 : j4 = validated_two_atom_job).
    { unfold validated_two_atom_job. by rewrite Hval. }
    subst j4. vm_compute in Hlb. injection Hlb as <-.
    vm_compute in Hlf. injection Hlf as <-.
    exists validated_two_atom_job, a2. split; [exact Hval|].
    split; [reflexivity|]. split; [exact Ha2|].
    split; [|split; reflexivity].
    vm_compute in Ha2. by injection Ha2 as <-.
Defined.


(** ** Validation works on copies *)

(** The store after [_check_inputs]: the objects that were there, and after
    them the copies of the structure, the last one the base structure. *)
Lemma _check_inputs_store (j j1 : Job) (u : unit) :
  _check_inputs j = (Ok u, j1) ->
  exists extra lb,
    heap j1 = heap j ++ extra /\ _base_structure j1 = Some lb /\
    (length (heap j) <= lb < length (heap j1))%nat /\
    input_set_structure (_structure (input j)) (input j1) = input j /\
    _forces j1 = _forces j /\ _base_atom_ids j1 = _base_atom_ids j /\
    output j1 = output j /\ interactive_cache j1 = interactive_cache j /\
    project_hdf5 j1 = project_hdf5 j /\ status j1 = status j.
Proof.
  unfold _check_inputs. intros H. minv H.
  apply bind_ok_inv in H as (u0 & s & Hmode & H).
  destruct (String.eqb (server_run_mode j) "interactive"); [|discriminate].
  apply ret_ok_inv in Hmode as [_ ->]. minv H.
  apply bind_ok_inv in H as (u1 & j0 & H1 & H).
  assert (Hrest : j1 = j0).
  { apply bind_ok_inv in H as (p & s & Hp & H).
    apply input_positions_ok_inv in Hp as [-> Hp].
    apply bind_ok_inv in H as (u2 & s & Hnone & H).
    destruct p as [pos|]; [|discriminate].
    apply ret_ok_inv in Hnone as [_ ->]. minv H.
    apply bind_ok_inv in H as (u3 & s & Hints & H).
    destruct (oscillators_id_list (input j0)) as [| | | |osc_l];
      try discriminate.
    destruct (forallb is_int osc_l); [|discriminate].
    apply ret_ok_inv in Hints as [_ ->]. minv H.
    apply bind_ok_inv in H as (u4 & s & Hnums & H).
    destruct (spring_constants_list (input j0)) as [| | | |ks_l];
      try discriminate.
    destruct (forallb is_number ks_l); [|discriminate].
    apply ret_ok_inv in Hnums as [_ ->]. minv H.
    destruct (negb _); [discriminate|].
    by apply ret_ok_inv in H as [_ ->]. }
  subst j1. clear H.
  destruct (_structure (input j)) as [l0|] eqn:El0.
  - apply bind_ok_inv in H1 as (c & s1 & Hc & H1).
    apply atoms_copy_ok_inv in Hc as (l0' & a & [= <-] & Ha & -> & ->).
    apply modify_ok_inv in H1 as ->.
    exists [OAtoms a], (length (heap j)). job_simpl.
    rewrite length_app. cbn [length].
    split; [done|]. split; [done|]. split; [lia|].
    split; [|by repeat split].
    destruct (input j). cbn in El0. by subst.
  - apply bind_ok_inv in H1 as (r & s1 & Hr & H1).
    apply input_ref_job_structure_ok_inv in Hr as (-> & b & Hb & ->).
    apply bind_ok_inv in H1 as (c & s1 & Hc & H1).
    apply atoms_copy_ok_inv in Hc as (l0 & a & Hl0 & Ha & -> & ->).
    minv H1.
    apply bind_ok_inv in H1 as (r' & s1 & Hr' & H1).
    apply input_ref_job_structure_ok_inv in Hr' as (-> & b' & Hb' & ->).
    apply bind_ok_inv in H1 as (c' & s1 & Hc' & H1).
    apply atoms_copy_ok_inv in Hc' as (l0' & a' & Hl0' & Ha' & -> & ->).
    apply modify_ok_inv in H1 as ->.
    exists [OAtoms a; OAtoms a'], (length (heap j ++ [OAtoms a])). job_simpl.
    rewrite <- app_assoc. rewrite !length_app. cbn [length app].
    split; [done|]. split; [done|]. split; [lia|].
    split; [|by repeat split].
    destruct (input j). cbn in El0. by subst.
Qed.

(** A validation that returns has touched none of the objects that were in
    the store before: the structure of the input, the structure of the
    reference job and every other object are what they were.  The atoms of
    the oscillators are taken out of a copy, and that copy and the force
    array are objects that did not exist before. *)
Theorem validate_keeps_store (j j4 : Job) :
  validate_ready_to_run j = (Ok tt, j4) ->
  (forall l o, heap j !! l = Some o -> heap j4 !! l = Some o) /\
  exists lb lf,
    _base_structure j4 = Some lb /\ _forces j4 = Some lf /\
    heap j !! lb = None /\ heap j !! lf = None /\ lb <> lf /\
    is_Some (heap j4 !! lb) /\ is_Some (heap j4 !! lf).
Proof.
  intros H.
  apply validate_ready_to_run_ok_inv in H
    as (j1 & ls & lb & a & ids & ks & pos & a2 & base & cs & Hcheck
        & Hchecked & Hdel & ->).
  apply _check_inputs_store in Hcheck
    as (extra & lb' & Hheap & Hlb' & Hrange & _).
  destruct Hchecked as (_ & _ & _ & Hlb & _).
  rewrite Hlb in Hlb'. injection Hlb' as <-. job_simpl.
  split.
  - intros l o Hl. pose proof (lookup_lt_Some _ _ _ Hl) as Hlt.
    rewrite lookup_app_l by (rewrite length_insert; lia).
    rewrite list_lookup_insert_ne by lia.
    rewrite Hheap. by rewrite lookup_app_l.
  - exists lb, (length (heap j1)). split; [done|]. split; [done|].
    split; [apply lookup_ge_None_2; lia|].
    split; [apply lookup_ge_None_2; rewrite Hheap, length_app; lia|].
    split; [lia|]. split.
    + rewrite lookup_app_l by (rewrite length_insert; lia).
      rewrite list_lookup_insert_eq by lia. by eexists.
    + rewrite <- (length_insert (heap j1) lb (OAtoms a2)).
      rewrite list_lookup_middle by done. by eexists.
Qed.

(** [validate_keeps_store] on the two-atom job: the structure of the
    reference job, at address 0, still has its two atoms after the
    oscillator has been taken out of the base structure. *)
Lemma validate_two_atom_job_keeps_structure :
  heap validated_two_atom_job !! 0%nat = Some (OAtoms two_atoms).
Proof.
  assert (Hval : validate_ready_to_run two_atom_job
                 = (Ok tt, validated_two_atom_job))
    by (vm_compute; reflexivity).
  destruct (validate_keeps_store _ _ Hval) as [Hkeep _].
  by apply Hkeep.
Defined.


(** ** What a step changes, and what it records *)

Section StepRecords.

Variable find_mic : Atoms -> list vec3 -> list vec3.
Variable calc_static : Atoms -> list vec3 -> list vec3 * Q.

(** A step that returns changes the status, the base job, the force array
    and the history, and nothing else: not the input, not the output, not
    the file, not the base structure or the base atom ids, and no object of
    the store but the force array.  So the forces and the energy of the step
    are not yet what [interactive_forces_getter] and
    [interactive_energy_pot_getter] return: these read the output, which
    only [interactive_close] assigns. *)
Theorem step_changes_nothing_else (j j' : Job) :
  run_if_interactive find_mic calc_static j = (Ok tt, j') ->
  input j' = input j /\ output j' = output j /\
  project_hdf5 j' = project_hdf5 j /\
  _forces j' = _forces j /\ _base_structure j' = _base_structure j /\
  _base_atom_ids j' = _base_atom_ids j /\
  status j' = running /\
  (forall l, _forces j <> Some l -> heap j' !! l = heap j !! l) /\
  interactive_forces_getter j' = interactive_forces_getter j /\
  interactive_energy_pot_getter j' = interactive_energy_pot_getter j.
Proof.
  intros Hrun. pose proof Hrun as Hrun'.
  apply run_if_interactive_ok_inv in Hrun
    as (l & F & F1 & F2 & base & osc & bf & be & hf & he & cs & c'
        & Hl & HF & Hbase & Hosc & Hb & HF1 & Hh & HF2 & -> & Hcf & Hce).
  unfold interactive_forces_getter, interactive_energy_pot_getter. job_simpl.
  repeat (split; [done|]).
  split; [|done].
  intros l0 Hl0. apply list_lookup_insert_ne. congruence.
Qed.

(** The history after a step that returns: the caches of the main lists and
    of the debug lists. *)
Lemma run_if_interactive_cache (j j' : Job) (u : unit) :
  run_if_interactive find_mic calc_static j = (Ok u, j') ->
  exists l F2 base osc be he,
    _forces j = Some l /\ heap j' !! l = Some (ONdarray F2) /\
    _base_atom_ids j = Some base /\
    as_int_list (oscillators_id_list (input j)) = Some osc /\
    let c := interactive_cache j in
    let c' := interactive_cache j' in
    cache_forces c' = cache_forces c ++ [l] /\
    cache_energy_pot c' = cache_energy_pot c ++ [(be + he)%Q] /\
    if save_debug_data (input j)
    then exists bf hf,
           np_take F2 base = Ok bf /\ np_take F2 osc = Ok hf /\
           cache_base_forces c' = cache_base_forces c ++ [bf] /\
           cache_base_energy_pot c' = cache_base_energy_pot c ++ [be] /\
           cache_harmonic_forces c' = cache_harmonic_forces c ++ [hf] /\
           cache_harmonic_energy_pot c'
           = cache_harmonic_energy_pot c ++ [he]
    else cache_base_forces c' = cache_base_forces c /\
         cache_base_energy_pot c' = cache_base_energy_pot c /\
         cache_harmonic_forces c' = cache_harmonic_forces c /\
         cache_harmonic_energy_pot c' = cache_harmonic_energy_pot c.
Proof.
  unfold run_if_interactive. intros H. minv H.
  apply bind_ok_inv in H as ([bf be] & s & Hbase & H).
  apply _calc_static_base_job_ok_inv in Hbase
    as (cs & pos & base & sel & b & lb & ab & -> & Hpos & Hb & Hsel & _).
  simpl in Hpos, Hb.
  apply bind_ok_inv in H as (base' & s & Hids & H).
  apply base_atom_ids_ok_inv in Hids as [-> Hids]. simpl in Hids.
  rewrite Hb in Hids. injection Hids as <-.
  apply bind_ok_inv in H as (u1 & s & Hput & H).
  apply forces_put_ok_inv in Hput as (l & F & F1 & Hl & HF & HF1 & ->).
  simpl in Hl, HF, HF1.
  apply bind_ok_inv in H as ([hf he] & s & Hharm & H).
  apply _calc_harmonic_ok_inv in Hharm
    as (-> & ls & a & pos' & ks & osc & Hls & Ha & Hpos' & Hks & Hosc & Hcalc).
  simpl in Hosc.
  apply bind_ok_inv in H as (osc' & s & Hosc' & H).
  apply input_oscillator_ids_ok_inv in Hosc' as [-> Hosc']. simpl in Hosc'.
  rewrite Hosc in Hosc'. injection Hosc' as <-.
  apply bind_ok_inv in H as (u2 & s & Hput2 & H).
  apply forces_put_ok_inv in Hput2 as (l' & F1' & F2 & Hl' & HF1' & HF2 & ->).
  simpl in Hl', HF1', HF2. rewrite Hl in Hl'. injection Hl' as <-.
  assert (Hlt : (l < length (heap j))%nat) by (by eapply lookup_lt_Some).
  minv H. simpl in H. rewrite Hl in H.
  apply bind_ok_inv in H as (u3 & s & Hc1 & H).
  unfold on_cache in Hc1. apply modify_ok_inv in Hc1 as ->.
  apply bind_ok_inv in H as (u4 & s & Hc2 & H).
  unfold on_cache in Hc2. apply modify_ok_inv in Hc2 as ->.
  minv H. simpl in H.
  exists l, F2, base, osc, be, he.
  destruct (save_debug_data (input j)) eqn:Edebug; cbn [when] in H.
  - apply bind_ok_inv in H as (ids' & s & Hids' & H).
    apply base_atom_ids_ok_inv in Hids' as [-> Hids']. simpl in Hids'.
    rewrite Hb in Hids'. injection Hids' as <-.
    apply bind_ok_inv in H as (bf' & s & Hbf' & H).
    apply forces_take_ok_inv in Hbf' as (-> & lx & Fx & Hlx & HFx & Hbf').
    simpl in Hlx, HFx. rewrite Hl in Hlx. injection Hlx as <-.
    rewrite list_insert_insert_eq, list_lookup_insert_eq in HFx by done.
    injection HFx as <-.
    apply bind_ok_inv in H as (u5 & s & Hc3 & H).
    unfold on_cache in Hc3. apply modify_ok_inv in Hc3 as ->.
    apply bind_ok_inv in H as (u6 & s & Hc4 & H).
    unfold on_cache in Hc4. apply modify_ok_inv in Hc4 as ->.
    apply bind_ok_inv in H as (osc' & s & Hosc' & H).
    apply input_oscillator_ids_ok_inv in Hosc' as [-> Hosc']. simpl in Hosc'.
    rewrite Hosc in Hosc'. injection Hosc' as <-.
    apply bind_ok_inv in H as (hf' & s & Hhf' & H).
    apply forces_take_ok_inv in Hhf' as (-> & ly & Fy & Hly & HFy & Hhf').
    simpl in Hly, HFy. rewrite Hl in Hly. injection Hly as <-.
    rewrite list_insert_insert_eq, list_lookup_insert_eq in HFy by done.
    injection HFy as <-.
    apply bind_ok_inv in H as (u7 & s & Hc5 & H).
    unfold on_cache in Hc5. apply modify_ok_inv in Hc5 as ->.
    unfold on_cache in H. apply modify_ok_inv in H as ->.
    cbn -[insert]. rewrite list_insert_insert_eq.
    split; [done|]. split; [by apply list_lookup_insert_eq|].
    split; [done|]. split; [done|]. split; [done|]. split; [done|].
    exists bf', hf'. by repeat split.
  - apply ret_ok_inv in H as [_ ->].
    cbn -[insert]. rewrite list_insert_insert_eq.
    split; [done|]. split; [by apply list_lookup_insert_eq|].
    by repeat split.
Qed.

(** The history is only ever appended to.  A step that returns adds one
    entry to the list of forces and one to the list of energies and leaves
    the entries before them in place.  With [save_debug_data] it adds one
    entry to each of the four debug lists: the rows of the force array at
    the base atom ids and at the oscillator ids, as the array is after the
    step, and the base energy and the harmonic energy, whose sum is the
    energy that the step records; these are arrays of their own, which later
    steps do not touch.  Without [save_debug_data] the debug lists stay as
    they are. *)
Theorem step_appends_to_history (j j' : Job) :
  run_if_interactive find_mic calc_static j = (Ok tt, j') ->
  let c := interactive_cache j in
  let c' := interactive_cache j' in
  length (cache_forces c') = S (length (cache_forces c)) /\
  (exists e, cache_energy_pot c' = cache_energy_pot c ++ [e] /\
     (save_debug_data (input j) = true ->
      exists be he F base osc bf hf,
        (e == be + he)%Q /\
        recorded_forces j' (length (cache_forces c)) = Some F /\
        _base_atom_ids j = Some base /\
        as_int_list (oscillators_id_list (input j)) = Some osc /\
        np_take F base = Ok bf /\ np_take F osc = Ok hf /\
        cache_base_forces c' = cache_base_forces c ++ [bf] /\
        cache_base_energy_pot c' = cache_base_energy_pot c ++ [be] /\
        cache_harmonic_forces c' = cache_harmonic_forces c ++ [hf] /\
        cache_harmonic_energy_pot c'
        = cache_harmonic_energy_pot c ++ [he])) /\
  (save_debug_data (input j) = false ->
   cache_base_forces c' = cache_base_forces c /\
   cache_base_energy_pot c' = cache_base_energy_pot c /\
   cache_harmonic_forces c' = cache_harmonic_forces c /\
   cache_harmonic_energy_pot c' = cache_harmonic_energy_pot c).
Proof.
  intros Hrun c c'.
  apply run_if_interactive_cache in Hrun
    as (l & F2 & base & osc & be & he & Hl & HF2 & Hbase & Hosc & Hcf & Hce
        & Hdebug).
  fold c c' in Hcf, Hce, Hdebug.
  split; [rewrite Hcf, length_app; cbn; lia|]. split.
  - exists (be + he)%Q. split; [done|]. intros Hd. rewrite Hd in Hdebug.
    destruct Hdebug as (bf & hf & Hbf & Hhf & H1 & H2 & H3 & H4).
    exists be, he, F2, base, osc, bf, hf. split; [reflexivity|].
    split; [|by repeat split].
    unfold recorded_forces. fold c'. rewrite Hcf, list_lookup_middle by done.
    unfold array_at. by rewrite HF2.
  - intros Hd. by rewrite Hd in Hdebug.
Qed.

End StepRecords.

(** [step_changes_nothing_else] on the first step of the two-atom job: the
    getters still return nothing. *)
Lemma first_step_not_in_output :
  interactive_forces_getter after_first_step = None /\
  interactive_energy_pot_getter after_first_step = None.
Proof.
  assert (Hrun : run_if_interactive free_mic stub_calc validated_two_atom_job
                 = (Ok tt, after_first_step)) by (vm_compute; reflexivity).
  destruct (step_changes_nothing_else free_mic stub_calc _ _ Hrun)
    as (_ & _ & _ & _ & _ & _ & _ & _ & Hf & He).
  rewrite Hf, He. by split.
Defined.

(** [step_appends_to_history] on the second step of the two-atom job, which
    saves debug data: every list has two entries then. *)
Lemma second_step_history :
  let c := interactive_cache after_second_step in
  length (cache_forces c) = 2%nat /\ length (cache_energy_pot c) = 2%nat /\
  length (cache_base_forces c) = 2%nat /\
  length (cache_harmonic_energy_pot c) = 2%nat.
Proof.
  assert (Hrun : run_if_interactive free_mic stub_calc
                   (positions_setter [(0, 0, 0)%Q; ((24 # 10), 0, 0)%Q]
                      after_first_step).2
                 = (Ok tt, after_second_step)) by (vm_compute; reflexivity).
  destruct (step_appends_to_history free_mic stub_calc _ _ Hrun)
    as (Hf & (e & He & Hdebug) & _).
  destruct (Hdebug eq_refl)
    as (be & he & F & base & osc & bf & hf & _ & _ & _ & _ & _ & _ & Hbf & _
        & _ & Hhe).
  cbn zeta. rewrite Hf, He, Hbf, Hhe, !length_app. by repeat split.
Defined.


(** ** Saving *)

(** [to_hdf] returns only on a job that has a reference job, and then the
    job in memory is what it was but for one thing: the reference job, taken
    out of the input for the time of the write and put back after it, has
    become a child of the job.  The file holds the children as they were
    before that, the input by value without the reference job, and the
    output. *)
Theorem to_hdf_keeps_job (j j' : Job) :
  to_hdf j = (Ok tt, j') ->
  exists ref st,
    _ref_job (input j) = Has ref /\
    input j' = input j /\ output j' = output j /\ heap j' = heap j /\
    interactive_cache j' = interactive_cache j /\ status j' = status j /\
    children j' = child_append (children j) ref /\
    is_Some (child_lookup (children j') (job_name ref)) /\
    hdf_children (project_hdf5 j') = children j /\
    structure_value j st /\
    hdf_input (project_hdf5 j') = Some (stored_input st (input j)) /\
    st_ref_job (stored_input st (input j)) = Missing /\
    hdf_output (project_hdf5 j') = Some (output j).
Proof.
  intros H. apply to_hdf_ok_inv in H as (ref & st & Href & Hst & ->).
  exists ref, st. job_simpl. split; [done|]. split.
  { destruct (input j). cbn in *. by subst. }
  repeat (split; [done|]). split; [apply child_lookup_append_self|].
  by repeat split.
Qed.

(** [to_hdf_keeps_job] on the two-atom job after its second step. *)
Lemma to_hdf_after_second_step :
  exists j',
    to_hdf after_second_step = (Ok tt, j') /\
    input j' = input after_second_step /\
    child_names (children j') = ["job__base"; "ref"] /\
    child_names (hdf_children (project_hdf5 j')) = ["job__base"].
Proof.
  set (j' := (to_hdf after_second_step).2).
  assert (Hto : to_hdf after_second_step = (Ok tt, j'))
    by (vm_compute; reflexivity).
  destruct (to_hdf_keeps_job _ _ Hto)
    as (ref & st & _ & Hin & _ & _ & _ & _ & _ & _ & _).
  exists j'. split; [exact Hto|]. split; [exact Hin|].
  split; vm_compute; reflexivity.
Defined.

(** On a job whose reference job is [None], as it is on a new job, the
    write fails: [to_hdf] raises an [AttributeError] when it appends the
    reference job, after it has taken the item out of the input and before
    it has written input or output.  The item is not put back, so that from
    then on even the read of [input.ref_job] raises. *)
Theorem to_hdf_without_ref_job (j : Job) :
  _ref_job (input j) = IsNone ->
  exists msg j',
    to_hdf j = (Raise (AttributeError msg), j') /\
    _ref_job (input j') = Missing /\
    hdf_input (project_hdf5 j') = hdf_input (project_hdf5 j) /\
    hdf_output (project_hdf5 j') = hdf_output (project_hdf5 j) /\
    (exists msg', input_ref_job j' = (Raise (AttributeError msg'), j')) /\
    exists msg', to_hdf j' = (Raise (KeyError msg'), j').
Proof.
  intros Href. eexists _, _. split.
  { unfold to_hdf, super_to_hdf, pop_ref, append, on_hdf, bind, gets, modify,
      ret, raise.
    job_simpl. rewrite Href. reflexivity. }
  job_simpl. repeat (split; [done|]). split.
  - eexists. reflexivity.
  - eexists. reflexivity.
Qed.

(** [to_hdf_without_ref_job] on a new job. *)
Lemma to_hdf_new_job_fails :
  exists msg j',
    to_hdf (__init__ [] empty_hdf "job" "interactive")
    = (Raise (AttributeError msg), j') /\
    _ref_job (input j') = Missing.
Proof.
  destruct (to_hdf_without_ref_job (__init__ [] empty_hdf "job" "interactive")
              eq_refl) as (msg & j' & Hto & Href & _).
  by exists msg, j'.
Defined.

(** ** Closing *)

Section CloseWrites.

Variable engine_close : SubJob -> Res SubJob.

(** What [interactive_close] leaves when it returns: the job is finished,
    its output holds the energies of the history and, stacked, the arrays
    that the entries of the list of forces refer to at that moment; the
    debug fields of the output are assigned only with [save_debug_data].
    The file, however, holds the output as it was before the close: the
    output is written before the history is assigned to it. *)
Theorem interactive_close_writes_old_output (j j1 : Job) :
  interactive_close engine_close j = (Ok tt, j1) ->
  status j1 = finished /\
  energy_pot (output j1) = Some (cache_energy_pot (interactive_cache j)) /\
  (exists fs,
     mapM (array_at (heap j)) (cache_forces (interactive_cache j)) = Some fs /\
     forces (output j1) = Some fs /\
     length fs = length (cache_forces (interactive_cache j))) /\
  (if save_debug_data (input j)
   then base_forces (output j1)
        = Some (cache_base_forces (interactive_cache j)) /\
        harmonic_forces (output j1)
        = Some (cache_harmonic_forces (interactive_cache j))
   else base_forces (output j1) = base_forces (output j) /\
        harmonic_forces (output j1) = harmonic_forces (output j)) /\
  hdf_output (project_hdf5 j1) = Some (output j) /\
  interactive_cache j1 = interactive_cache j /\ input j1 = input j.
Proof.
  intros H1.
  destruct (interactive_close_ok_inv _ _ _ _ H1)
    as (b & b' & ref & st & fs & Hb & Hclose & Href & Hst & Hfs).
  rewrite (interactive_close_ok _ _ _ _ _ _ _ Hb Hclose Href Hst Hfs) in H1.
  injection H1 as <-. job_simpl. unfold closed_output.
  split; [done|]. split; [by destruct (save_debug_data (input j))|].
  split.
  { exists fs. split; [done|].
    split; [by destruct (save_debug_data (input j))|].
    by apply length_mapM in Hfs. }
  split; [by destruct (save_debug_data (input j))|].
  split; [done|]. split; [done|].
  destruct (input j). cbn in *. by subst.
Qed.

End CloseWrites.

(** [interactive_close_writes_old_output] on the run of two steps: the
    output of the closed job has both energies, the output in the file has
    none. *)
Lemma close_after_second_step :
  (exists es, energy_pot (output after_close) = Some es /\
              length es = 2%nat) /\
  (exists o, hdf_output (project_hdf5 after_close) = Some o /\
             energy_pot o = None).
Proof.
  assert (H1 : interactive_close stub_close after_second_step
               = (Ok tt, after_close)) by (vm_compute; reflexivity).
  destruct (interactive_close_writes_old_output stub_close _ _ H1)
    as (_ & He & _ & _ & Hfile & _).
  split.
  - eexists. split; [exact He|]. vm_compute. reflexivity.
  - eexists. split; [exact Hfile|]. reflexivity.
Defined.

End DecoupledOscillatorsProperties.

(** * Properties of [FreeEnergy] *)

Module FreeEnergyProperties.
Import Py Atomistics FreeEnergy PyFacts.
Local Open Scope py_scope.

(** ** Cleanup *)

Section Undeletable.

(** An entry [x] that the system does not let go, among the entries [all]
    of the project, none other of which has the path of [x]. *)
Variable x : DirEntry.
Variable all : list DirEntry.
Hypothesis x_locked : entry_deletable x = false.
Hypothesis x_unique :
  forall y, y ∈ all -> entry_path y = entry_path x -> y = x.





End Undeletable.


Section Gates.

Variable mean_cell : list (list vec3) -> list vec3.
Variable run_min_npt_job : Atoms -> SubJob * list DirEntry.
Variable fit_A_to_G : option Q -> list Q -> Z -> Res Q.


(** The stage next to it checks its upstream job: without an NPT-MD job, or
    with one whose status is not "finished", [get_npt_md_structure] raises a
    [ValueError] and leaves the job as it was. *)
Lemma get_npt_md_structure_gated (j : Job) :
  (_npt_job j = None ->
   exists msg,
     get_npt_md_structure mean_cell run_min_npt_job j
     = (Raise (ValueError msg), j)) /\
  (forall npt, _npt_job j = Some npt -> status npt <> "finished" ->
     get_npt_md_structure mean_cell run_min_npt_job j
     = (Raise (ValueError "the NPT-MD job is not finished"), j)).
Proof.
  split.
  - intros Hnone. eexists. unfold get_npt_md_structure.
    rewrite (bind_ok _ _ j j None) by (unfold gets; by rewrite Hnone).
    reflexivity.
  - intros npt Hnpt Hstatus. apply String.eqb_neq in Hstatus.
    unfold get_npt_md_structure.
    rewrite (bind_ok _ _ j j (Some npt)) by (unfold gets; by rewrite Hnpt).
    rewrite Hstatus. reflexivity.
Qed.

(** [get_A_to_G_correction] checks that there is an NPT-MD job. *)
Lemma get_A_to_G_correction_requires_job (j : Job) :
  _npt_job j = None ->
  exists msg,
    get_A_to_G_correction fit_A_to_G j = (Raise (ValueError msg), j).
Proof.
  intros Hnone. eexists. unfold get_A_to_G_correction.
  rewrite (bind_ok _ _ j j None) by (unfold gets; by rewrite Hnone).
  reflexivity.
Qed.

(** It does not look at the status of that job: whenever the fit of the
    volumes succeeds, the correction is written to the output. *)
Lemma get_A_to_G_correction_ignores_status (j : Job) (npt : SubJob) (c : Q) :
  _npt_job j = Some npt ->
  fit_A_to_G (temperature (input j))
    (py_slice (output_volume npt) (_thermalize_snapshots j) (-1))
    (md_n_bins (input j)) = Ok c ->
  get_A_to_G_correction fit_A_to_G j
  = (Ok tt, set_output (out_set_fe_A_to_G_correction c (output j)) j).
Proof.
  intros Hnpt Hfit. unfold get_A_to_G_correction.
  rewrite (bind_ok _ _ j j (Some npt)) by (unfold gets; by rewrite Hnpt).
  rewrite (bind_ok _ _ j j (_thermalize_snapshots j)) by reflexivity.
  rewrite (bind_ok _ _ j j (input j)) by reflexivity.
  rewrite (bind_ok (lift _) _ j j c) by (unfold lift; by rewrite Hfit).
  reflexivity.
Qed.

End Gates.



(** C6, the code at the failing input: the NPT-MD job is there but its
    status is "aborted".  [get_npt_md_structure] refuses to run and leaves
    the job as it was; [get_A_to_G_correction] runs and writes its result to
    the output. *)
Lemma C6_aborted_job_passes :
  get_npt_md_structure stub_mean_cell stub_run_min_npt_job
    (example_job "aborted" [])
  = (Raise (ValueError "the NPT-MD job is not finished"),
     example_job "aborted" []) /\
  exists j',
    get_A_to_G_correction stub_fit_A_to_G (example_job "aborted" [])
    = (Ok tt, j') /\
    fe_A_to_G_correction (output j') = Some (- (1 # 100))%Q /\
    output j' <> output (example_job "aborted" []).
Proof.
  split; [reflexivity|]. eexists. split; [vm_compute; reflexivity|].
  split; [reflexivity|]. discriminate.
Qed.

End FreeEnergyProperties.
